(** * Crawler job subsystem: a shallow embedding and its properties

    The development follows the Python sources of the crawler package:

    - [Py]         the pieces of Python's runtime the code relies on
                   (exceptions, [str] methods, dictionaries as values);
    - [Robots]     [crawler/robots/robots_parser.py];
    - [Sitemap]    [crawler/crawler/sitemap_crawler.py];
    - [Extractor]  [crawler/extractor/html_extractor.py];
    - [Manager]    [crawler/manager/crawler_manager.py].

    Strings are modelled as byte strings; [str.strip] and [str.lower] act on
    the ASCII range only.  Library functions the sources call ([urlparse],
    [float], the HTML/XML parsers, the network) are parameters of the
    sections that use them. *)

From Stdlib Require Import Ascii String QArith.
From stdpp Require Import gmap strings list fin_maps.

Set Warnings "-register-all,-clear-no-such-hyp".

Open Scope string_scope.
Open Scope list_scope.
Open Scope nat_scope.

(* ===================================================================== *)
(** ** Python runtime *)
(* ===================================================================== *)

Module Py.

(** Exceptions raised by the modelled code, by class. *)
Inductive exn : Type :=
| TypeError
| KeyError
| AttributeError
| ValueError
| Exception (msg : string).

Inductive result (A : Type) : Type :=
| Ok (a : A)
| Raise (e : exn).
Arguments Ok {A} a.
Arguments Raise {A} e.

Definition bind {A B} (r : result A) (k : A → result B) : result B :=
  match r with
  | Ok a => k a
  | Raise e => Raise e
  end.

(** A Python [float]: every finite double is a rational. *)
Inductive pyfloat : Type :=
| Finite (q : Q)
| PosInf
| NegInf
| NaN.

(** [str.isspace] on one ASCII character: TAB..CR, FS..US and SPACE. *)
Definition isspace (c : ascii) : bool :=
  let n := nat_of_ascii c in
  ((9 <=? n) && (n <=? 13)) || ((28 <=? n) && (n <=? 32)).

Fixpoint lstrip (s : string) : string :=
  match s with
  | String c s' => if isspace c then lstrip s' else s
  | EmptyString => EmptyString
  end.

Definition rstrip (s : string) : string := String.rev (lstrip (String.rev s)).

(** [s.strip()] *)
Definition strip (s : string) : string := rstrip (lstrip s).

Definition lower_ascii (c : ascii) : ascii :=
  let n := nat_of_ascii c in
  if (65 <=? n) && (n <=? 90) then ascii_of_nat (n + 32) else c.

(** [s.lower()] *)
Fixpoint lower (s : string) : string :=
  match s with
  | String c s' => String (lower_ascii c) (lower s')
  | EmptyString => EmptyString
  end.

(** [s.split(sep, 1)] for a one-character separator: [None] when [sep] does
    not occur (the list has one element), otherwise the text before and
    after its first occurrence. *)
Fixpoint split_once (sep : ascii) (s : string) : option (string * string) :=
  match s with
  | EmptyString => None
  | String c s' =>
      if Ascii.eqb c sep then Some (EmptyString, s')
      else match split_once sep s' with
           | Some (a, b) => Some (String c a, b)
           | None => None
           end
  end.

(** [s.split(sep)] for a one-character separator. *)
Fixpoint split_acc (sep : ascii) (cur : string) (s : string) : list string :=
  match s with
  | EmptyString => [String.rev cur]
  | String c s' =>
      if Ascii.eqb c sep then String.rev cur :: split_acc sep EmptyString s'
      else split_acc sep (String c cur) s'
  end.

Definition split (sep : ascii) (s : string) : list string :=
  split_acc sep EmptyString s.

(** [s.startswith(p)] *)
Definition startswith (s p : string) : bool := String.prefix p s.

(** The rest of [s] after the prefix [p], when [s] starts with [p]. *)
Fixpoint imatch (p s : string) : option string :=
  match p, s with
  | EmptyString, _ => Some s
  | String a p', String b s' => if Ascii.eqb a b then imatch p' s' else None
  | String _ _, EmptyString => None
  end.

(** [s.endswith(p)] *)
Definition endswith (s p : string) : bool :=
  String.prefix (String.rev p) (String.rev s).

(** [s or d] for strings: the empty string is falsy. *)
Definition str_or (s d : string) : string :=
  match s with
  | EmptyString => d
  | _ => s
  end.

(** Truthiness of a string. *)
Definition truthy (s : string) : bool :=
  match s with
  | EmptyString => false
  | _ => true
  end.

End Py.
Export Py.

(* ===================================================================== *)
(** ** robots_parser.py *)
(* ===================================================================== *)

Module Robots.

(** The result of [urlparse], restricted to the attributes the code reads. *)
Record ParseResult : Type := mkParse {
  scheme : string;
  netloc : string;
  path : string
}.

(** A value stored in the [rules] dictionary: [parse_robots_txt] stores the
    list of disallowed prefixes under the agent's name and the crawl delay,
    a float, under [agent +:+ "_crawl_delay"], in the same dictionary. *)
Inductive rule_value : Type :=
| RList (prefixes : list string)
| RFloat (f : pyfloat).

Abbreviation rules_t := (gmap string rule_value).

(** State of the loop of [parse_robots_txt]. *)
Record parse_state : Type := mkPS {
  rules : rules_t;
  current_agent : option string
}.

(** [async def]: calling the function builds a coroutine object and runs
    nothing; [await] runs the body. *)
Inductive pyobj (S A : Type) : Type :=
| Coroutine (body : S → result A * S)
| Value (a : A).
Arguments Coroutine {S A} body.
Arguments Value {S A} a.

Definition await {S A} (o : pyobj S A) (s : S) : result A * S :=
  match o with
  | Coroutine body => body s
  | Value a => (Ok a, s)
  end.

(** [o[i]] on a pair; a coroutine object is not subscriptable. *)
Definition getitem0 {S A B} (o : pyobj S (A * B)) : result A :=
  match o with
  | Coroutine _ => Raise TypeError
  | Value (a, _) => Ok a
  end.

Section RobotsParser.

(** [urllib.parse.urlparse]; it raises [ValueError] on some inputs. *)
Variable urlparse : string → result ParseResult.
(** [float(s)]: [None] stands for [ValueError]. *)
Variable py_float : string → option pyfloat.
(** The body of an HTTP GET answered with status 200; [None] for any other
    status and for a network error. *)
Variable http_get : string → option string.
(** [self.user_agent] *)
Variable user_agent : string.

Definition fetch_robots_txt (base_url : string) : option string :=
  match urlparse base_url with
  | Ok p => http_get (scheme p +:+ "://" +:+ netloc p +:+ "/robots.txt")
  | Raise _ => None
  end.

(** Removal of a comment: [line[:line.index("#")]] when ["#" in line]. *)
Definition cut_comment (line : string) : string :=
  match split_once "#" line with
  | Some (before, _) => before
  | None => line
  end.

(** One iteration of the [for line in lines] loop. *)
Definition parse_line (st : parse_state) (line : string) : result parse_state :=
  let line := strip (cut_comment line) in
  if negb (truthy line) then Ok st
  else
    match split_once ":" line with
    | None => Ok st
    | Some (p0, p1) =>
        let directive := lower (strip p0) in
        let value := strip p1 in
        let agent_set :=
          match current_agent st with
          | Some a => truthy a
          | None => false
          end in
        if String.eqb directive "user-agent" then
          let agent := lower value in
          Ok (mkPS (match rules st !! agent with
                    | Some _ => rules st
                    | None => <[agent := RList []]> (rules st)
                    end)
                   (Some agent))
        else if String.eqb directive "disallow" && agent_set then
          if truthy value then
            match current_agent st with
            | Some a =>
                match rules st !! a with
                | Some (RList l) =>
                    Ok (mkPS (<[a := RList (l ++ [value])]> (rules st))
                             (current_agent st))
                | Some (RFloat _) => Raise AttributeError
                | None => Raise KeyError
                end
            | None => Ok st
            end
          else Ok st
        else if String.eqb directive "allow" && agent_set then Ok st
        else if String.eqb directive "crawl-delay" && agent_set then
          match current_agent st, py_float value with
          | Some a, Some f =>
              Ok (mkPS (<[a +:+ "_crawl_delay" := RFloat f]> (rules st))
                       (current_agent st))
          | _, _ => Ok st
          end
        else Ok st
    end.

Fixpoint parse_lines (st : parse_state) (lines : list string)
  : result parse_state :=
  match lines with
  | [] => Ok st
  | line :: rest => bind (parse_line st line) (fun st' => parse_lines st' rest)
  end.

(** [parse_robots_txt]; the argument is [None] when the fetch failed. *)
Definition parse_robots_txt (robots_content : option string) : result rules_t :=
  match robots_content with
  | None => Ok {[ "*" := RList [] ]}
  | Some content =>
      if negb (truthy content) then Ok {[ "*" := RList [] ]}
      else
        bind (parse_lines (mkPS ∅ None) (split "010" content))
             (fun st =>
                if decide (rules st = ∅)
                then Ok (<["*" := RList []]> (rules st))
                else Ok (rules st))
  end.

(** [get_crawl_delay]: it returns whatever the dictionary holds under the
    delay key. *)
Definition get_crawl_delay (rules : rules_t) : rule_value :=
  match rules !! (lower user_agent +:+ "_crawl_delay") with
  | Some v => v
  | None =>
      match rules !! "*_crawl_delay" with
      | Some v => v
      | None => RFloat (Finite 1)
      end
  end.

Abbreviation cache_t := (gmap string rules_t).

(** The value bound to [user_agent_rules] in [is_allowed]. *)
Definition user_agent_rules (rules : rules_t) : rule_value :=
  match rules !! lower user_agent with
  | Some v => v
  | None =>
      match rules !! "*" with
      | Some v => v
      | None => RList []
      end
  end.

(** The [for rule in user_agent_rules] loop: [true] when some rule is a
    prefix of the path. *)
Definition matches_disallow (path : string) (rule_list : list string) : bool :=
  existsb (fun rule => startswith path rule) rule_list.

(** The "check cache first" block of [is_allowed]: the rules of the domain
    and the cache after the lookup. *)
Definition rules_for (base_url : string) (cache : cache_t)
  : result (rules_t * cache_t) :=
  match cache !! base_url with
  | None =>
      match parse_robots_txt (fetch_robots_txt base_url) with
      | Ok rules => Ok (rules, <[base_url := rules]> cache)
      | Raise e => Raise e
      end
  | Some rules => Ok (rules, cache)
  end.

(** The body of [is_allowed], threading [self.robots_cache]. *)
Definition is_allowed_body (url : string) (cache : cache_t)
  : result (bool * rule_value) * cache_t :=
  match urlparse url with
  | Raise e => (Raise e, cache)
  | Ok parsed_url =>
      let base_url := scheme parsed_url +:+ "://" +:+ netloc parsed_url in
      let path := str_or (path parsed_url) "/" in
      match rules_for base_url cache with
      | Raise e => (Raise e, cache)
      | Ok (rules, cache') =>
          let crawl_delay := get_crawl_delay rules in
          match user_agent_rules rules with
          | RFloat _ => (Raise TypeError, cache')
          | RList rule_list =>
              if matches_disallow path rule_list
              then (Ok (false, crawl_delay), cache')
              else (Ok (true, crawl_delay), cache')
          end
      end
  end.

(** [is_allowed] is declared [async]: the call yields a coroutine. *)
Definition is_allowed (url : string) : pyobj cache_t (bool * rule_value) :=
  Coroutine (is_allowed_body url).

(** [get_allowed_urls] is a plain [def]: it calls [is_allowed] without
    awaiting it and subscripts what the call returned. *)
Fixpoint get_allowed_urls_loop (urls allowed_urls : list string)
  : result (list string) :=
  match urls with
  | [] => Ok allowed_urls
  | url :: rest =>
      bind (getitem0 (is_allowed url))
           (fun b => get_allowed_urls_loop rest
                       (if b then allowed_urls ++ [url] else allowed_urls))
  end.

Definition get_allowed_urls (base_url : string) (urls : list string)
  : result (list string) :=
  get_allowed_urls_loop urls [].

End RobotsParser.

End Robots.

(* ===================================================================== *)
(** ** sitemap_crawler.py *)
(* ===================================================================== *)

Module Sitemap.
Import Robots.

(** A parsed document as BeautifulSoup exposes it: tags with their children
    and text nodes.  The document itself is the root tag. *)
Inductive node : Type :=
| Text (s : string)
| Elem (name : string) (children : list node).

(** [tag.find_all(name)]: the descendants named [name], in document order. *)
Fixpoint find_all (name : string) (n : node) : list node :=
  match n with
  | Text _ => []
  | Elem _ children =>
      (fix go (cs : list node) : list node :=
         match cs with
         | [] => []
         | c :: cs' =>
             match c with
             | Text _ => go cs'
             | Elem nm _ =>
                 (if String.eqb nm name then [c] else [])
                   ++ find_all name c ++ go cs'
             end
         end) children
  end.

(** [tag.find(name)] *)
Definition find (name : string) (n : node) : option node :=
  head (find_all name n).

(** [tag.string]: the text of a tag whose only child is a text node, or is
    a tag that has a [string] itself. *)
Fixpoint string_of (n : node) : option string :=
  match n with
  | Text s => Some s
  | Elem _ [c] => string_of c
  | Elem _ _ => None
  end.

(** [t and t.string] as a condition, for [t = tag.find(name)]: the text when
    the tag exists and its [string] is a non-empty string. *)
Definition find_string (name : string) (n : node) : option string :=
  match find name n with
  | Some t =>
      match string_of t with
      | Some s => if truthy s then Some s else None
      | None => None
      end
  | None => None
  end.

(** One dictionary of the list [crawl] returns. *)
Record UrlEntry : Type := mkEntry {
  url : string;
  lastmod : option string;
  changefreq : option string;
  priority : option pyfloat
}.

(** [s.rstrip('/')] *)
Fixpoint lstrip_char (c : ascii) (s : string) : string :=
  match s with
  | String c' s' => if Ascii.eqb c' c then lstrip_char c s' else s
  | EmptyString => EmptyString
  end.

Definition rstrip_char (c : ascii) (s : string) : string :=
  String.rev (lstrip_char c (String.rev s)).

(** Case-insensitive comparison of a character with a lower-case one. *)
Definition ieq (c l : ascii) : bool := Ascii.eqb (lower_ascii c) l.

(** Does the pattern, given in lower case, match at the head of [s] when
    case is ignored?  The rest of [s] after the match. *)
Fixpoint imatch_prefix (pat s : string) : option string :=
  match pat, s with
  | EmptyString, _ => Some s
  | String p pat', String c s' =>
      if ieq c p then imatch_prefix pat' s' else None
  | String _ _, EmptyString => None
  end.

(** The text up to the next newline: what the group of the pattern
    captures, since a dot matches no newline. *)
Fixpoint until_newline (s : string) : string :=
  match s with
  | String c s' =>
      if Ascii.eqb c "010" then EmptyString else String c (until_newline s')
  | EmptyString => EmptyString
  end.

(** First element of [re.findall] for the pattern [Sitemap:], any white
    space, then a group of any characters, with [re.IGNORECASE]: the
    leftmost occurrence of [sitemap:], the white space after it skipped,
    then the rest of that line. *)
Fixpoint first_sitemap_match (text : string) : option string :=
  match imatch_prefix "sitemap:" text with
  | Some rest => Some (until_newline (lstrip rest))
  | None =>
      match text with
      | String _ text' => first_sitemap_match text'
      | EmptyString => None
      end
  end.

(** A fetched body that passes [if content:]. *)
Definition nonempty (o : option string) : option string :=
  match o with
  | Some s => if truthy s then Some s else None
  | None => None
  end.

(** The attributes of an [EnhancedSitemapCrawler] the methods read. *)
Record crawler : Type := mkCrawler {
  base_url : string;
  parsed_scheme : string;
  domain : string
}.

Section SitemapCrawler.

Variable urlparse : string → result ParseResult.
(** [urllib.parse.urljoin] *)
Variable urljoin : string → string → result string.
Variable py_float : string → option pyfloat.
(** The network: the body of a 200 answer.  It is the same function for the
    whole of a crawl.  [fetch_url] adds a pause between two requests to one
    domain; time is not modelled. *)
Variable http_get : string → option string.
(** [BeautifulSoup(content, 'xml')]; a parser error is an exception. *)
Variable BeautifulSoup_xml : string → result node.
(** The [href] values of [BeautifulSoup(html, 'html.parser')
    .find_all('a', href=True)], in document order. *)
Variable html_links : string → result (list string).
Variable user_agent : string.
(** [set.pop()]: the element a set gives up; Python fixes no order. *)
Variable set_pop : gset string → string.

(** [__init__] *)
Definition init (url0 : string) : result crawler :=
  let b := rstrip_char "/" url0 in
  match urlparse b with
  | Ok p => Ok (mkCrawler b (scheme p) (netloc p))
  | Raise e => Raise e
  end.

(** [fetch_url]: [None] for a status other than 200 and for any error. *)
Definition fetch_url (u : string) : option string := http_get u.

Definition common_locations (c : crawler) : list string :=
  [ base_url c +:+ "/sitemap.xml";
    base_url c +:+ "/sitemap_index.xml";
    base_url c +:+ "/sitemap/sitemap.xml";
    base_url c +:+ "/sitemap/index.xml";
    base_url c +:+ "/sitemaps/sitemap.xml" ].

Fixpoint first_fetchable (locations : list string) : option string :=
  match locations with
  | [] => None
  | location :: rest =>
      match nonempty (fetch_url location) with
      | Some _ => Some location
      | None => first_fetchable rest
      end
  end.

Definition discover_sitemap_url (c : crawler) : option string :=
  let robots_url := parsed_scheme c +:+ "://" +:+ domain c +:+ "/robots.txt" in
  let from_robots :=
    match nonempty (fetch_url robots_url) with
    | Some robots_content =>
        match first_sitemap_match robots_content with
        | Some m => Some (strip m)
        | None => None
        end
    | None => None
    end in
  match from_robots with
  | Some sitemap_url => Some sitemap_url
  | None => first_fetchable (common_locations c)
  end.

(** An entry for a bare [<loc>] of a minimal sitemap. *)
Definition loc_entry (loc : node) : list UrlEntry :=
  match string_of loc with
  | Some s => if truthy s then [mkEntry (strip s) None None None] else []
  | None => []
  end.

(** The entry of one [<url>] element, if it has a [<loc>] with text. *)
Definition url_entry (u : node) : list UrlEntry :=
  match find_string "loc" u with
  | Some loc =>
      [ mkEntry (strip loc)
                (strip <$> find_string "lastmod" u)
                (strip <$> find_string "changefreq" u)
                (match find_string "priority" u with
                 | Some p => py_float (strip p)
                 | None => None
                 end) ]
  | None => []
  end.

(** The "regular sitemap" branch of [parse_sitemap]. *)
Definition leaf_entries (soup : node) : list UrlEntry :=
  match find_all "url" soup with
  | [] => flat_map loc_entry (find_all "loc" soup)
  | urls => flat_map url_entry urls
  end.

(** The loop over the [<sitemap>] elements of an index; [parse] is the
    recursive call. *)
Fixpoint each_sitemap (parse : string → option (list UrlEntry))
  (sitemaps : list node) (all_urls : list UrlEntry)
  : option (list UrlEntry) :=
  match sitemaps with
  | [] => Some all_urls
  | sitemap :: rest =>
      match find_string "loc" sitemap with
      | Some loc =>
          match nonempty (fetch_url (strip loc)) with
          | Some sub_content =>
              match parse sub_content with
              | Some sub_urls => each_sitemap parse rest (all_urls ++ sub_urls)
              | None => None
              end
          | None => each_sitemap parse rest all_urls
          end
      | None => each_sitemap parse rest all_urls
      end
  end.

(** [parse_sitemap].  The recursion of the source has no bound; [fuel]
    bounds its depth here and [None] means the bound was reached. *)
Fixpoint parse_sitemap (fuel : nat) (sitemap_content : string)
  : option (list UrlEntry) :=
  match fuel with
  | 0 => None
  | S fuel' =>
      if negb (truthy sitemap_content) then Some []
      else
        match BeautifulSoup_xml sitemap_content with
        | Raise _ => Some []
        | Ok soup =>
            match find_all "sitemap" soup with
            | [] => Some (leaf_entries soup)
            | sitemaps => each_sitemap (parse_sitemap fuel') sitemaps []
            end
        end
  end.

(** What one [<sitemap>] element of an index adds to [all_urls]: nothing
    when it has no [<loc>] text or the sub-sitemap cannot be fetched, else
    the entries of the sub-sitemap. *)
Definition sub_entries (fuel : nat) (sitemap : node)
  : option (list UrlEntry) :=
  match find_string "loc" sitemap with
  | Some loc =>
      match nonempty (fetch_url (strip loc)) with
      | Some sub_content => parse_sitemap fuel sub_content
      | None => Some []
      end
  | None => Some []
  end.

(** A parsed document that is a leaf sitemap with [n] URL entries: no
    [<sitemap>] element, and either [n] [<url>] elements, each with the
    text of a [<loc>], or no [<url>] element and [n] bare [<loc>]
    elements with text. *)
Inductive leaf_with (soup : node) : nat → Prop :=
| leaf_wrapped :
    find_all "sitemap" soup = [] →
    find_all "url" soup ≠ [] →
    Forall (fun u => is_Some (find_string "loc" u)) (find_all "url" soup) →
    leaf_with soup (length (find_all "url" soup))
| leaf_bare :
    find_all "sitemap" soup = [] →
    find_all "url" soup = [] →
    Forall (fun l => ∃ s, string_of l = Some s ∧ truthy s = true)
           (find_all "loc" soup) →
    leaf_with soup (length (find_all "loc" soup)).

(** The sub-sitemap listed under [loc] can be fetched and is such a leaf. *)
Definition fetched_leaf (loc : string) (soup : node) (n : nat) : Prop :=
  ∃ body, http_get (strip loc) = Some body ∧ truthy body = true
          ∧ BeautifulSoup_xml body = Ok soup ∧ leaf_with soup n.

(** One link of [discover_urls_from_html]: [None] when it is skipped. *)
Definition resolve_link (c : crawler) (page_url : string) (href0 : string)
  : result (option string) :=
  let href := strip href0 in
  if negb (truthy href) || startswith href "#"
     || startswith href "javascript:" || startswith href "mailto:"
  then Ok None
  else
    bind (if startswith href "http://" || startswith href "https://"
          then Ok href else urljoin page_url href)
         (fun href =>
            bind (urlparse href)
                 (fun parsed_href =>
                    if String.eqb (netloc parsed_href) (domain c)
                    then Ok (Some href) else Ok None)).

(** The loop over the links; an exception ends it and keeps what was found. *)
Fixpoint resolve_links (c : crawler) (page_url : string) (hrefs : list string)
  (discovered_urls : gset string) : gset string :=
  match hrefs with
  | [] => discovered_urls
  | h :: rest =>
      match resolve_link c page_url h with
      | Ok (Some href) =>
          resolve_links c page_url rest ({[ href ]} ∪ discovered_urls)
      | Ok None => resolve_links c page_url rest discovered_urls
      | Raise _ => discovered_urls
      end
  end.

Definition discover_urls_from_html (c : crawler) (html_content : string)
  (page_url : string) : gset string :=
  if negb (truthy html_content) then ∅
  else
    match html_links html_content with
    | Ok hrefs => resolve_links c page_url hrefs ∅
    | Raise _ => ∅
    end.

(** [asyncio.sleep(delay)] compares [delay] with [0] first. *)
Definition asyncio_sleep (delay : rule_value) : result unit :=
  match delay with
  | RFloat _ => Ok tt
  | RList _ => Raise TypeError
  end.

(** The variables of the loop of [crawl_without_sitemap]. *)
Record frontier : Type := mkFrontier {
  to_crawl : gset string;
  crawled : gset string;
  results : list UrlEntry;
  robots_cache : gmap string (gmap string rule_value)
}.

(** The part of an iteration after the robots check passed. *)
Definition visit (c : crawler) (current_url : string) (st : frontier)
  : frontier :=
  match nonempty (fetch_url current_url) with
  | Some html_content =>
      let crawled' := {[ current_url ]} ∪ crawled st in
      let new_urls := discover_urls_from_html c html_content current_url in
      mkFrontier (to_crawl st ∪ (new_urls ∖ crawled'))
                 crawled'
                 (results st ++ [mkEntry current_url None None None])
                 (robots_cache st)
  | None => st
  end.

(** One iteration of the [while] loop, the condition included: [inl] is the
    state for the next iteration, [inr] the end of the loop. *)
Definition crawl_step (c : crawler) (max_pages : nat) (st : frontier)
  : frontier + result frontier :=
  if bool_decide (to_crawl st = ∅) || (max_pages <=? size (crawled st))
  then inr (Ok st)
  else
    let current_url := set_pop (to_crawl st) in
    let st := mkFrontier (to_crawl st ∖ {[ current_url ]}) (crawled st)
                         (results st) (robots_cache st) in
    if bool_decide (current_url ∈ crawled st) then inl st
    else
      match await (is_allowed urlparse py_float http_get user_agent current_url)
                  (robots_cache st) with
      | (Raise e, _) => inr (Raise e)
      | (Ok (allowed, delay), cache') =>
          let st := mkFrontier (to_crawl st) (crawled st) (results st) cache' in
          if negb allowed then inl st
          else
            let st := visit c current_url st in
            match asyncio_sleep delay with
            | Ok _ => inl st
            | Raise e => inr (Raise e)
            end
      end.

Fixpoint crawl_loop (fuel : nat) (c : crawler) (max_pages : nat)
  (st : frontier) : option (result frontier) :=
  match fuel with
  | 0 => None
  | S fuel' =>
      match crawl_step c max_pages st with
      | inl st' => crawl_loop fuel' c max_pages st'
      | inr r => Some r
      end
  end.

(** [crawl_without_sitemap]: the loop from its initial state.  The robots
    cache is the one of the crawler's [RobotsParser]. *)
Definition crawl_without_sitemap (fuel : nat) (c : crawler) (max_pages : nat)
  (cache : gmap string (gmap string rule_value)) : option (result frontier) :=
  crawl_loop fuel c max_pages (mkFrontier {[ base_url c ]} ∅ [] cache).

(** [crawl] *)
Definition crawl (fuel : nat) (c : crawler) (max_pages : nat)
  (cache : gmap string (gmap string rule_value))
  : option (result (list UrlEntry)) :=
  let fallback :=
    match crawl_without_sitemap fuel c max_pages cache with
    | Some (Ok st) => Some (Ok (results st))
    | Some (Raise e) => Some (Raise e)
    | None => None
    end in
  match discover_sitemap_url c with
  | Some sitemap_url =>
      if truthy sitemap_url then
        match nonempty (fetch_url sitemap_url) with
        | Some sitemap_content =>
            match parse_sitemap fuel sitemap_content with
            | Some entries => Some (Ok entries)
            | None => None
            end
        | None => fallback
        end
      else fallback
  | None => fallback
  end.

(** *** Notions used to state the properties of the link crawl *)

(** The links of the page at [u], as [discover_urls_from_html] finds them;
    none when the page cannot be fetched. *)
Definition links_of (c : crawler) (u : string) : gset string :=
  match nonempty (fetch_url u) with
  | Some html_content => discover_urls_from_html c html_content u
  | None => ∅
  end.

(** [is_allowed] answered [b] for [u], on some state of the robots cache. *)
Definition robots_answer (b : bool) (u : string) : Prop :=
  ∃ cache0 delay cache1,
    await (is_allowed urlparse py_float http_get user_agent u) cache0
    = (Ok (b, delay), cache1).

(** [u] is reached from the base URL by following links of fetched pages. *)
Inductive linked (c : crawler) : string → Prop :=
| linked_base : linked c (base_url c)
| linked_step u v : linked c u → v ∈ links_of c u → linked c v.

(** [u] is on the crawler's domain. *)
Definition same_domain (c : crawler) (u : string) : Prop :=
  ∃ p, urlparse u = Ok p ∧ netloc p = domain c.

(** What holds of an entry of the result list. *)
Definition recorded (c : crawler) (e : UrlEntry) : Prop :=
  e = mkEntry (url e) None None None
  ∧ is_Some (nonempty (fetch_url (url e)))
  ∧ robots_answer true (url e)
  ∧ linked c (url e)
  ∧ (url e = base_url c ∨ same_domain c (url e)).

(** A URL the loop took from the frontier and left out: robots.txt
    disallows it or it cannot be fetched. *)
Definition dropped (u : string) : Prop :=
  robots_answer false u ∨ nonempty (fetch_url u) = None.

(** What the loop of [crawl_without_sitemap] keeps true of its variables,
    for a bound [max_pages]. *)
Record crawl_inv (c : crawler) (max_pages : nat) (st : frontier) : Prop :=
  mkInv {
    inv_nodup : NoDup (url <$> results st);
    inv_crawled : ∀ u, u ∈ crawled st ↔ u ∈ url <$> results st;
    inv_length : length (results st) = size (crawled st);
    inv_bound : size (crawled st) ≤ max_pages;
    inv_recorded : Forall (recorded c) (results st);
    inv_frontier :
      ∀ u, u ∈ to_crawl st →
           linked c u ∧ (u = base_url c ∨ same_domain c u);
    inv_closed :
      ∀ u v, u ∈ crawled st → v ∈ links_of c u →
             v ∈ crawled st ∨ v ∈ to_crawl st ∨ dropped v;
    inv_seed :
      (results st = [] ∧ to_crawl st ⊆ {[ base_url c ]})
      ∨ (∃ rest, results st = mkEntry (base_url c) None None None :: rest)
  }.

(** The traversal as the specification words it, breadth first: the
    frontier is a queue, served in the order of discovery; the checks are
    those of [crawl_step]. *)
Record bfs_frontier : Type := mkBfs {
  queue : list string;
  visited : gset string;
  found : list UrlEntry;
  bfs_cache : gmap string (gmap string rule_value)
}.

Definition bfs_step (c : crawler) (max_pages : nat) (st : bfs_frontier)
  : bfs_frontier + result bfs_frontier :=
  match queue st with
  | [] => inr (Ok st)
  | current_url :: rest =>
      if max_pages <=? size (visited st) then inr (Ok st)
      else if bool_decide (current_url ∈ visited st)
      then inl (mkBfs rest (visited st) (found st) (bfs_cache st))
      else
        match await (is_allowed urlparse py_float http_get user_agent
                                current_url) (bfs_cache st) with
        | (Raise e, _) => inr (Raise e)
        | (Ok (allowed, delay), cache') =>
            if negb allowed
            then inl (mkBfs rest (visited st) (found st) cache')
            else
              let st' :=
                match nonempty (fetch_url current_url) with
                | Some html_content =>
                    let visited' := {[ current_url ]} ∪ visited st in
                    let new_urls :=
                      List.filter
                        (fun u => bool_decide ((u ∉ visited') ∧ (u ∉ rest)))
                        (elements (discover_urls_from_html c html_content
                                                           current_url)) in
                    mkBfs (rest ++ new_urls) visited'
                          (found st ++ [mkEntry current_url None None None])
                          cache'
                | None => mkBfs rest (visited st) (found st) cache'
                end in
              match asyncio_sleep delay with
              | Ok _ => inl st'
              | Raise e => inr (Raise e)
              end
        end
  end.

Fixpoint bfs_loop (fuel : nat) (c : crawler) (max_pages : nat)
  (st : bfs_frontier) : option (result bfs_frontier) :=
  match fuel with
  | 0 => None
  | S fuel' =>
      match bfs_step c max_pages st with
      | inl st' => bfs_loop fuel' c max_pages st'
      | inr r => Some r
      end
  end.

Definition breadth_first_crawl (fuel : nat) (c : crawler) (max_pages : nat)
  (cache : gmap string (gmap string rule_value))
  : option (result bfs_frontier) :=
  bfs_loop fuel c max_pages (mkBfs [base_url c] ∅ [] cache).

End SitemapCrawler.

(** The URLs of the result list of a finished loop, in order. *)
Definition crawled_order (o : option (result frontier)) : list string :=
  match o with
  | Some (Ok st) => url <$> results st
  | _ => []
  end.

Definition breadth_first_order (o : option (result bfs_frontier))
  : list string :=
  match o with
  | Some (Ok st) => url <$> found st
  | _ => []
  end.

End Sitemap.

(* ===================================================================== *)
(** ** html_extractor.py *)
(* ===================================================================== *)

Module Extractor.

(** The Python values that travel in the result dictionaries.  A [dict] is
    kept as the list of its items, in insertion order. *)
Inductive pyval : Type :=
| PNone
| PStr (s : string)
| PBool (b : bool)
| PList (l : list pyval)
| PDict (items : list (string * pyval)).

Abbreviation dict := (list (string * pyval)).

(** [d.get(k)]: [None] here is Python's [None] as well. *)
Fixpoint dict_lookup (k : string) (d : dict) : option pyval :=
  match d with
  | [] => None
  | (k', v) :: d' => if String.eqb k' k then Some v else dict_lookup k d'
  end.

(** [d.get(k)] *)
Definition dict_get (k : string) (d : dict) : pyval :=
  match dict_lookup k d with
  | Some v => v
  | None => PNone
  end.

(** [d.get(k, default)] *)
Definition dict_get_default (k : string) (d : dict) (default : pyval) : pyval :=
  match dict_lookup k d with
  | Some v => v
  | None => default
  end.

(** [k in d] *)
Definition dict_has (k : string) (d : dict) : bool :=
  match dict_lookup k d with
  | Some _ => true
  | None => false
  end.

(** Truthiness of a value. *)
Definition pytruthy (v : pyval) : bool :=
  match v with
  | PNone => false
  | PStr s => truthy s
  | PBool b => b
  | PList l => match l with [] => false | _ => true end
  | PDict d => match d with [] => false | _ => true end
  end.

(** [str(v)] inside an f-string.  The code formats strings only; the text
    chosen for containers is a placeholder. *)
Definition py_str (v : pyval) : string :=
  match v with
  | PNone => "None"
  | PStr s => s
  | PBool true => "True"
  | PBool false => "False"
  | PList _ => "[...]"
  | PDict _ => "{...}"
  end.

Section HTMLContentExtractor.

(** The network at the time of the call: the body of a 200 answer. *)
Variable http_get : string → option string.
(** [remove_boilerplate]: trafilatura, then readability, then the raw HTML;
    it catches every exception. *)
Variable remove_boilerplate : string → string.
(** [extract_structured_content]; the HTML parser may raise. *)
Variable extract_structured_content : string → result pyval.
(** [extract_metadata] *)
Variable extract_metadata : string → string → result dict.
(** [combine_content] and [clean_text] *)
Variable combine_content : pyval → string.
Variable clean_text : string → string.

(** The dictionary [extract_from_url] returns when the fetch failed. *)
Definition error_result (url : string) : dict :=
  [ ("url", PStr url); ("error", PStr "Failed to fetch content") ].

(** The dictionary [extract_from_url] returns for a fetched page. *)
Definition page_result (url html : string) (metadata : dict)
  (clean : string) (structured_content : pyval) : dict :=
  [ ("url", PStr url);
    ("title", dict_get_default "title" metadata (PStr ""));
    ("metadata", PDict metadata);
    ("text", PStr clean);
    ("structured_content", structured_content);
    ("raw_html",
      if pytruthy (dict_get_default "keep_raw_html" metadata (PBool false))
      then PStr html else PNone) ].

Definition extract_from_url (url : string) : result dict :=
  match http_get url with
  | None => Ok (error_result url)
  | Some html =>
      if negb (truthy html) then Ok (error_result url)
      else
        let cleaned_html := remove_boilerplate html in
        bind (extract_structured_content cleaned_html)
             (fun structured_content =>
                bind (extract_metadata html url)
                     (fun metadata =>
                        let text := combine_content structured_content in
                        Ok (page_result url html metadata (clean_text text)
                                        structured_content)))
  end.

(** [extract_from_urls]: [asyncio.gather] keeps the order of the URLs and
    lets the first exception through. *)
Fixpoint extract_from_urls (urls : list string) : result (list dict) :=
  match urls with
  | [] => Ok []
  | url :: rest =>
      bind (extract_from_url url)
           (fun r => bind (extract_from_urls rest) (fun rs => Ok (r :: rs)))
  end.

End HTMLContentExtractor.

End Extractor.

(* ===================================================================== *)
(** ** crawler_manager.py *)
(* ===================================================================== *)

Module Manager.
Import Extractor.

(** [CrawlerJob].  Times are readings of the clock. *)
Record CrawlerJob : Type := mkJob {
  job_id : string;
  website_id : Z;
  website_url : string;
  sitemap_url : option string;
  status : string;
  start_time : option nat;
  end_time : option nat;
  total_urls : nat;
  processed_urls : nat;
  successful_urls : nat;
  failed_urls : nat;
  errors : list string
}.

(** [CrawlerJob.__init__] *)
Definition new_job (new_id : string) (wid : Z) (wurl : string)
  (smap : option string) : CrawlerJob :=
  mkJob new_id wid wurl smap "pending" None None 0 0 0 0 [].

Definition set_status (s : string) (j : CrawlerJob) : CrawlerJob :=
  mkJob (job_id j) (website_id j) (website_url j) (sitemap_url j) s
        (start_time j) (end_time j) (total_urls j) (processed_urls j)
        (successful_urls j) (failed_urls j) (errors j).

Definition set_start_time (t : nat) (j : CrawlerJob) : CrawlerJob :=
  mkJob (job_id j) (website_id j) (website_url j) (sitemap_url j) (status j)
        (Some t) (end_time j) (total_urls j) (processed_urls j)
        (successful_urls j) (failed_urls j) (errors j).

Definition set_end_time (t : nat) (j : CrawlerJob) : CrawlerJob :=
  mkJob (job_id j) (website_id j) (website_url j) (sitemap_url j) (status j)
        (start_time j) (Some t) (total_urls j) (processed_urls j)
        (successful_urls j) (failed_urls j) (errors j).

Definition set_total_urls (n : nat) (j : CrawlerJob) : CrawlerJob :=
  mkJob (job_id j) (website_id j) (website_url j) (sitemap_url j) (status j)
        (start_time j) (end_time j) n (processed_urls j)
        (successful_urls j) (failed_urls j) (errors j).

(** [job.errors.append(msg)] *)
Definition append_error (msg : string) (j : CrawlerJob) : CrawlerJob :=
  mkJob (job_id j) (website_id j) (website_url j) (sitemap_url j) (status j)
        (start_time j) (end_time j) (total_urls j) (processed_urls j)
        (successful_urls j) (failed_urls j) (errors j ++ [msg]).

(** The ["error" in result] branch of the loop over the results, up to the
    checkpoint: [failed_urls += 1], the message, [processed_urls += 1]. *)
Definition record_failure (msg : string) (j : CrawlerJob) : CrawlerJob :=
  mkJob (job_id j) (website_id j) (website_url j) (sitemap_url j) (status j)
        (start_time j) (end_time j) (total_urls j) (S (processed_urls j))
        (successful_urls j) (S (failed_urls j)) (errors j ++ [msg]).

(** The other branch, after [_save_content] returned:
    [successful_urls += 1], [processed_urls += 1]. *)
Definition record_success (j : CrawlerJob) : CrawlerJob :=
  mkJob (job_id j) (website_id j) (website_url j) (sitemap_url j) (status j)
        (start_time j) (end_time j) (total_urls j) (S (processed_urls j))
        (S (successful_urls j)) (failed_urls j) (errors j).

(** A row of the [pages] table. *)
Record Page : Type := mkPage {
  page_id : nat;
  page_url : string;
  title : pyval;
  content : pyval;
  page_website_id : Z;
  last_crawled_at : option nat;
  is_indexed : bool
}.

(** Where a pipeline coroutine is suspended. *)
Inductive pc : Type :=
| Created
    (* scheduled by [asyncio.create_task], not run yet *)
| AwaitCrawl (seen : option (gset string))
    (* in [await crawler.crawl()]; [Some seen] in [_resume_job], with the
       URLs found in the content directory *)
| AwaitExtract (urls : list string) (i : nat)
    (* in [await extractor.extract_from_urls(urls[i:i + 10], ...)] *)
| AwaitSave (urls : list string) (i : nat) (result : dict) (rest : list dict)
    (* in [await self._save_content(job.website_id, result)] *)
| Finished.

Inductive entry_point : Type :=
| RunJob      (* [_run_job] *)
| ResumeJob.  (* [_resume_job] *)

(** A background task: the coroutine, the job object it was given, where it
    stands, and whether [_run_job] runs inside [_resume_job]. *)
Record task : Type := mkTask {
  entry : entry_point;
  job_ref : nat;
  at_pc : pc;
  nested : bool
}.

(** The manager, the tasks of the event loop and the storage.

    [heap] holds the job objects; [jobs] maps an id to the object
    registered under it, as [self.jobs] does, and a task keeps the object it
    was started with.  [job_files] is the jobs directory, [content_files]
    the content directory (one sub-directory per website, one file per
    [hash(url)]), [pages] the table behind [PageRepository].

    [checkpoints] and [requested] record history: every record written by
    [_save_job_metadata], and every URL handed to [extract_from_urls]. *)
Record World : Type := mkWorld {
  heap : list CrawlerJob;
  jobs : gmap string nat;
  active_jobs : gset string;
  max_concurrent_jobs : nat;
  tasks : list task;
  job_files : gmap string CrawlerJob;
  content_files : gmap Z (gmap Z dict);
  pages : list Page;
  hash_seed : nat;
  checkpoints : list CrawlerJob;
  requested : list string
}.

(** [CrawlerManager.__init__] on an empty storage directory. *)
Definition init_world : World :=
  mkWorld [] ∅ ∅ 3 [] ∅ ∅ [] 0 [] [].

Definition set_heap (h : list CrawlerJob) (w : World) : World :=
  mkWorld h (jobs w) (active_jobs w) (max_concurrent_jobs w) (tasks w)
          (job_files w) (content_files w) (pages w) (hash_seed w)
          (checkpoints w) (requested w).

Definition set_jobs (m : gmap string nat) (w : World) : World :=
  mkWorld (heap w) m (active_jobs w) (max_concurrent_jobs w) (tasks w)
          (job_files w) (content_files w) (pages w) (hash_seed w)
          (checkpoints w) (requested w).

Definition set_active_jobs (a : gset string) (w : World) : World :=
  mkWorld (heap w) (jobs w) a (max_concurrent_jobs w) (tasks w)
          (job_files w) (content_files w) (pages w) (hash_seed w)
          (checkpoints w) (requested w).

Definition set_tasks (ts : list task) (w : World) : World :=
  mkWorld (heap w) (jobs w) (active_jobs w) (max_concurrent_jobs w) ts
          (job_files w) (content_files w) (pages w) (hash_seed w)
          (checkpoints w) (requested w).

Definition set_content_files (c : gmap Z (gmap Z dict)) (w : World) : World :=
  mkWorld (heap w) (jobs w) (active_jobs w) (max_concurrent_jobs w) (tasks w)
          (job_files w) c (pages w) (hash_seed w)
          (checkpoints w) (requested w).

Definition set_pages (p : list Page) (w : World) : World :=
  mkWorld (heap w) (jobs w) (active_jobs w) (max_concurrent_jobs w) (tasks w)
          (job_files w) (content_files w) p (hash_seed w)
          (checkpoints w) (requested w).

Definition log_request (batch : list string) (w : World) : World :=
  mkWorld (heap w) (jobs w) (active_jobs w) (max_concurrent_jobs w) (tasks w)
          (job_files w) (content_files w) (pages w) (hash_seed w)
          (checkpoints w) (requested w ++ batch).

(** An assignment to attributes of the job object [r]. *)
Definition update_job (r : nat) (f : CrawlerJob → CrawlerJob) (w : World)
  : World :=
  set_heap (alter f r (heap w)) w.

(** [_save_job_metadata(job)]: the record is written under the job's id.
    The write is taken to succeed; a failed write is only logged by the
    source and changes nothing in memory. *)
Definition _save_job_metadata (r : nat) (w : World) : World :=
  match heap w !! r with
  | Some j =>
      mkWorld (heap w) (jobs w) (active_jobs w) (max_concurrent_jobs w)
              (tasks w) (<[job_id j := j]> (job_files w)) (content_files w)
              (pages w) (hash_seed w) (checkpoints w ++ [j]) (requested w)
  | None => w
  end.

(** [get_job]: the object registered under the id. *)
Definition get_job (w : World) (id : string) : option (nat * CrawlerJob) :=
  match jobs w !! id with
  | Some r =>
      match heap w !! r with
      | Some j => Some (r, j)
      | None => None
      end
  | None => None
  end.

(** [create_job]; [new_id] is the UUID drawn for the job. *)
Definition create_job (new_id : string) (wid : Z) (wurl : string)
  (smap : option string) (w : World) : nat * World :=
  let r := length (heap w) in
  let w := set_heap (heap w ++ [new_job new_id wid wurl smap]) w in
  let w := set_jobs (<[new_id := r]> (jobs w)) w in
  (r, _save_job_metadata r w).

(** [asyncio.create_task(coro)]: the task is queued; nothing of it runs
    before the caller returns. *)
Definition create_task (e : entry_point) (r : nat) (w : World) : World :=
  set_tasks (tasks w ++ [mkTask e r Created false]) w.

(** [start_job] *)
Definition start_job (now : nat) (id : string) (w : World)
  : result bool * World :=
  match get_job w id with
  | None => (Ok false, w)
  | Some (r, job) =>
      if String.eqb (status job) "running" then (Ok false, w)
      else if max_concurrent_jobs w <=? size (active_jobs w) then (Ok false, w)
      else
        let w := update_job r (set_status "running") w in
        let w := update_job r (set_start_time now) w in
        let w := set_active_jobs ({[ id ]} ∪ active_jobs w) w in
        let w := _save_job_metadata r w in
        let w := create_task RunJob r w in
        (Ok true, w)
  end.

(** [stop_job].  [set.remove] raises [KeyError] for a missing element; the
    assignments made before it stay. *)
Definition stop_job (now : nat) (id : string) (w : World)
  : result bool * World :=
  match get_job w id with
  | None => (Ok false, w)
  | Some (r, job) =>
      if negb (String.eqb (status job) "running") then (Ok false, w)
      else
        let w := update_job r (set_status "stopped") w in
        let w := update_job r (set_end_time now) w in
        if bool_decide (id ∈ active_jobs w) then
          let w := set_active_jobs (active_jobs w ∖ {[ id ]}) w in
          let w := _save_job_metadata r w in
          (Ok true, w)
        else (Raise KeyError, w)
  end.

(** [resume_job] *)
Definition resume_job (id : string) (w : World) : result bool * World :=
  match get_job w id with
  | None => (Ok false, w)
  | Some (r, job) =>
      if negb (String.eqb (status job) "failed"
               || String.eqb (status job) "stopped")
      then (Ok false, w)
      else if max_concurrent_jobs w <=? size (active_jobs w) then (Ok false, w)
      else
        let w := update_job r (set_status "running") w in
        let w := set_active_jobs ({[ id ]} ∪ active_jobs w) w in
        let w := _save_job_metadata r w in
        let w := create_task ResumeJob r w in
        (Ok true, w)
  end.

(** [load_jobs]: every record of the jobs directory becomes a new job
    object, registered under its id. *)
Definition load_one (w : World) (file : string * CrawlerJob) : World :=
  let job := file.2 in
  let r := length (heap w) in
  let w := set_heap (heap w ++ [job]) w in
  set_jobs (<[job_id job := r]> (jobs w)) w.

Definition load_jobs (w : World) : World :=
  foldl load_one w (map_to_list (job_files w)).

(** A new process on the same storage: [CrawlerManager.__init__] again.
    The history kept in [checkpoints] and [requested] goes on; the string
    hash has a new seed. *)
Definition restart (seed : nat) (w : World) : World :=
  mkWorld [] ∅ ∅ 3 [] (job_files w) (content_files w) (pages w) seed
          (checkpoints w) (requested w).

(** What the environment decides about one call of [_save_content]:
    whether the file could be written and whether the database could be
    reached. *)
Record save_io : Type := mkIO {
  disk_ok : bool;
  db_ok : bool
}.

(** What ends an [await] of a pipeline coroutine. *)
Inductive event : Type :=
| EvScheduled
    (* the event loop runs the task for the first time *)
| EvCrawled (r : result (list Sitemap.UrlEntry))
    (* [crawler.crawl()] returned or raised *)
| EvExtracted (http_get : string → option string)
    (* [extract_from_urls] finished, on the network as it was *)
| EvSaved (io : save_io).
    (* [_save_content] returned *)

Section CrawlerManager.

(** [hash(s)] for a string, under the seed of the process. *)
Variable py_hash : nat → string → Z.
(** The extractor's own parameters. *)
Variable remove_boilerplate : string → string.
Variable extract_structured_content : string → result pyval.
Variable extract_metadata : string → string → result dict.
Variable combine_content : pyval → string.
Variable clean_text : string → string.

(** [PageRepository.get_by_url] *)
Definition get_by_url (u : string) (ps : list Page) : option Page :=
  List.find (fun p => String.eqb (page_url p) u) ps.

(** The id the database gives to a new row. *)
Definition next_page_id (ps : list Page) : nat :=
  S (foldr Nat.max 0 (page_id <$> ps)).

(** [PageRepository.create] with the fields [_save_content] passes. *)
Definition page_create (u : string) (t c : pyval) (wid : Z) (now : nat)
  (ps : list Page) : list Page :=
  ps ++ [mkPage (next_page_id ps) u t c wid (Some now) false].

(** [PageRepository.update(id, {title, content, last_crawled_at})] *)
Definition page_update (id : nat) (t c : pyval) (now : nat)
  (ps : list Page) : list Page :=
  match List.find (fun p => Nat.eqb (page_id p) id) ps with
  | None => ps
  | Some _ =>
      (fix go (l : list Page) : list Page :=
         match l with
         | [] => []
         | p :: l' =>
             if Nat.eqb (page_id p) id
             then mkPage (page_id p) (page_url p) t c (page_website_id p)
                         (Some now) (is_indexed p) :: l'
             else p :: go l'
         end) ps
  end.

(** The database part of [_save_content]. *)
Definition upsert_page (u : string) (doc : dict) (wid : Z) (now : nat)
  (ps : list Page) : list Page :=
  match get_by_url u ps with
  | Some page =>
      page_update (page_id page) (dict_get "title" doc)
                  (dict_get "content" doc) now ps
  | None =>
      page_create u (dict_get "title" doc) (dict_get "content" doc) wid now ps
  end.

(** [_save_content].  Every exception is caught and logged: a failure of
    the file write skips the database part as well. *)
Definition _save_content (io : save_io) (wid : Z) (doc : dict) (now : nat)
  (w : World) : World :=
  match dict_lookup "url" doc with
  | Some (PStr u) =>
      if disk_ok io then
        let dir := default ∅ (content_files w !! wid) in
        let w := set_content_files
                   (<[wid := <[py_hash (hash_seed w) u := doc]> dir]>
                      (content_files w)) w in
        if db_ok io then set_pages (upsert_page u doc wid now (pages w)) w
        else w
      else w
  | _ => w
  end.

(** The URLs of the records in a website's content directory: the set
    [processed_urls] that [_resume_job] builds. *)
Definition url_of_doc (doc : dict) : option string :=
  match dict_lookup "url" doc with
  | Some (PStr u) => Some u
  | _ => None
  end.

Definition stored_urls (wid : Z) (w : World) : gset string :=
  match content_files w !! wid with
  | Some dir => list_to_set (omap url_of_doc (map_to_list dir).*2)
  | None => ∅
  end.

Definition is_running (r : nat) (w : World) : bool :=
  match heap w !! r with
  | Some j => String.eqb (status j) "running"
  | None => false
  end.

(** The [finally] block. *)
Definition finally_block (r : nat) (w : World) : World :=
  match heap w !! r with
  | Some j =>
      let w := if bool_decide (job_id j ∈ active_jobs w)
               then set_active_jobs (active_jobs w ∖ {[ job_id j ]}) w
               else w in
      _save_job_metadata r w
  | None => w
  end.

(** Leaving the coroutine: the [finally] block, run a second time by
    [_resume_job] when [_run_job] ran inside it. *)
Definition leave (t : task) (w : World) : task * World :=
  let w := finally_block (job_ref t) w in
  let w := if nested t then finally_block (job_ref t) w else w in
  (mkTask (entry t) (job_ref t) Finished (nested t), w).

(** The end of the [try] body: the status update, then the way out. *)
Definition complete (now : nat) (t : task) (w : World) : task * World :=
  let r := job_ref t in
  let w := if is_running r w
           then update_job r (set_end_time now)
                  (update_job r (set_status "completed") w)
           else w in
  leave t w.

(** The [except Exception as e] block, then the way out. *)
Definition fail (now : nat) (msg : string) (t : task) (w : World)
  : task * World :=
  let r := job_ref t in
  let w := update_job r (set_status "failed") w in
  let w := update_job r (set_end_time now) w in
  let w := update_job r (append_error msg) w in
  leave t w.

Definition exn_message (e : exn) : string :=
  match e with
  | TypeError => "TypeError"
  | KeyError => "KeyError"
  | AttributeError => "AttributeError"
  | ValueError => "ValueError"
  | Exception msg => msg
  end.

(** [urls[i:i + 10]] *)
Definition batch_at (urls : list string) (i : nat) : list string :=
  take 10 (drop i urls).

(** The head of [for i in range(0, len(urls), batch_size)], entered with
    the value [i]: the coroutine either suspends in [extract_from_urls] or
    leaves the loop. *)
Definition batch_loop (now : nat) (urls : list string) (i : nat) (t : task)
  (w : World) : task * World :=
  if i <? length urls then
    if negb (is_running (job_ref t) w) then complete now t w
    else
      (mkTask (entry t) (job_ref t) (AwaitExtract urls i) (nested t),
       log_request (batch_at urls i) w)
  else complete now t w.

(** [for result in content_results], from the results still to handle.
    Failures are counted without suspending; a page suspends the coroutine
    in [_save_content]. *)
Fixpoint results_loop (now : nat) (urls : list string) (i : nat)
  (content_results : list dict) (t : task) (w : World) : task * World :=
  match content_results with
  | [] => batch_loop now urls (i + 10) t w
  | result :: rest =>
      let r := job_ref t in
      if negb (is_running r w) then batch_loop now urls (i + 10) t w
      else if dict_has "error" result then
        let msg := "Failed to extract content from "
                   +:+ py_str (dict_get "url" result) +:+ ": "
                   +:+ py_str (dict_get "error" result) in
        let w := update_job r (record_failure msg) w in
        let w := _save_job_metadata r w in
        results_loop now urls i rest t w
      else
        (mkTask (entry t) (job_ref t) (AwaitSave urls i result rest)
                (nested t), w)
  end.

(** The URLs [_resume_job] keeps: the discovered ones that are not in the
    set built from the content directory. *)
Definition remaining (processed : gset string)
  (urls_data : list Sitemap.UrlEntry) : list string :=
  List.filter (fun u => bool_decide (u ∉ processed))
              (Sitemap.url <$> urls_data).

Definition job_website_id (r : nat) (w : World) : Z :=
  match heap w !! r with
  | Some j => website_id j
  | None => 0%Z
  end.

(** One step of a task: from the [await] it is suspended in to the next
    one, on the event that wakes it.  An event that does not fit the place
    leaves everything as it is. *)
Definition task_step (now : nat) (ev : event) (t : task) (w : World)
  : task * World :=
  let r := job_ref t in
  match at_pc t, ev with
  | Created, EvScheduled =>
      match entry t, heap w !! r with
      | RunJob, _ =>
          (mkTask (entry t) r (AwaitCrawl None) (nested t), w)
      | ResumeJob, Some j =>
          if 0 <? total_urls j then
            (mkTask (entry t) r
                    (AwaitCrawl (Some (stored_urls (website_id j) w)))
                    (nested t), w)
          else (mkTask (entry t) r (AwaitCrawl None) true, w)
      | ResumeJob, None => (t, w)
      end
  | AwaitCrawl seen, EvCrawled (Raise e) => fail now (exn_message e) t w
  | AwaitCrawl seen, EvCrawled (Ok urls_data) =>
      match seen with
      | None =>
          let urls := Sitemap.url <$> urls_data in
          let w := update_job r (set_total_urls (length urls)) w in
          let w := _save_job_metadata r w in
          batch_loop now urls 0 t w
      | Some processed =>
          let urls := remaining processed urls_data in
          let w := update_job r (fun j => set_total_urls
                                   (processed_urls j + length urls) j) w in
          let w := _save_job_metadata r w in
          batch_loop now urls 0 t w
      end
  | AwaitExtract urls i, EvExtracted http_get =>
      match extract_from_urls http_get remove_boilerplate
              extract_structured_content extract_metadata combine_content
              clean_text (batch_at urls i) with
      | Ok content_results => results_loop now urls i content_results t w
      | Raise e => fail now (exn_message e) t w
      end
  | AwaitSave urls i result rest, EvSaved io =>
      let w := _save_content io (job_website_id r w) result now w in
      let w := update_job r record_success w in
      let w := _save_job_metadata r w in
      results_loop now urls i rest t w
  | _, _ => (t, w)
  end.

(** What can happen to the system: a call of the manager's interface, a
    restart of the process, or a step of the [k]-th task. *)
Inductive action : Type :=
| CreateJob (new_id : string) (wid : Z) (wurl : string) (smap : option string)
| StartJob (id : string)
| StopJob (id : string)
| ResumeJobCall (id : string)
| LoadJobs
| Restart (seed : nat)
| TaskStep (k : nat) (ev : event).

Definition perform (now : nat) (a : action) (w : World) : World :=
  match a with
  | CreateJob new_id wid wurl smap => (create_job new_id wid wurl smap w).2
  | StartJob id => (start_job now id w).2
  | StopJob id => (stop_job now id w).2
  | ResumeJobCall id => (resume_job id w).2
  | LoadJobs => load_jobs w
  | Restart seed => restart seed w
  | TaskStep k ev =>
      match tasks w !! k with
      | Some t =>
          let '(t', w') := task_step now ev t w in
          set_tasks (<[k := t']> (tasks w')) w'
      | None => w
      end
  end.

(** A history: the actions in order, each with the clock reading. *)
Definition run (history : list (nat * action)) (w : World) : World :=
  foldl (fun w step => perform step.1 step.2 w) w history.

(** The task runs alone to its end: every [await] is answered in turn,
    the crawl by [crawled], the extraction on the network [http_get], the
    saves with the outcome [io]. *)
Fixpoint run_alone (fuel : nat) (now : nat)
  (crawled : result (list Sitemap.UrlEntry))
  (http_get : string → option string) (io : save_io)
  (tw : task * World) : task * World :=
  match fuel with
  | 0 => tw
  | S fuel' =>
      let ev :=
        match at_pc tw.1 with
        | Created => Some EvScheduled
        | AwaitCrawl _ => Some (EvCrawled crawled)
        | AwaitExtract _ _ => Some (EvExtracted http_get)
        | AwaitSave _ _ _ _ => Some (EvSaved io)
        | Finished => None
        end in
      match ev with
      | Some ev =>
          run_alone fuel' now crawled http_get io (task_step now ev tw.1 tw.2)
      | None => tw
      end
  end.

End CrawlerManager.

(** The content directory of website [wid] holds a record for [u]. *)
Definition has_record (wid : Z) (u : string) (w : World) : Prop :=
  ∃ dir file doc,
    content_files w !! wid = Some dir ∧ dir !! file = Some doc
    ∧ dict_lookup "url" doc = Some (PStr u).

(** The world [resume_job] leaves when it admits the job [j] at [r]. *)
Definition resumed (id : string) (r : nat) (j : CrawlerJob) (w : World)
  : World :=
  let j' := set_status "running" j in
  mkWorld (<[r := j']> (heap w)) (jobs w) ({[ id ]} ∪ active_jobs w)
          (max_concurrent_jobs w)
          (tasks w ++ [mkTask ResumeJob r Created false])
          (<[job_id j := j']> (job_files w)) (content_files w) (pages w)
          (hash_seed w) (checkpoints w ++ [j']) (requested w).

(** The counters of a job agree: every URL handled was a success or a
    failure. *)
Definition consistent (j : CrawlerJob) : Prop :=
  processed_urls j = successful_urls j + failed_urls j.

(** They agree for every job object, for every record of the jobs
    directory and for every record ever written. *)
Definition world_consistent (w : World) : Prop :=
  Forall consistent (heap w)
  ∧ map_Forall (fun _ j => consistent j) (job_files w)
  ∧ Forall consistent (checkpoints w).

End Manager.

(* ===================================================================== *)
(** ** Sample inputs *)
(* ===================================================================== *)

(** Concrete stand-ins for the library functions and for the network, on
    which the definitions above can be run. *)
Module Demo.
Import Robots.

Definition nl : string := String "010" EmptyString.

(** The robots.txt of the specification's example. *)
Definition example_robots_txt : string :=
  "User-agent: *" +:+ nl +:+ "Disallow: /private/" +:+ nl +:+ "Crawl-delay: 2".

(** [urlparse] on the URLs of the examples: scheme [https], host [x.test]. *)
Definition demo_urlparse (u : string) : result ParseResult :=
  match imatch "https://x.test" u with
  | Some rest => Ok (mkParse "https" "x.test" rest)
  | None => Ok (mkParse "" "" u)
  end.

(** [float] on the digits the examples use. *)
Definition demo_float (s : string) : option pyfloat :=
  if String.eqb s "2" then Some (Finite 2) else None.

(** A site that serves the example robots.txt and nothing else. *)
Definition demo_site (u : string) : option string :=
  if String.eqb u "https://x.test/robots.txt" then Some example_robots_txt
  else None.

(** A parser for the three documents of the sitemap example. *)
Definition loc_elem (u : string) : Sitemap.node :=
  Sitemap.Elem "loc" [Sitemap.Text u].

Definition demo_index : Sitemap.node :=
  Sitemap.Elem "[document]"
    [ Sitemap.Elem "sitemapindex"
        [ Sitemap.Elem "sitemap" [loc_elem "https://x.test/posts.xml"];
          Sitemap.Elem "sitemap" [loc_elem " https://x.test/pages.xml "] ] ].

Definition demo_leaf (u1 u2 : string) : Sitemap.node :=
  Sitemap.Elem "[document]"
    [ Sitemap.Elem "urlset"
        [ Sitemap.Elem "url"
            [loc_elem u1; Sitemap.Elem "lastmod" [Sitemap.Text "2024-01-01"]];
          Sitemap.Elem "url"
            [loc_elem u2; Sitemap.Elem "priority" [Sitemap.Text "2"]] ] ].

Definition demo_xml (body : string) : result Sitemap.node :=
  if String.eqb body "<index/>" then Ok demo_index
  else if String.eqb body "<posts/>"
       then Ok (demo_leaf "https://x.test/p1" "https://x.test/p2")
  else if String.eqb body "<pages/>"
       then Ok (demo_leaf "https://x.test/a" "https://x.test/b")
  else Raise (Exception "not well-formed").

(** A site with a sitemap index of two leaves, announced in robots.txt. *)
Definition demo_sitemap_site (u : string) : option string :=
  if String.eqb u "https://x.test/robots.txt"
  then Some ("User-agent: *" +:+ nl +:+ "sitemap:  https://x.test/index.xml ")
  else if String.eqb u "https://x.test/index.xml" then Some "<index/>"
  else if String.eqb u "https://x.test/posts.xml" then Some "<posts/>"
  else if String.eqb u "https://x.test/pages.xml" then Some "<pages/>"
  else None.

Definition demo_crawler : Sitemap.crawler :=
  Sitemap.mkCrawler "https://x.test" "https" "x.test".

(** [urljoin] for a path that starts with a slash. *)
Definition demo_urljoin (base href : string) : result string :=
  Ok ("https://x.test" +:+ href).

(** The anchors of four pages: the seed links to [/b] and [/d], [/b] links
    to [/c]. *)
Definition demo_links (html : string) : result (list string) :=
  if String.eqb html "<seed/>" then Ok ["/b"; "#top"; "/d"]
  else if String.eqb html "<b/>" then Ok ["/c"; "mailto:me@x.test"]
  else Ok [].

(** A site of these four pages, with no robots.txt and no sitemap. *)
Definition demo_pages (u : string) : option string :=
  if String.eqb u "https://x.test" then Some "<seed/>"
  else if String.eqb u "https://x.test/b" then Some "<b/>"
  else if String.eqb u "https://x.test/c" then Some "<c/>"
  else if String.eqb u "https://x.test/d" then Some "<d/>"
  else None.

(** A [set.pop] that gives up the smallest element. *)
Definition pop_min (s : gset string) : string :=
  match elements s with
  | [] => ""
  | x :: l => foldr (fun y m => if String.leb y m then y else m) x l
  end.

(** Stand-ins for the extractor's libraries and for [hash]. *)
Definition demo_hash (seed : nat) (s : string) : Z :=
  (Z.of_nat seed + Z.pos (encode s))%Z.

Definition demo_boilerplate (html : string) : string := html.

Definition demo_structured (html : string) : result Extractor.pyval :=
  Ok (Extractor.PDict
        [ ("headings", Extractor.PList []);
          ("paragraphs", Extractor.PList [Extractor.PStr html]);
          ("lists", Extractor.PList []) ]).

Definition demo_metadata (html u : string) : result Extractor.dict :=
  Ok [ ("url", Extractor.PStr u); ("domain", Extractor.PStr "x.test");
       ("title", Extractor.PStr "Sample page") ].

Definition demo_combine (v : Extractor.pyval) : string :=
  match v with
  | Extractor.PDict
      (_ :: (_, Extractor.PList [Extractor.PStr s]) :: _) => s
  | _ => ""
  end.

Definition demo_clean (s : string) : string := strip s.

(** A network on which every page is served. *)
Definition demo_online (u : string) : option string :=
  Some " A paragraph of the page. ".

(** The entry [crawl] returns for a URL without metadata. *)
Definition bare_entry (u : string) : Sitemap.UrlEntry :=
  Sitemap.mkEntry u None None None.

(** A job is crawled to its end, then started again. *)
Definition history_restarted : list (nat * Manager.action) :=
  [ (1, Manager.CreateJob "j1" 7 "https://x.test" None);
    (2, Manager.StartJob "j1");
    (3, Manager.TaskStep 0 Manager.EvScheduled);
    (4, Manager.TaskStep 0
          (Manager.EvCrawled (Ok [bare_entry "https://x.test/a"])));
    (5, Manager.TaskStep 0 (Manager.EvExtracted demo_online));
    (6, Manager.TaskStep 0 (Manager.EvSaved (Manager.mkIO true true)));
    (7, Manager.StartJob "j1");
    (8, Manager.TaskStep 1 Manager.EvScheduled);
    (9, Manager.TaskStep 1
          (Manager.EvCrawled (Ok [bare_entry "https://x.test/a"])));
    (10, Manager.TaskStep 1 (Manager.EvExtracted demo_online));
    (11, Manager.TaskStep 1 (Manager.EvSaved (Manager.mkIO true true))) ].

(** A job is stopped and resumed while its first task waits for the
    extractor; both tasks then handle the two URLs. *)
Definition history_raced : list (nat * Manager.action) :=
  [ (1, Manager.CreateJob "j1" 7 "https://x.test" None);
    (2, Manager.StartJob "j1");
    (3, Manager.TaskStep 0 Manager.EvScheduled);
    (4, Manager.TaskStep 0
          (Manager.EvCrawled (Ok [bare_entry "https://x.test/a";
                                  bare_entry "https://x.test/b"])));
    (5, Manager.StopJob "j1");
    (6, Manager.ResumeJobCall "j1");
    (7, Manager.TaskStep 1 Manager.EvScheduled);
    (8, Manager.TaskStep 1
          (Manager.EvCrawled (Ok [bare_entry "https://x.test/a";
                                  bare_entry "https://x.test/b"])));
    (9, Manager.TaskStep 0 (Manager.EvExtracted demo_online));
    (10, Manager.TaskStep 1 (Manager.EvExtracted demo_online));
    (11, Manager.TaskStep 0 (Manager.EvSaved (Manager.mkIO true true)));
    (12, Manager.TaskStep 1 (Manager.EvSaved (Manager.mkIO true true)));
    (13, Manager.TaskStep 0 (Manager.EvSaved (Manager.mkIO true true))) ].

(** A job is stopped before its only URL is handled, resumed, stopped
    again while the extractor works, and resumed a second time. *)
Definition history_resumed_twice : list (nat * Manager.action) :=
  [ (1, Manager.CreateJob "j1" 7 "https://x.test" None);
    (2, Manager.StartJob "j1");
    (3, Manager.TaskStep 0 Manager.EvScheduled);
    (4, Manager.TaskStep 0
          (Manager.EvCrawled (Ok [bare_entry "https://x.test/a"])));
    (5, Manager.StopJob "j1");
    (6, Manager.TaskStep 0 (Manager.EvExtracted demo_online));
    (7, Manager.ResumeJobCall "j1");
    (8, Manager.TaskStep 1 Manager.EvScheduled);
    (9, Manager.TaskStep 1
          (Manager.EvCrawled (Ok [bare_entry "https://x.test/a"])));
    (10, Manager.StopJob "j1");
    (11, Manager.TaskStep 1 (Manager.EvExtracted demo_online));
    (12, Manager.ResumeJobCall "j1");
    (13, Manager.TaskStep 2 Manager.EvScheduled);
    (14, Manager.TaskStep 2
           (Manager.EvCrawled (Ok [bare_entry "https://x.test/a"]))) ].

Definition demo_run (history : list (nat * Manager.action))
  : Manager.World :=
  Manager.run demo_hash demo_boilerplate demo_structured demo_metadata
              demo_combine demo_clean history Manager.init_world.

End Demo.

(* ===================================================================== *)
(** ** html_extractor.py: [clean_text] *)
(* ===================================================================== *)

(** The three substitutions of [clean_text], written out on strings.  The
    class [\s] is the white space of [str.isspace], in the ASCII range. *)
Module Text.

Definition newline : ascii := "010".

(** In a string [s] that holds the character [c]: what follows its last
    occurrence. *)
Fixpoint after_last (c : ascii) (s : string) : option string :=
  match s with
  | EmptyString => None
  | String x s' =>
      match after_last c s' with
      | Some t => Some t
      | None => if Ascii.eqb x c then Some s' else None
      end
  end.

(** The pattern of the first substitution, a newline, white space, a
    newline, can only match inside one run of white space.  The leftmost
    match begins at the first newline of the run and, the star being
    greedy, ends at its last newline; it needs two newlines.  The run with
    that match replaced by two newlines: *)
Definition squeeze_run (run : string) : string :=
  match split_once newline run with
  | Some (before, after) =>
      match after_last newline after with
      | Some tail => before +:+ String newline (String newline tail)
      | None => run
      end
  | None => run
  end.

(** [re.sub(r'\n\s*\n', '\n\n', text)]; [run] holds, in reverse, the white
    space read since the last other character. *)
Fixpoint sub_blank_lines (run : string) (text : string) : string :=
  match text with
  | EmptyString => squeeze_run (String.rev run)
  | String c text' =>
      if isspace c then sub_blank_lines (String c run) text'
      else squeeze_run (String.rev run)
           +:+ String c (sub_blank_lines EmptyString text')
  end.

(** [re.sub(r'\s+', ' ', text)]: every run of white space becomes one
    space; [in_run] tells that the character before was white space. *)
Fixpoint sub_spaces (in_run : bool) (text : string) : string :=
  match text with
  | EmptyString => EmptyString
  | String c text' =>
      if isspace c then
        if in_run then sub_spaces true text'
        else String " " (sub_spaces true text')
      else String c (sub_spaces false text')
  end.

(** The class [a-zA-Z0-9]. *)
Definition isalnum (c : ascii) : bool :=
  let n := nat_of_ascii c in
  ((48 <=? n) && (n <=? 57)) || ((65 <=? n) && (n <=? 90))
  || ((97 <=? n) && (n <=? 122)).

(** The length of the match of [[a-zA-Z0-9]+;] at the head of [s], if it
    matches there; [seen] tells that a character of the class was read. *)
Fixpoint entity_tail (seen : bool) (s : string) : option nat :=
  match s with
  | EmptyString => None
  | String c s' =>
      if isalnum c then S <$> entity_tail true s'
      else if seen && Ascii.eqb c ";" then Some 1
      else None
  end.

(** [re.sub(r'&[a-zA-Z0-9]+;', ' ', text)]; [skip] counts the characters
    of a match that are still to pass over. *)
Fixpoint sub_entities (skip : nat) (text : string) : string :=
  match text with
  | EmptyString => EmptyString
  | String c text' =>
      match skip with
      | S k => sub_entities k text'
      | 0 =>
          if Ascii.eqb c "&" then
            match entity_tail false text' with
            | Some n => String " " (sub_entities n text')
            | None => String c (sub_entities 0 text')
            end
          else String c (sub_entities 0 text')
      end
  end.

(** [clean_text] *)
Definition clean_text (text : string) : string :=
  if negb (truthy text) then EmptyString
  else
    let text := sub_blank_lines EmptyString text in
    let text := sub_spaces false text in
    let text := sub_entities 0 text in
    strip text.

End Text.

(* ===================================================================== *)
(** ** api/endpoints/crawler.py *)
(* ===================================================================== *)

From stdpp Require Import pretty.

(** The routes that drive the manager.  A handler runs without suspending:
    the manager methods it awaits have no [await] of their own. *)
Module Endpoints.
Import Manager.

(** A row of the [websites] table, with the attributes [start_crawl]
    reads. *)
Record Website : Type := mkWebsite {
  ws_id : Z;
  ws_url : string;
  ws_sitemap_url : option string
}.

(** How a handler ends: with its return value, with an [HTTPException],
    or with an exception it does not catch. *)
Inductive response (A : Type) : Type :=
| Returns (body : A)
| HTTPException (status_code : nat) (detail : string)
| Uncaught (e : exn).
Arguments Returns {A} body.
Arguments HTTPException {A} status_code detail.
Arguments Uncaught {A} e.

(** The body [{"job_id": ..., "status": ...}]. *)
Record job_status : Type := mkJobStatus {
  body_job_id : string;
  body_status : string
}.

Section Routes.

(** [WebsiteRepository.get] *)
Variable repository_get : Z → option Website.

(** [POST /crawl/{website_id}]; [new_id] is the UUID of the job. *)
Definition start_crawl (new_id : string) (now : nat) (website_id : Z)
  (w : World) : response job_status * World :=
  match repository_get website_id with
  | None =>
      (HTTPException 404
         ("Website with ID " +:+ pretty website_id +:+ " not found"), w)
  | Some website =>
      let '(r, w) := create_job new_id (ws_id website) (ws_url website)
                                (ws_sitemap_url website) w in
      match start_job now new_id w with
      | (Raise e, w) => (Uncaught e, w)
      | (Ok started, w) =>
          if negb started then
            (HTTPException 409
               "Failed to start crawling job, maximum concurrent jobs reached or job is already running",
             w)
          else
            match heap w !! r with
            | Some job => (Returns (mkJobStatus (job_id job) (status job)), w)
            | None => (Uncaught AttributeError, w)
            end
      end
  end.

End Routes.

(** [POST /jobs/{job_id}/stop] *)
Definition stop_job (now : nat) (id : string) (w : World)
  : response job_status * World :=
  match get_job w id with
  | None => (HTTPException 404 ("Job with ID " +:+ id +:+ " not found"), w)
  | Some (_, job) =>
      if negb (String.eqb (status job) "running") then
        (HTTPException 409
           ("Job is not running (current status: " +:+ status job +:+ ")"),
         w)
      else
        match Manager.stop_job now id w with
        | (Raise e, w) => (Uncaught e, w)
        | (Ok stopped, w) =>
            if negb stopped then
              (HTTPException 500 "Failed to stop crawling job", w)
            else (Returns (mkJobStatus id "stopped"), w)
        end
  end.

(** [POST /jobs/{job_id}/resume] *)
Definition resume_job (id : string) (w : World)
  : response job_status * World :=
  match get_job w id with
  | None => (HTTPException 404 ("Job with ID " +:+ id +:+ " not found"), w)
  | Some (_, job) =>
      if negb (String.eqb (status job) "failed"
               || String.eqb (status job) "stopped") then
        (HTTPException 409
           ("Job cannot be resumed (current status: " +:+ status job
            +:+ ")"), w)
      else
        match Manager.resume_job id w with
        | (Raise e, w) => (Uncaught e, w)
        | (Ok resumed, w) =>
            if negb resumed then
              (HTTPException 500 "Failed to resume crawling job", w)
            else (Returns (mkJobStatus id "running"), w)
        end
  end.

End Endpoints.

(* ===================================================================== *)
(** * Properties *)
(* ===================================================================== *)

(** ** Strings *)

Lemma length_append (a b : string) :
  String.length (a +:+ b) = String.length a + String.length b.
Proof. induction a as [|c a IH]; simpl; [reflexivity | now rewrite IH]. Qed.

Lemma startswith_iff (s p : string) :
  startswith s p = true ↔ ∃ suffix, s = p +:+ suffix.
Proof.
  unfold startswith. revert s.
  induction p as [|c p IH]; intros s; simpl.
  - split; [intros _; now exists s | intros _; now destruct s].
  - destruct s as [|d s]; simpl.
    + split; [discriminate | intros [t Ht]; discriminate].
    + destruct (ascii_dec c d) as [->|Hne].
      * rewrite IH. split; intros [t Ht]; exists t.
        -- rewrite Ht. reflexivity.
        -- injection Ht. auto.
      * split; [discriminate | intros [t Ht]; injection Ht; congruence].
Qed.

(** ** robots_parser.py *)

Module RobotsProps.
Import Robots Demo.

Section Facts.

Variable urlparse : string → result ParseResult.
Variable py_float : string → option pyfloat.
Variable http_get : string → option string.
Variable user_agent : string.

#[local] Abbreviation parse_robots_txt := (Robots.parse_robots_txt py_float).
#[local] Abbreviation rules_for :=
  (Robots.rules_for urlparse py_float http_get).
#[local] Abbreviation get_crawl_delay := (Robots.get_crawl_delay user_agent).
#[local] Abbreviation user_agent_rules := (Robots.user_agent_rules user_agent).
#[local] Abbreviation is_allowed :=
  (Robots.is_allowed urlparse py_float http_get user_agent).
#[local] Abbreviation get_allowed_urls :=
  (Robots.get_allowed_urls urlparse py_float http_get user_agent).

(** The group of rules the specification selects: the one of the crawler's
    own token, else the one of the wildcard, else no rule at all. *)
Inductive selected_group (rules : rules_t) : list string → Prop :=
| sel_own g :
    rules !! lower user_agent = Some (RList g) → selected_group rules g
| sel_wildcard g :
    rules !! lower user_agent = None → rules !! "*" = Some (RList g) →
    selected_group rules g
| sel_nothing :
    rules !! lower user_agent = None → rules !! "*" = None →
    selected_group rules [].

Lemma user_agent_rules_selected rules g :
  selected_group rules g → user_agent_rules rules = RList g.
Proof.
  unfold Robots.user_agent_rules.
  destruct 1 as [g H | g H1 H2 | H1 H2]; rewrite ?H, ?H1, ?H2; reflexivity.
Qed.

Lemma matches_disallow_iff path g :
  matches_disallow path g = true
  ↔ ∃ rule suffix, rule ∈ g ∧ path = rule +:+ suffix.
Proof.
  unfold matches_disallow. rewrite existsb_exists. split.
  - intros (rule & Hin & Hpre). apply startswith_iff in Hpre as [t Ht].
    exists rule, t. split; [now apply list_elem_of_In | exact Ht].
  - intros (rule & t & Hin & Ht). exists rule.
    split; [now apply list_elem_of_In | apply startswith_iff; now exists t].
Qed.

Lemma is_allowed_selected url cache p rules cache' g :
  urlparse url = Ok p →
  rules_for (scheme p +:+ "://" +:+ netloc p) cache = Ok (rules, cache') →
  selected_group rules g →
  await (is_allowed url) cache
  = (Ok (negb (matches_disallow (str_or (path p) "/") g),
         get_crawl_delay rules), cache').
Proof.
  intros Hp Hr Hsel. simpl. unfold is_allowed_body.
  rewrite Hp, Hr, (user_agent_rules_selected _ _ Hsel).
  destruct (matches_disallow _ g); reflexivity.
Qed.

(** The rules of the example, as [parse_robots_txt] builds them. *)
Definition example_rules : rules_t :=
  <["*_crawl_delay" := RFloat (Finite 2)]> (<["*" := RList ["/private/"]]> ∅).

Lemma parse_example :
  py_float "2" = Some (Finite 2) →
  parse_robots_txt (Some example_robots_txt) = Ok example_rules.
Proof.
  intros Hf. vm_compute. rewrite Hf. vm_compute. reflexivity.
Qed.

Lemma example_delay :
  get_crawl_delay example_rules = RFloat (Finite 2).
Proof.
  unfold Robots.get_crawl_delay, example_rules.
  rewrite lookup_insert. case_decide as H1; [reflexivity |].
  rewrite lookup_insert. case_decide as H2.
  - apply (f_equal String.length) in H2. rewrite length_append in H2.
    simpl in H2. lia.
  - rewrite lookup_empty. reflexivity.
Qed.

Lemma example_group :
  lower user_agent ≠ "*_crawl_delay" →
  selected_group example_rules ["/private/"].
Proof.
  intros Hua. destruct (decide (lower user_agent = "*")) as [Heq|Hne].
  - apply sel_own. rewrite Heq. reflexivity.
  - apply sel_wildcard; [| reflexivity].
    unfold example_rules. rewrite !lookup_insert_ne by congruence.
    apply lookup_empty.
Qed.

End Facts.

(** C7.  With the robots.txt [User-agent: *], [Disallow: /private/],
    [Crawl-delay: 2] served for [x.test], [is_allowed] answers
    [(False, 2.0)] for [https://x.test/private/page] and [(True, 2.0)] for
    [https://x.test/public], on a cold cache and on the cache the first
    call fills.  In general the answer is [False] exactly when the path
    (["/"] for an empty one) starts with one of the prefixes of the
    selected group: the group stored under the crawler's own lower-cased
    token if there is one, else the group of ["*"], else no prefix at
    all. *)
Theorem is_allowed_follows_selected_group
  (urlparse : string → result ParseResult)
  (py_float : string → option pyfloat)
  (http_get : string → option string)
  (user_agent : string) :
  urlparse "https://x.test/private/page"
    = Ok (mkParse "https" "x.test" "/private/page") →
  urlparse "https://x.test/public" = Ok (mkParse "https" "x.test" "/public") →
  urlparse "https://x.test" = Ok (mkParse "https" "x.test" "") →
  py_float "2" = Some (Finite 2) →
  http_get "https://x.test/robots.txt" = Some example_robots_txt →
  lower user_agent ≠ "*_crawl_delay" →
  (∀ cache,
     cache !! "https://x.test" = None
     ∨ cache !! "https://x.test" = Some example_rules →
     (await (is_allowed urlparse py_float http_get user_agent
               "https://x.test/private/page") cache).1
       = Ok (false, RFloat (Finite 2))
     ∧ (await (is_allowed urlparse py_float http_get user_agent
                 "https://x.test/public") cache).1
       = Ok (true, RFloat (Finite 2))
     ∧ (await (is_allowed urlparse py_float http_get user_agent
                 "https://x.test/public") cache).2 !! "https://x.test"
       = Some example_rules)
  ∧ (∀ url cache p rules cache' g,
       urlparse url = Ok p →
       rules_for urlparse py_float http_get
         (scheme p +:+ "://" +:+ netloc p) cache = Ok (rules, cache') →
       selected_group user_agent rules g →
       ∃ allowed,
         await (is_allowed urlparse py_float http_get user_agent url) cache
         = (Ok (allowed, get_crawl_delay user_agent rules), cache')
         ∧ (allowed = false
            ↔ ∃ rule suffix,
                rule ∈ g ∧ str_or (path p) "/" = rule +:+ suffix)).
Proof.
  intros Hpriv Hpub Hbase Hfloat Hget Hua. split.
  - intros cache Hcache.
    assert (Hrules : ∃ cache',
      rules_for urlparse py_float http_get "https://x.test" cache
        = Ok (example_rules, cache')
      ∧ cache' !! "https://x.test" = Some example_rules).
    { unfold rules_for. destruct Hcache as [Hc | Hc]; rewrite Hc.
      - unfold fetch_robots_txt. rewrite Hbase. simpl scheme. simpl netloc.
        change ("https" +:+ "://" +:+ "x.test" +:+ "/robots.txt")
          with "https://x.test/robots.txt".
        rewrite Hget, (parse_example _ Hfloat).
        eexists. split; [reflexivity | apply lookup_insert_eq].
      - eexists. split; [reflexivity | exact Hc]. }
    destruct Hrules as (cache' & Hrules & Hcached).
    pose proof (example_group user_agent Hua) as Hsel.
    rewrite (is_allowed_selected _ _ _ _ _ _ _ _ _ _ Hpriv Hrules Hsel).
    rewrite (is_allowed_selected _ _ _ _ _ _ _ _ _ _ Hpub Hrules Hsel).
    rewrite example_delay. simpl. auto.
  - intros url cache p rules cache' g Hp Hr Hsel.
    eexists. split.
    + apply (is_allowed_selected _ _ _ _ _ _ _ _ _ _ Hp Hr Hsel).
    + rewrite negb_false_iff. apply matches_disallow_iff.
Qed.

Lemma is_allowed_follows_selected_group_witness :
  (await (is_allowed demo_urlparse demo_float demo_site "RAGCrawlerBot/1.0"
            "https://x.test/private/page") ∅).1
    = Ok (false, RFloat (Finite 2))
  ∧ (await (is_allowed demo_urlparse demo_float demo_site "RAGCrawlerBot/1.0"
              "https://x.test/public") ∅).1
    = Ok (true, RFloat (Finite 2)).
Proof.
  destruct (is_allowed_follows_selected_group
              demo_urlparse demo_float demo_site "RAGCrawlerBot/1.0")
    as [Hex _]; [reflexivity .. | discriminate |].
  destruct (Hex ∅ (or_introl (lookup_empty _))) as (H1 & H2 & _).
  split; assumption.
Defined.

(** C10.  [get_allowed_urls] returns the empty list for the empty list and
    raises [TypeError] for every other list, whatever the base URL: it
    subscripts the coroutine object that the call of the [async]
    [is_allowed] returns. *)
Theorem get_allowed_urls_type_error
  (urlparse : string → result ParseResult)
  (py_float : string → option pyfloat)
  (http_get : string → option string)
  (user_agent base_url : string) :
  get_allowed_urls urlparse py_float http_get user_agent base_url [] = Ok []
  ∧ (∀ urls, urls ≠ [] →
       get_allowed_urls urlparse py_float http_get user_agent base_url urls
       = Raise TypeError)
  ∧ (∀ urls allowed,
       get_allowed_urls urlparse py_float http_get user_agent base_url urls
       = Ok allowed → urls = [] ∧ allowed = []).
Proof.
  split; [reflexivity |]. split.
  - intros [|url rest] Hne; [congruence | reflexivity].
  - intros [|url rest] allowed H.
    + injection H as <-. split; reflexivity.
    + discriminate H.
Qed.

Lemma get_allowed_urls_type_error_witness :
  get_allowed_urls demo_urlparse demo_float demo_site "RAGCrawlerBot/1.0"
    "https://x.test" ["https://x.test/public"; "https://x.test/private/page"]
  = Raise TypeError.
Proof.
  apply (get_allowed_urls_type_error demo_urlparse demo_float demo_site
           "RAGCrawlerBot/1.0" "https://x.test").
  discriminate.
Defined.

End RobotsProps.

(** ** sitemap_crawler.py: sitemaps *)

Module SitemapProps.
Import Robots Sitemap Demo.

Section Facts.

Variable urlparse : string → result ParseResult.
Variable urljoin : string → string → result string.
Variable py_float : string → option pyfloat.
Variable http_get : string → option string.
Variable BeautifulSoup_xml : string → result node.
Variable html_links : string → result (list string).
Variable user_agent : string.
Variable set_pop : gset string → string.

#[local] Abbreviation each_sitemap := (Sitemap.each_sitemap http_get).
#[local] Abbreviation parse_sitemap :=
  (Sitemap.parse_sitemap py_float http_get BeautifulSoup_xml).
#[local] Abbreviation sub_entries :=
  (Sitemap.sub_entries py_float http_get BeautifulSoup_xml).
#[local] Abbreviation leaf_entries := (Sitemap.leaf_entries py_float).
#[local] Abbreviation fetched_leaf :=
  (Sitemap.fetched_leaf http_get BeautifulSoup_xml).
#[local] Abbreviation crawl :=
  (Sitemap.crawl urlparse urljoin py_float http_get BeautifulSoup_xml
                 html_links user_agent set_pop).

(** The loop over an index appends the contribution of every element, in
    the order of the document. *)
Lemma each_sitemap_concat fuel sitemaps subs all_urls :
  Forall2 (fun sm sub => sub_entries fuel sm = Some sub) sitemaps subs →
  each_sitemap (parse_sitemap fuel) sitemaps all_urls
  = Some (all_urls ++ concat subs).
Proof.
  intros H. revert all_urls.
  induction H as [|sm sub sitemaps subs Hsub _ IH]; intros all_urls; simpl.
  - now rewrite app_nil_r.
  - unfold Sitemap.sub_entries in Hsub.
    destruct (find_string "loc" sm) as [loc|].
    + destruct (nonempty (fetch_url http_get (strip loc))) as [body|].
      * rewrite Hsub, IH. now rewrite app_assoc.
      * injection Hsub as <-. apply IH.
    + injection Hsub as <-. apply IH.
Qed.

Lemma parse_index fuel content soup :
  truthy content = true →
  BeautifulSoup_xml content = Ok soup →
  find_all "sitemap" soup ≠ [] →
  parse_sitemap (S fuel) content
  = each_sitemap (parse_sitemap fuel) (find_all "sitemap" soup) [].
Proof.
  intros Ht Hsoup Hidx. simpl. rewrite Ht, Hsoup. simpl.
  destruct (find_all "sitemap" soup); [congruence | reflexivity].
Qed.

Lemma parse_leaf fuel content soup :
  truthy content = true →
  BeautifulSoup_xml content = Ok soup →
  find_all "sitemap" soup = [] →
  parse_sitemap (S fuel) content = Some (leaf_entries soup).
Proof. intros Ht Hsoup Hleaf. simpl. now rewrite Ht, Hsoup, Hleaf. Qed.

Lemma flat_map_singletons {A B} (f : A → list B) (l : list A) :
  Forall (fun a => length (f a) = 1) l → length (flat_map f l) = length l.
Proof.
  induction 1 as [|a l Ha _ IH]; simpl; [reflexivity |].
  rewrite length_app, Ha, IH. reflexivity.
Qed.

Lemma leaf_with_length soup n :
  leaf_with soup n → length (leaf_entries soup) = n.
Proof.
  unfold Sitemap.leaf_entries.
  destruct 1 as [_ Hne Hall | _ Hnil Hall].
  - destruct (find_all "url" soup) as [|u us] eqn:E; [congruence |].
    apply flat_map_singletons. eapply Forall_impl; [exact Hall |].
    intros x [loc Hloc]. unfold url_entry. now rewrite Hloc.
  - rewrite Hnil. apply flat_map_singletons.
    eapply Forall_impl; [exact Hall |].
    intros x (s & Hs & Ht). unfold loc_entry. now rewrite Hs, Ht.
Qed.

Lemma leaf_with_no_sitemap soup n :
  leaf_with soup n → find_all "sitemap" soup = [].
Proof. now destruct 1. Qed.

Lemma sub_entries_leaf fuel sm loc soup n :
  find_string "loc" sm = Some loc →
  fetched_leaf loc soup n →
  sub_entries (S fuel) sm = Some (leaf_entries soup).
Proof.
  intros Hloc (body & Hget & Ht & Hsoup & Hleaf).
  unfold Sitemap.sub_entries, fetch_url, nonempty. rewrite Hloc, Hget, Ht.
  apply parse_leaf; [assumption .. | eapply leaf_with_no_sitemap; eauto].
Qed.

Lemma crawl_parses_sitemap fuel c max_pages cache sitemap_url content :
  discover_sitemap_url http_get c = Some sitemap_url →
  truthy sitemap_url = true →
  http_get sitemap_url = Some content →
  truthy content = true →
  crawl fuel c max_pages cache
  = match parse_sitemap fuel content with
    | Some entries => Some (Ok entries)
    | None => None
    end.
Proof.
  intros Hd Ht Hget Hc. unfold Sitemap.crawl, fetch_url, nonempty.
  now rewrite Hd, Ht, Hget, Hc.
Qed.

End Facts.

(** C6.  When the sitemap [crawl] finds is a sitemap index, [crawl]
    returns the concatenation, in document order, of what each listed
    [<sitemap>] element contributes: the entries of the sub-sitemap its
    [<loc>] points to, parsed recursively (nothing for an element without
    [<loc>] text or whose sub-sitemap cannot be fetched).  For an index of
    two elements that point to fetchable leaf sitemaps of [n] URL entries
    each, the result is the entries of the first leaf followed by those of
    the second, [2 * n] entries. *)
Theorem sitemap_index_is_flattened
  (urlparse : string → result ParseResult)
  (urljoin : string → string → result string)
  (py_float : string → option pyfloat)
  (http_get : string → option string)
  (BeautifulSoup_xml : string → result node)
  (html_links : string → result (list string))
  (user_agent : string)
  (set_pop : gset string → string)
  (c : crawler) (max_pages : nat) (cache : gmap string (gmap string rule_value))
  (sitemap_url content : string) (soup : node) :
  discover_sitemap_url http_get c = Some sitemap_url →
  truthy sitemap_url = true →
  http_get sitemap_url = Some content →
  truthy content = true →
  BeautifulSoup_xml content = Ok soup →
  find_all "sitemap" soup ≠ [] →
  (∀ fuel subs,
     Forall2 (fun sm sub =>
                sub_entries py_float http_get BeautifulSoup_xml fuel sm
                = Some sub)
             (find_all "sitemap" soup) subs →
     crawl urlparse urljoin py_float http_get BeautifulSoup_xml html_links
           user_agent set_pop (S fuel) c max_pages cache
     = Some (Ok (concat subs)))
  ∧ (∀ s1 s2 loc1 loc2 soup1 soup2 n,
       find_all "sitemap" soup = [s1; s2] →
       find_string "loc" s1 = Some loc1 →
       find_string "loc" s2 = Some loc2 →
       fetched_leaf http_get BeautifulSoup_xml loc1 soup1 n →
       fetched_leaf http_get BeautifulSoup_xml loc2 soup2 n →
       ∀ fuel, 2 ≤ fuel →
         crawl urlparse urljoin py_float http_get BeautifulSoup_xml
               html_links user_agent set_pop fuel c max_pages cache
         = Some (Ok (leaf_entries py_float soup1 ++ leaf_entries py_float soup2))
         ∧ length (leaf_entries py_float soup1 ++ leaf_entries py_float soup2)
           = 2 * n).
Proof.
  intros Hd Ht Hget Hc Hsoup Hidx.
  assert (Hcrawl : ∀ fuel subs,
    Forall2 (fun sm sub =>
               sub_entries py_float http_get BeautifulSoup_xml fuel sm
               = Some sub)
            (find_all "sitemap" soup) subs →
    crawl urlparse urljoin py_float http_get BeautifulSoup_xml html_links
          user_agent set_pop (S fuel) c max_pages cache
    = Some (Ok (concat subs))).
  { intros fuel subs Hsubs.
    rewrite (crawl_parses_sitemap _ _ _ _ _ _ _ _ _ _ _ _ _ _ Hd Ht Hget Hc).
    rewrite (parse_index _ _ _ _ _ _ Hc Hsoup Hidx).
    now rewrite (each_sitemap_concat _ _ _ _ _ _ _ Hsubs). }
  split; [exact Hcrawl |].
  intros s1 s2 loc1 loc2 soup1 soup2 n Htwo Hl1 Hl2 Hf1 Hf2 fuel Hfuel.
  destruct fuel as [|[|fuel]]; [lia | lia |]. split.
  - rewrite (Hcrawl (S fuel)
               [leaf_entries py_float soup1; leaf_entries py_float soup2]).
    + simpl. now rewrite app_nil_r.
    + rewrite Htwo. repeat constructor.
      * eapply sub_entries_leaf; eauto.
      * eapply sub_entries_leaf; eauto.
  - destruct Hf1 as (_ & _ & _ & _ & Hleaf1).
    destruct Hf2 as (_ & _ & _ & _ & Hleaf2).
    rewrite length_app, (leaf_with_length _ _ _ Hleaf1),
      (leaf_with_length _ _ _ Hleaf2). lia.
Qed.

Lemma demo_leaf_with u1 u2 :
  truthy u1 = true → truthy u2 = true → leaf_with (demo_leaf u1 u2) 2.
Proof.
  intros H1 H2.
  change 2 with (length (find_all "url" (demo_leaf u1 u2))).
  apply leaf_wrapped; [reflexivity | discriminate |].
  unfold demo_leaf, loc_elem. simpl.
  constructor;
    [unfold find_string; cbn -[truthy]; rewrite H1; eexists; reflexivity |].
  constructor;
    [unfold find_string; cbn -[truthy]; rewrite H2; eexists; reflexivity |].
  constructor.
Defined.

Lemma sitemap_index_is_flattened_witness :
  crawl demo_urlparse demo_urljoin demo_float demo_sitemap_site demo_xml
        demo_links "RAGCrawlerBot/1.0" pop_min 2 demo_crawler 500 ∅
  = Some (Ok (leaf_entries demo_float
                (demo_leaf "https://x.test/p1" "https://x.test/p2")
              ++ leaf_entries demo_float
                   (demo_leaf "https://x.test/a" "https://x.test/b")))
  ∧ length (leaf_entries demo_float
              (demo_leaf "https://x.test/p1" "https://x.test/p2")
            ++ leaf_entries demo_float
                 (demo_leaf "https://x.test/a" "https://x.test/b"))
    = 2 * 2.
Proof.
  destruct (sitemap_index_is_flattened demo_urlparse demo_urljoin demo_float
              demo_sitemap_site demo_xml demo_links "RAGCrawlerBot/1.0"
              pop_min demo_crawler 500 ∅ "https://x.test/index.xml"
              "<index/>" demo_index) as [_ H];
    [reflexivity .. | discriminate |].
  apply (H (Elem "sitemap" [loc_elem "https://x.test/posts.xml"])
           (Elem "sitemap" [loc_elem " https://x.test/pages.xml "])
           "https://x.test/posts.xml" " https://x.test/pages.xml ");
    [reflexivity .. | | | lia].
  - exists "<posts/>". repeat split; now apply demo_leaf_with.
  - exists "<pages/>". repeat split; now apply demo_leaf_with.
Defined.

End SitemapProps.

(** ** sitemap_crawler.py: the link crawl *)

Module LinkCrawlProps.
Import Robots Sitemap Demo.

Section Facts.

Variable urlparse : string → result ParseResult.
Variable urljoin : string → string → result string.
Variable py_float : string → option pyfloat.
Variable http_get : string → option string.
Variable html_links : string → result (list string).
Variable user_agent : string.
Variable set_pop : gset string → string.

(** [set.pop()] gives up an element of the set. *)
Hypothesis set_pop_elem : ∀ s : gset string, s ≠ ∅ → set_pop s ∈ s.

Variable c : crawler.
Variable max_pages : nat.

#[local] Abbreviation is_allowed :=
  (Robots.is_allowed urlparse py_float http_get user_agent).
#[local] Abbreviation discover_urls_from_html :=
  (Sitemap.discover_urls_from_html urlparse urljoin html_links).
#[local] Abbreviation resolve_link := (Sitemap.resolve_link urlparse urljoin).
#[local] Abbreviation resolve_links :=
  (Sitemap.resolve_links urlparse urljoin).
#[local] Abbreviation visit :=
  (Sitemap.visit urlparse urljoin http_get html_links).
#[local] Abbreviation crawl_step :=
  (Sitemap.crawl_step urlparse urljoin py_float http_get html_links
                      user_agent set_pop).
#[local] Abbreviation crawl_loop :=
  (Sitemap.crawl_loop urlparse urljoin py_float http_get html_links
                      user_agent set_pop).
#[local] Abbreviation links_of :=
  (Sitemap.links_of urlparse urljoin http_get html_links).
#[local] Abbreviation robots_answer :=
  (Sitemap.robots_answer urlparse py_float http_get user_agent).
#[local] Abbreviation linked :=
  (Sitemap.linked urlparse urljoin http_get html_links).
#[local] Abbreviation same_domain := (Sitemap.same_domain urlparse).
#[local] Abbreviation recorded :=
  (Sitemap.recorded urlparse urljoin py_float http_get html_links user_agent).
#[local] Abbreviation dropped :=
  (Sitemap.dropped urlparse py_float http_get user_agent).

(** *** Links are on the crawler's domain *)

Lemma resolve_link_same_domain page href0 href :
  resolve_link c page href0 = Ok (Some href) → same_domain c href.
Proof.
  unfold Sitemap.resolve_link.
  destruct (_ || _); [discriminate |].
  destruct (if _ : bool then Ok _ else _) as [h|e]; simpl; [| discriminate].
  destruct (urlparse h) as [p|e] eqn:Hp; simpl; [| discriminate].
  destruct (String.eqb (netloc p) (domain c)) eqn:Heq; [| discriminate].
  intros [= <-]. exists p. split; [exact Hp | now apply String.eqb_eq].
Qed.

Lemma resolve_links_same_domain page hrefs acc v :
  v ∈ resolve_links c page hrefs acc → v ∈ acc ∨ same_domain c v.
Proof.
  revert acc. induction hrefs as [|h rest IH]; intros acc; simpl.
  - now left.
  - destruct (resolve_link c page h) as [[href|]|e] eqn:Hl.
    + intros Hv. destruct (IH _ Hv) as [Hin | Hd]; [| now right].
      apply elem_of_union in Hin as [Hin | Hin]; [| now left].
      apply elem_of_singleton in Hin as ->. right.
      eapply resolve_link_same_domain; eauto.
    + apply IH.
    + now left.
Qed.

Lemma links_of_same_domain u v : v ∈ links_of c u → same_domain c v.
Proof.
  unfold Sitemap.links_of.
  destruct (nonempty (fetch_url http_get u)) as [html|]; [| set_solver].
  unfold Sitemap.discover_urls_from_html.
  destruct (negb (truthy html)); [set_solver |].
  destruct (html_links html) as [hrefs|e]; [| set_solver].
  intros Hv. apply resolve_links_same_domain in Hv as [Hv | Hv];
    [set_solver | exact Hv].
Qed.

(** *** One iteration of the loop *)

(** The step either ends the loop, on an empty frontier or on [max_pages]
    crawled pages, or takes [cur] out of the frontier and then leaves it
    out (it was crawled before, or is dropped) or records it and adds its
    links that are not crawled. *)
Lemma crawl_step_cases st :
  let cur := set_pop (to_crawl st) in
  match crawl_step c max_pages st with
  | inr (Ok st') =>
      st' = st ∧ (to_crawl st = ∅ ∨ max_pages ≤ size (crawled st))
  | inr (Raise _) => True
  | inl st' =>
      to_crawl st ≠ ∅ ∧ size (crawled st) < max_pages
      ∧ ((to_crawl st' = to_crawl st ∖ {[ cur ]}
          ∧ crawled st' = crawled st
          ∧ results st' = results st
          ∧ (cur ∈ crawled st ∨ dropped cur))
         ∨ ((cur ∉ crawled st)
            ∧ robots_answer true cur
            ∧ is_Some (nonempty (fetch_url http_get cur))
            ∧ to_crawl st'
              = (to_crawl st ∖ {[ cur ]})
                  ∪ (links_of c cur ∖ ({[ cur ]} ∪ crawled st))
            ∧ crawled st' = {[ cur ]} ∪ crawled st
            ∧ results st' = results st ++ [mkEntry cur None None None]))
  end.
Proof.
  intros cur. unfold Sitemap.crawl_step. fold cur.
  destruct (bool_decide (to_crawl st = ∅)) eqn:Hempty; cbn [orb].
  { apply bool_decide_eq_true in Hempty. split; [reflexivity | now left]. }
  apply bool_decide_eq_false in Hempty.
  destruct (max_pages <=? size (crawled st)) eqn:Hmax.
  { apply Nat.leb_le in Hmax. split; [reflexivity | now right]. }
  apply Nat.leb_gt in Hmax.
  cbn [to_crawl crawled results robots_cache].
  case_bool_decide as Hin.
  { repeat split; try assumption. left. simpl. repeat split. now left. }
  destruct (await (is_allowed cur) (robots_cache st))
    as [[[allowed delay]|e] cache'] eqn:Hrobots; [| exact I].
  destruct allowed; cbn [negb to_crawl crawled results robots_cache].
  - unfold Sitemap.visit, Sitemap.links_of. simpl.
    destruct (nonempty (fetch_url http_get cur)) as [html|] eqn:Hfetch.
    + destruct (asyncio_sleep delay); [| exact I].
      repeat split; try assumption. right. simpl.
      repeat split; try assumption; [| eauto].
      exists (robots_cache st), delay, cache'. exact Hrobots.
    + destruct (asyncio_sleep delay); [| exact I].
      repeat split; try assumption. left. simpl. repeat split.
      right. right. exact Hfetch.
  - repeat split; try assumption. left. simpl. repeat split.
    right. left. exists (robots_cache st), delay, cache'. exact Hrobots.
Qed.

#[local] Abbreviation crawl_inv :=
  (Sitemap.crawl_inv urlparse urljoin py_float http_get html_links user_agent).

Lemma inv_init cache :
  crawl_inv c max_pages (mkFrontier {[ base_url c ]} ∅ [] cache).
Proof.
  constructor; cbn [to_crawl crawled results robots_cache fmap list_fmap].
  - constructor.
  - intros u. set_solver.
  - now rewrite size_empty.
  - rewrite size_empty. lia.
  - constructor.
  - intros u Hu. apply elem_of_singleton in Hu as ->.
    split; [constructor | now left].
  - set_solver.
  - left. split; [reflexivity | set_solver].
Qed.

Lemma inv_step st st' :
  crawl_inv c max_pages st → crawl_step c max_pages st = inl st' →
  crawl_inv c max_pages st'.
Proof.
  intros [Hnd Hcr Hlen Hbd Hrec Hfr Hcl Hseed] Hstep.
  pose proof (crawl_step_cases st) as Hcases. rewrite Hstep in Hcases.
  set (cur := set_pop (to_crawl st)) in *.
  destruct Hcases as (Hne & Hlt & Hcases).
  pose proof (set_pop_elem _ Hne) as Hcur. fold cur in Hcur.
  destruct Hcases as [(Ht & Hc & Hr & Hwhy) | (Hnew & Hok & Hfetch & Ht & Hc & Hr)].
  - constructor; rewrite ?Ht, ?Hc, ?Hr; try assumption.
    + intros u Hu. apply Hfr. set_solver.
    + intros u v Hu Hv. destruct (Hcl u v Hu Hv) as [H | [H | H]];
        [now left | | now right; right].
      destruct (decide (v = cur)) as [-> | Hneq].
      * destruct Hwhy as [H' | H']; [now left | now right; right].
      * right. left. set_solver.
    + destruct Hseed as [[Hnil Hsub] | Hrest]; [left | now right].
      split; [assumption | set_solver].
  - assert (Hcur_new : cur ∉ url <$> results st) by (now rewrite <- Hcr).
    constructor; rewrite ?Ht, ?Hc, ?Hr.
    + rewrite fmap_app. simpl. apply NoDup_app. split; [assumption |].
      split; [| apply NoDup_singleton].
      intros x Hx Hx'. apply list_elem_of_singleton in Hx' as ->. auto.
    + intros u. rewrite fmap_app, elem_of_app, elem_of_union, <- Hcr. simpl.
      rewrite list_elem_of_singleton, elem_of_singleton. tauto.
    + rewrite length_app, size_union, size_singleton by set_solver.
      simpl. lia.
    + rewrite size_union, size_singleton by set_solver. lia.
    + apply Forall_app. split; [assumption |]. constructor; [| constructor].
      destruct (Hfr _ Hcur) as [Hlinked Hdom].
      repeat split; assumption.
    + intros u Hu. apply elem_of_union in Hu as [Hu | Hu].
      * apply Hfr. set_solver.
      * apply elem_of_difference in Hu as [Hu _]. split.
        -- eapply linked_step; [apply (Hfr _ Hcur) | exact Hu].
        -- right. eapply links_of_same_domain; eauto.
    + intros u v Hu Hv.
      destruct (decide (v ∈ {[ cur ]} ∪ crawled st)) as [Hv' | Hv'];
        [now left |].
      apply elem_of_union in Hu as [Hu | Hu].
      * apply elem_of_singleton in Hu as ->. right. left. set_solver.
      * destruct (Hcl u v Hu Hv) as [H | [H | H]];
          [set_solver | | now right; right].
        right. left. set_solver.
    + right. destruct Hseed as [[Hnil Hsub] | [rest Hrest]].
      * exists []. rewrite Hnil. simpl. do 2 f_equal. set_solver.
      * exists (rest ++ [mkEntry cur None None None]). now rewrite Hrest.
Qed.

(** Either a page is added to [crawled], which stays below [max_pages],
    or the frontier loses an element and [crawled] is unchanged. *)
Lemma step_decreases st st' :
  crawl_step c max_pages st = inl st' →
  max_pages - size (crawled st') < max_pages - size (crawled st)
  ∨ (size (crawled st') = size (crawled st)
     ∧ size (to_crawl st') < size (to_crawl st)).
Proof.
  intros Hstep.
  pose proof (crawl_step_cases st) as Hcases. rewrite Hstep in Hcases.
  set (cur := set_pop (to_crawl st)) in *.
  destruct Hcases as (Hne & Hlt & Hcases).
  pose proof (set_pop_elem _ Hne) as Hcur. fold cur in Hcur.
  destruct Hcases as [(Ht & Hc & _) | (Hnew & _ & _ & _ & Hc & _)].
  - right. rewrite Ht, Hc. split; [reflexivity |].
    apply subset_size. set_solver.
  - left. rewrite Hc, size_union, size_singleton by set_solver. lia.
Qed.

Lemma crawl_loop_more_fuel fuel fuel' st out :
  crawl_loop fuel c max_pages st = Some out → fuel ≤ fuel' →
  crawl_loop fuel' c max_pages st = Some out.
Proof.
  revert fuel' st. induction fuel as [|fuel IH]; intros fuel' st; simpl.
  - discriminate.
  - intros H Hle. destruct fuel' as [|fuel']; [lia |]. simpl.
    destruct (crawl_step c max_pages st) as [st' | r]; [| exact H].
    apply IH; [exact H | lia].
Qed.

Lemma crawl_loop_terminates n : ∀ m st,
  max_pages - size (crawled st) = n → size (to_crawl st) = m →
  crawl_inv c max_pages st →
  ∃ fuel out,
    crawl_loop fuel c max_pages st = Some out
    ∧ ∀ st', out = Ok st' →
        crawl_inv c max_pages st'
        ∧ (to_crawl st' = ∅ ∨ max_pages ≤ size (crawled st')).
Proof.
  induction n as [n IHn] using lt_wf_ind.
  induction m as [m IHm] using lt_wf_ind.
  intros st Hn Hm Hinv.
  destruct (crawl_step c max_pages st) as [st1 | r] eqn:Hstep.
  - assert (∃ fuel out,
      crawl_loop fuel c max_pages st1 = Some out
      ∧ ∀ st', out = Ok st' →
          crawl_inv c max_pages st'
          ∧ (to_crawl st' = ∅ ∨ max_pages ≤ size (crawled st')))
      as (fuel & out & Hrun & Hout).
    { pose proof (inv_step _ _ Hinv Hstep) as Hinv1.
      destruct (step_decreases _ _ Hstep) as [Hlt | [Heq Hlt]].
      - eapply (IHn (max_pages - size (crawled st1))); eauto. lia.
      - eapply (IHm (size (to_crawl st1))); eauto; lia. }
    exists (S fuel), out. simpl. rewrite Hstep. split; assumption.
  - exists 1, r. simpl. rewrite Hstep. split; [reflexivity |].
    intros st' ->. pose proof (crawl_step_cases st) as Hcases.
    rewrite Hstep in Hcases. destruct Hcases as [-> Hend]. split; assumption.
Qed.

End Facts.

Lemma foldr_min_elem (x : string) (l : list string) :
  foldr (fun y m => if String.leb y m then y else m) x l ∈ x :: l.
Proof.
  induction l as [|y l IH]; simpl; [left |].
  destruct (String.leb y _); [right; left |].
  apply elem_of_cons in IH as [-> | IH]; [left | right; right; exact IH].
Qed.

Lemma pop_min_elem (s : gset string) : s ≠ ∅ → pop_min s ∈ s.
Proof.
  intros Hne. unfold pop_min. destruct (elements s) as [|x l] eqn:E.
  - apply elements_empty_inv in E. apply leibniz_equiv in E. contradiction.
  - apply elem_of_elements. rewrite E. apply foldr_min_elem.
Qed.




End LinkCrawlProps.

(** ** crawler_manager.py *)

Module ManagerProps.
Import Extractor Manager Demo.

(** *** Assignments to a job object *)

Lemma alter_lookup {A} (f : A → A) (l : list A) (r : nat) (x : A) :
  l !! r = Some x → alter f r l = <[r := f x]> l.
Proof.
  revert r. induction l as [|y l IH]; intros [|r] H; simpl in *;
    try discriminate.
  - now injection H as ->.
  - f_equal. now apply IH.
Qed.

Lemma heap_update_job r f w j :
  heap w !! r = Some j → heap (update_job r f w) = <[r := f j]> (heap w).
Proof. intros H. unfold update_job. simpl. now apply alter_lookup. Qed.

Lemma lookup_update_job r f w j :
  heap w !! r = Some j → heap (update_job r f w) !! r = Some (f j).
Proof.
  intros H. rewrite (heap_update_job _ _ _ _ H).
  apply list_lookup_insert_eq. eapply lookup_lt_Some; eauto.
Qed.

Lemma get_job_Some w id r j :
  get_job w id = Some (r, j) → jobs w !! id = Some r ∧ heap w !! r = Some j.
Proof.
  unfold get_job. destruct (jobs w !! id) as [r'|]; [| discriminate].
  destruct (heap w !! r') as [j'|] eqn:E; [| discriminate].
  intros [= <- <-]. split; [reflexivity | exact E].
Qed.

(** *** [start_job] *)

(** The world [start_job] leaves when it admits the job [j] at [r]. *)
Definition started (now : nat) (id : string) (r : nat) (j : CrawlerJob)
  (w : World) : World :=
  let j' := set_start_time now (set_status "running" j) in
  mkWorld (<[r := j']> (heap w)) (jobs w) ({[ id ]} ∪ active_jobs w)
          (max_concurrent_jobs w)
          (tasks w ++ [mkTask RunJob r Created false])
          (<[job_id j := j']> (job_files w)) (content_files w) (pages w)
          (hash_seed w) (checkpoints w ++ [j']) (requested w).

Lemma start_job_admits now id w r j :
  get_job w id = Some (r, j) →
  status j ≠ "running" →
  size (active_jobs w) < max_concurrent_jobs w →
  start_job now id w = (Ok true, started now id r j w).
Proof.
  intros Hget Hst Hcap. unfold start_job. rewrite Hget.
  apply get_job_Some in Hget as [_ Hheap].
  apply String.eqb_neq in Hst. rewrite Hst.
  apply Nat.leb_gt in Hcap. rewrite Hcap.
  destruct w as [h js act mx ts jf cf pg seed cps req]. simpl in *.
  pose proof (lookup_lt_Some _ _ _ Hheap) as Hlt.
  unfold _save_job_metadata, started, create_task. simpl.
  rewrite (alter_lookup _ _ _ _ Hheap).
  erewrite alter_lookup by (now apply list_lookup_insert_eq).
  rewrite list_insert_insert_eq, list_lookup_insert_eq by assumption.
  reflexivity.
Qed.

(** C4.  [start_job] returns [False] and changes nothing when the id is
    unknown, when the job's status is ["running"], and when the number of
    active jobs has reached [max_concurrent_jobs], which is [3] for a new
    manager.  Otherwise it returns [True]: the job is ["running"] with
    [start_time] set, all its counters as they were, the id is in the
    active set, the record is written, and the pipeline is a task that has
    only been created: nothing of it has run. *)
Theorem start_job_admission (now : nat) (id : string) (w : World) :
  max_concurrent_jobs init_world = 3
  ∧ (get_job w id = None → start_job now id w = (Ok false, w))
  ∧ (∀ r j, get_job w id = Some (r, j) →
       status j = "running"
       ∨ max_concurrent_jobs w ≤ size (active_jobs w) →
       start_job now id w = (Ok false, w))
  ∧ (∀ r j, get_job w id = Some (r, j) →
       status j ≠ "running" →
       size (active_jobs w) < max_concurrent_jobs w →
       ∃ j',
         start_job now id w = (Ok true, started now id r j w)
         ∧ heap (started now id r j w) !! r = Some j'
         ∧ status j' = "running"
         ∧ start_time j' = Some now
         ∧ id ∈ active_jobs (started now id r j w)
         ∧ (total_urls j', processed_urls j', successful_urls j',
            failed_urls j', errors j', end_time j')
           = (total_urls j, processed_urls j, successful_urls j,
              failed_urls j, errors j, end_time j)
         ∧ tasks (started now id r j w)
           = tasks w ++ [mkTask RunJob r Created false]).
Proof.
  split; [reflexivity |]. split; [| split].
  - intros Hget. unfold start_job. now rewrite Hget.
  - intros r j Hget Hwhy. unfold start_job. rewrite Hget.
    destruct (String.eqb (status j) "running") eqn:Hst; [reflexivity |].
    destruct Hwhy as [Hrun | Hcap].
    + apply String.eqb_neq in Hst. contradiction.
    + apply Nat.leb_le in Hcap. now rewrite Hcap.
  - intros r j Hget Hst Hcap.
    exists (set_start_time now (set_status "running" j)).
    split; [now apply start_job_admits |].
    apply get_job_Some in Hget as [_ Hheap].
    split; [| repeat split; set_solver].
    unfold started. cbn [heap]. apply list_lookup_insert_eq.
    eapply lookup_lt_Some; eauto.
Qed.

Lemma start_job_admission_witness :
  start_job 2 "j1" (create_job "j1" 7 "https://x.test" None init_world).2
  = (Ok true,
     started 2 "j1" 0 (new_job "j1" 7 "https://x.test" None)
       (create_job "j1" 7 "https://x.test" None init_world).2).
Proof.
  destruct (start_job_admission 2 "j1"
              (create_job "j1" 7 "https://x.test" None init_world).2)
    as (_ & _ & _ & H).
  destruct (H 0 (new_job "j1" 7 "https://x.test" None))
    as (j' & Hrun & _); [reflexivity | discriminate | vm_compute; lia |].
  exact Hrun.
Defined.

(** *** [stop_job] *)

Lemma stop_job_refuses now id w :
  get_job w id = None
  ∨ (∃ r j, get_job w id = Some (r, j) ∧ status j ≠ "running") →
  stop_job now id w = (Ok false, w).
Proof.
  unfold stop_job. intros [H | (r & j & H & Hst)]; rewrite H; [reflexivity |].
  apply String.eqb_neq in Hst. now rewrite Hst.
Qed.

Lemma stop_job_stops now id w r j :
  get_job w id = Some (r, j) → status j = "running" → id ∈ active_jobs w →
  ∃ w', stop_job now id w = (Ok true, w')
        ∧ heap w' !! r = Some (set_end_time now (set_status "stopped" j))
        ∧ active_jobs w' = active_jobs w ∖ {[ id ]}
        ∧ job_files w' !! job_id j
          = Some (set_end_time now (set_status "stopped" j)).
Proof.
  intros Hget Hst Hact. unfold stop_job. rewrite Hget, Hst.
  apply get_job_Some in Hget as [_ Hheap].
  destruct w as [h js act mx ts jf cf pg seed cps req]. simpl in *.
  pose proof (lookup_lt_Some _ _ _ Hheap) as Hlt.
  rewrite bool_decide_eq_true_2 by assumption.
  eexists. split; [reflexivity |].
  unfold _save_job_metadata. simpl.
  rewrite (alter_lookup _ _ _ _ Hheap).
  erewrite alter_lookup by (now apply list_lookup_insert_eq).
  rewrite list_insert_insert_eq, list_lookup_insert_eq by assumption.
  simpl. rewrite list_lookup_insert_eq by assumption.
  repeat split. apply lookup_insert_eq.
Qed.

(** A running job whose id is not in the active set: [set.remove] raises
    after the status and the end time were assigned, and before the record
    is written. *)
Lemma stop_job_key_error now id w r j :
  get_job w id = Some (r, j) → status j = "running" → id ∉ active_jobs w →
  ∃ w', stop_job now id w = (Raise KeyError, w')
        ∧ heap w' !! r = Some (set_end_time now (set_status "stopped" j))
        ∧ job_files w' = job_files w.
Proof.
  intros Hget Hst Hact. unfold stop_job. rewrite Hget, Hst.
  apply get_job_Some in Hget as [_ Hheap].
  destruct w as [h js act mx ts jf cf pg seed cps req]. simpl in *.
  pose proof (lookup_lt_Some _ _ _ Hheap) as Hlt.
  rewrite bool_decide_eq_false_2 by assumption.
  eexists. split; [reflexivity |]. simpl.
  rewrite (alter_lookup _ _ _ _ Hheap).
  erewrite alter_lookup by (now apply list_lookup_insert_eq).
  rewrite list_insert_insert_eq, list_lookup_insert_eq by assumption.
  split; reflexivity.
Qed.

(** C3, on the code.  A job is created and started, the process restarts
    and [load_jobs] brings the job back with the status ["running"]; its
    id is not in the active set of the new manager.  [stop_job] then
    raises [KeyError] instead of returning [True]: the job object is
    already ["stopped"] with its end time set, while the record on disk
    still says ["running"]. *)
Theorem stop_job_raises_after_restart
  (py_hash : nat → string → Z)
  (remove_boilerplate : string → string)
  (extract_structured_content : string → result pyval)
  (extract_metadata : string → string → result dict)
  (combine_content : pyval → string)
  (clean_text : string → string) :
  ∃ w,
    w = run py_hash remove_boilerplate extract_structured_content
            extract_metadata combine_content clean_text
            [ (1, CreateJob "j1" 7 "https://x.test" None);
              (2, StartJob "j1");
              (3, Restart 1);
              (4, LoadJobs) ] init_world
    ∧ (status <$> (snd <$> get_job w "j1")) = Some "running"
    ∧ elements (active_jobs w) = []
    ∧ (stop_job 5 "j1" w).1 = Raise KeyError
    ∧ (status <$> (snd <$> get_job (stop_job 5 "j1" w).2 "j1"))
      = Some "stopped"
    ∧ (end_time <$> (snd <$> get_job (stop_job 5 "j1" w).2 "j1"))
      = Some (Some 5)
    ∧ (status <$> job_files (stop_job 5 "j1" w).2 !! "j1") = Some "running".
Proof.
  eexists. split; [reflexivity |].
  repeat split; vm_compute; reflexivity.
Qed.

(** *** [_save_content] *)

(** C2, on the code.  The dictionary [extract_from_url] builds for a
    fetched page holds the cleaned text under ["text"] and has no key
    ["content"].  [_save_content] writes [content.get("content")] to the
    page: on a first crawl the page is created with the content [None],
    and on a second crawl the same row, with the same id, is updated, its
    content [None] again; the cleaned text never reaches the page. *)
Theorem save_content_loses_text
  (py_hash : nat → string → Z)
  (http_get : string → option string)
  (remove_boilerplate : string → string)
  (extract_structured_content : string → result pyval)
  (extract_metadata : string → string → result dict)
  (combine_content : pyval → string)
  (clean_text : string → string)
  (wid : Z) (u : string) (now now' : nat) (w : World) :
  match extract_from_url http_get remove_boilerplate
          extract_structured_content extract_metadata combine_content
          clean_text u with
  | Raise _ => True
  | Ok doc =>
      dict_has "error" doc = true
      ∨ ((∃ clean, dict_lookup "text" doc = Some (PStr clean))
         ∧ dict_lookup "content" doc = None
         ∧ ∃ t,
             let w1 := _save_content py_hash (mkIO true true) wid doc now
                         (set_pages [] w) in
             let w2 := _save_content py_hash (mkIO true true) wid doc now'
                         w1 in
             pages w1 = [mkPage 1 u t PNone wid (Some now) false]
             ∧ pages w2 = [mkPage 1 u t PNone wid (Some now') false]
             ∧ (content_files w1 !! wid ≫= lookup (py_hash (hash_seed w) u))
               = Some doc)
  end.
Proof.
  unfold extract_from_url.
  destruct (http_get u) as [html|]; [| now left].
  destruct (negb (truthy html)); [now left |].
  destruct (extract_structured_content _) as [sc|e]; simpl; [| exact I].
  destruct (extract_metadata html u) as [md|e]; simpl; [| exact I].
  right. split; [eexists; reflexivity |]. split; [reflexivity |].
  exists (dict_get_default "title" md (PStr "")).
  unfold _save_content, upsert_page, page_create, page_update, get_by_url,
    dict_get. simpl. rewrite String.eqb_refl. simpl.
  repeat split. rewrite lookup_insert_eq. simpl. apply lookup_insert_eq.
Qed.

(** The page of the sample site: its cleaned text is extracted, and the
    row created for it has no content. *)
Lemma save_content_loses_text_witness :
  ∃ doc t,
      extract_from_url Demo.demo_online Demo.demo_boilerplate
        Demo.demo_structured Demo.demo_metadata Demo.demo_combine
        Demo.demo_clean "https://x.test/a" = Ok doc
      ∧ dict_lookup "text" doc = Some (PStr "A paragraph of the page.")
      ∧ pages (_save_content Demo.demo_hash (mkIO true true) 7 doc 1
                 (set_pages [] init_world))
        = [mkPage 1 "https://x.test/a" t PNone 7 (Some 1) false].
Proof.
  pose proof (save_content_loses_text Demo.demo_hash Demo.demo_online
                Demo.demo_boilerplate Demo.demo_structured
                Demo.demo_metadata Demo.demo_combine Demo.demo_clean 7
                "https://x.test/a" 1 2 init_world) as H.
  destruct (extract_from_url Demo.demo_online Demo.demo_boilerplate
              Demo.demo_structured Demo.demo_metadata Demo.demo_combine
              Demo.demo_clean "https://x.test/a") as [doc|e] eqn:E;
    [| discriminate E].
  injection E as <-.
  destruct H as [H | (_ & _ & t & H1 & _)]; [discriminate H |].
  eexists _, t. split; [reflexivity |]. split; [reflexivity | exact H1].
Defined.

End ManagerProps.

(** *** The counters of a job *)

Module CounterProps.
Import Extractor Manager Demo.

Create HintDb wc discriminated.

Lemma consistent_set_status s j : consistent j → consistent (set_status s j).
Proof. exact id. Qed.
Lemma consistent_set_start_time t j :
  consistent j → consistent (set_start_time t j).
Proof. exact id. Qed.
Lemma consistent_set_end_time t j :
  consistent j → consistent (set_end_time t j).
Proof. exact id. Qed.
Lemma consistent_set_total_urls n j :
  consistent j → consistent (set_total_urls n j).
Proof. exact id. Qed.
Lemma consistent_append_error msg j :
  consistent j → consistent (append_error msg j).
Proof. exact id. Qed.
Lemma consistent_record_failure msg j :
  consistent j → consistent (record_failure msg j).
Proof. unfold consistent. simpl. lia. Qed.
Lemma consistent_record_success j :
  consistent j → consistent (record_success j).
Proof. unfold consistent. simpl. lia. Qed.
Lemma consistent_new_job id wid wurl smap :
  consistent (new_job id wid wurl smap).
Proof. reflexivity. Qed.

#[local] Hint Resolve consistent_set_status consistent_set_start_time
  consistent_set_end_time consistent_set_total_urls consistent_append_error
  consistent_record_failure consistent_record_success consistent_new_job : wc.

Lemma wc_update_job r f w :
  (∀ j, consistent j → consistent (f j)) →
  world_consistent w → world_consistent (update_job r f w).
Proof.
  intros Hf (Hh & Hf' & Hc). repeat split; try assumption.
  simpl. apply Forall_alter; [assumption | auto].
Qed.

Lemma wc_save r w :
  world_consistent w → world_consistent (_save_job_metadata r w).
Proof.
  intros (Hh & Hf & Hc). unfold _save_job_metadata.
  destruct (heap w !! r) as [j|] eqn:E; [| repeat split; assumption].
  pose proof (Forall_lookup_1 _ _ _ _ Hh E) as Hj.
  repeat split; simpl; [assumption | | ].
  - now apply map_Forall_insert_2.
  - apply Forall_app. split; [assumption | now constructor].
Qed.

Lemma wc_set_jobs m w : world_consistent w → world_consistent (set_jobs m w).
Proof. exact id. Qed.
Lemma wc_set_active_jobs a w :
  world_consistent w → world_consistent (set_active_jobs a w).
Proof. exact id. Qed.
Lemma wc_set_tasks ts w :
  world_consistent w → world_consistent (set_tasks ts w).
Proof. exact id. Qed.
Lemma wc_set_content_files c w :
  world_consistent w → world_consistent (set_content_files c w).
Proof. exact id. Qed.
Lemma wc_set_pages p w :
  world_consistent w → world_consistent (set_pages p w).
Proof. exact id. Qed.
Lemma wc_log_request b w :
  world_consistent w → world_consistent (log_request b w).
Proof. exact id. Qed.
Lemma wc_create_task e r w :
  world_consistent w → world_consistent (create_task e r w).
Proof. exact id. Qed.

Lemma wc_add_object j w :
  consistent j → world_consistent w →
  world_consistent (set_heap (heap w ++ [j]) w).
Proof.
  intros Hj (Hh & Hf & Hc). repeat split; try assumption.
  simpl. apply Forall_app. split; [assumption | now constructor].
Qed.

#[local] Hint Resolve wc_update_job wc_save wc_set_jobs wc_set_active_jobs
  wc_set_tasks wc_set_content_files wc_set_pages wc_log_request
  wc_create_task wc_add_object : wc.

Lemma wc_init : world_consistent init_world.
Proof. repeat split; simpl; try constructor. apply map_Forall_empty. Qed.

Lemma wc_create_job id wid wurl smap w :
  world_consistent w → world_consistent (create_job id wid wurl smap w).2.
Proof. intros H. unfold create_job. simpl. auto with wc. Qed.

Lemma wc_start_job now id w :
  world_consistent w → world_consistent (start_job now id w).2.
Proof.
  intros H. unfold start_job.
  destruct (get_job w id) as [[r j]|]; [| exact H].
  destruct (String.eqb _ _); [exact H |].
  destruct (_ <=? _); [exact H |]. simpl. auto 10 with wc.
Qed.

Lemma wc_stop_job now id w :
  world_consistent w → world_consistent (stop_job now id w).2.
Proof.
  intros H. unfold stop_job.
  destruct (get_job w id) as [[r j]|]; [| exact H].
  destruct (negb _); [exact H |].
  case_bool_decide; simpl; auto 10 with wc.
Qed.

Lemma wc_resume_job id w :
  world_consistent w → world_consistent (resume_job id w).2.
Proof.
  intros H. unfold resume_job.
  destruct (get_job w id) as [[r j]|]; [| exact H].
  destruct (negb _); [exact H |].
  destruct (_ <=? _); [exact H |]. simpl. auto 10 with wc.
Qed.

Lemma wc_load_files files : ∀ w,
  Forall (fun f => consistent f.2) files →
  world_consistent w → world_consistent (foldl load_one w files).
Proof.
  induction files as [|f files IH]; intros w Hall H; simpl; [exact H |].
  apply Forall_cons in Hall as [Hf Hall].
  apply IH; [assumption |]. unfold load_one. auto with wc.
Qed.

Lemma wc_load_jobs w : world_consistent w → world_consistent (load_jobs w).
Proof.
  intros H. unfold load_jobs. apply wc_load_files; [| exact H].
  destruct H as (_ & Hf & _). apply Forall_forall. intros [id j] Hin.
  apply elem_of_map_to_list in Hin. exact (Hf _ _ Hin).
Qed.

Lemma wc_restart seed w :
  world_consistent w → world_consistent (restart seed w).
Proof.
  intros (Hh & Hf & Hc). repeat split; try assumption. constructor.
Qed.

Section Pipeline.

Variable py_hash : nat → string → Z.
Variable remove_boilerplate : string → string.
Variable extract_structured_content : string → result pyval.
Variable extract_metadata : string → string → result dict.
Variable combine_content : pyval → string.
Variable clean_text : string → string.

#[local] Abbreviation _save_content := (Manager._save_content py_hash).
#[local] Abbreviation task_step :=
  (Manager.task_step py_hash remove_boilerplate extract_structured_content
                     extract_metadata combine_content clean_text).
#[local] Abbreviation perform :=
  (Manager.perform py_hash remove_boilerplate extract_structured_content
                   extract_metadata combine_content clean_text).
#[local] Abbreviation run :=
  (Manager.run py_hash remove_boilerplate extract_structured_content
               extract_metadata combine_content clean_text).

Lemma wc_save_content io wid doc now w :
  world_consistent w → world_consistent (_save_content io wid doc now w).
Proof.
  intros H. unfold Manager._save_content.
  destruct (dict_lookup "url" doc) as [[| u | | |]|]; try exact H.
  destruct (disk_ok io); [| exact H].
  destruct (db_ok io); auto with wc.
Qed.

Lemma wc_finally_block r w :
  world_consistent w → world_consistent (finally_block r w).
Proof.
  intros H. unfold finally_block.
  destruct (heap w !! r); [| exact H].
  case_bool_decide; auto with wc.
Qed.

Lemma wc_leave t w : world_consistent w → world_consistent (leave t w).2.
Proof.
  intros H. unfold leave. simpl.
  destruct (nested t); auto using wc_finally_block.
Qed.

Lemma wc_complete now t w :
  world_consistent w → world_consistent (complete now t w).2.
Proof.
  intros H. unfold complete. apply wc_leave.
  destruct (is_running _ _); auto with wc.
Qed.

Lemma wc_fail now msg t w :
  world_consistent w → world_consistent (fail now msg t w).2.
Proof. intros H. unfold fail. apply wc_leave. auto 10 with wc. Qed.

Lemma wc_batch_loop now urls i t w :
  world_consistent w → world_consistent (batch_loop now urls i t w).2.
Proof.
  intros H. unfold batch_loop.
  destruct (i <? length urls); [| now apply wc_complete].
  destruct (negb _); [now apply wc_complete | simpl; auto with wc].
Qed.

Lemma wc_results_loop now urls i rs t : ∀ w,
  world_consistent w → world_consistent (results_loop now urls i rs t w).2.
Proof.
  induction rs as [|r rs IH]; intros w H; simpl.
  - now apply wc_batch_loop.
  - destruct (negb _); [now apply wc_batch_loop |].
    destruct (dict_has "error" r); [| exact H].
    apply IH. auto with wc.
Qed.

Lemma wc_task_step now ev t w :
  world_consistent w → world_consistent (task_step now ev t w).2.
Proof.
  intros H. unfold Manager.task_step.
  destruct (at_pc t) as [| seen | urls i | urls i r rest |]; destruct ev;
    try exact H.
  - destruct (entry t); [exact H |].
    destruct (heap w !! job_ref t); [| exact H].
    destruct (0 <? _); exact H.
  - destruct r as [urls_data | e]; [| now apply wc_fail].
    destruct seen; apply wc_batch_loop; auto with wc.
  - destruct (extract_from_urls _ _ _ _ _ _ _);
      [now apply wc_results_loop | now apply wc_fail].
  - apply wc_results_loop. auto using wc_save_content with wc.
Qed.

Lemma wc_perform now a w :
  world_consistent w → world_consistent (perform now a w).
Proof.
  intros H. destruct a; simpl.
  - now apply wc_create_job.
  - now apply wc_start_job.
  - now apply wc_stop_job.
  - now apply wc_resume_job.
  - now apply wc_load_jobs.
  - now apply wc_restart.
  - destruct (tasks w !! k) as [t|]; [| exact H].
    pose proof (wc_task_step now ev t w H) as H'.
    destruct (task_step now ev t w) as [t' w']. exact H'.
Qed.

Lemma wc_run history : ∀ w,
  world_consistent w → world_consistent (run history w).
Proof.
  induction history as [|[now a] history IH]; intros w H; simpl;
    [exact H |].
  apply IH. now apply wc_perform.
Qed.

End Pipeline.

(** C1.  Whatever the manager is asked to do and however the steps of its
    tasks interleave, from a new manager on an empty storage directory and
    across restarts: every job object, every record of the jobs directory
    and every record ever written by a checkpoint has
    [processed_urls = successful_urls + failed_urls].  A completed URL
    attempt adds one to [processed_urls] and one to exactly one of
    [failed_urls] and [successful_urls]. *)
Theorem processed_is_successful_plus_failed
  (py_hash : nat → string → Z)
  (remove_boilerplate : string → string)
  (extract_structured_content : string → result pyval)
  (extract_metadata : string → string → result dict)
  (combine_content : pyval → string)
  (clean_text : string → string)
  (history : list (nat * action)) :
  world_consistent
    (run py_hash remove_boilerplate extract_structured_content
         extract_metadata combine_content clean_text history init_world)
  ∧ (∀ msg j,
       processed_urls (record_failure msg j) = S (processed_urls j)
       ∧ failed_urls (record_failure msg j) = S (failed_urls j)
       ∧ successful_urls (record_failure msg j) = successful_urls j)
  ∧ (∀ j,
       processed_urls (record_success j) = S (processed_urls j)
       ∧ successful_urls (record_success j) = S (successful_urls j)
       ∧ failed_urls (record_success j) = failed_urls j).
Proof.
  split; [| split; intros; repeat split].
  apply wc_run, wc_init.
Qed.

(** The records written while two pipelines handle the same job. *)
Lemma processed_is_successful_plus_failed_witness :
  Forall consistent (checkpoints (Demo.demo_run Demo.history_raced))
  ∧ length (checkpoints (Demo.demo_run Demo.history_raced)) = 10.
Proof.
  split; [| reflexivity].
  destruct (processed_is_successful_plus_failed Demo.demo_hash
              Demo.demo_boilerplate Demo.demo_structured Demo.demo_metadata
              Demo.demo_combine Demo.demo_clean Demo.history_raced)
    as [(_ & _ & H) _].
  exact H.
Defined.

End CounterProps.

(** *** A pipeline task that runs alone *)

Module ResumeProps.
Import ManagerProps.
Import Extractor Manager Demo.

Lemma heap_save r w : heap (_save_job_metadata r w) = heap w.
Proof. unfold _save_job_metadata. now destruct (heap w !! r). Qed.

Lemma requested_save r w : requested (_save_job_metadata r w) = requested w.
Proof. unfold _save_job_metadata. now destruct (heap w !! r). Qed.

Lemma content_files_save r w :
  content_files (_save_job_metadata r w) = content_files w.
Proof. unfold _save_job_metadata. now destruct (heap w !! r). Qed.

Lemma heap_finally r w : heap (finally_block r w) = heap w.
Proof.
  unfold finally_block. destruct (heap w !! r) as [j|] eqn:E; [| reflexivity].
  rewrite heap_save. now case_bool_decide.
Qed.

Lemma requested_finally r w : requested (finally_block r w) = requested w.
Proof.
  unfold finally_block. destruct (heap w !! r) as [j|] eqn:E; [| reflexivity].
  rewrite requested_save. now case_bool_decide.
Qed.

Lemma heap_leave t w : heap (leave t w).2 = heap w.
Proof.
  unfold leave. simpl. destruct (nested t); now rewrite ?heap_finally.
Qed.

Lemma requested_leave t w : requested (leave t w).2 = requested w.
Proof.
  unfold leave. simpl. destruct (nested t); now rewrite ?requested_finally.
Qed.

Lemma is_running_true r w j :
  heap w !! r = Some j → status j = "running" → is_running r w = true.
Proof. intros H Hs. unfold is_running. now rewrite H, Hs. Qed.

Lemma length_batch_at urls i :
  length (batch_at urls i) = min 10 (length urls - i).
Proof. unfold batch_at. now rewrite length_take, length_drop. Qed.

Section Alone.

Variable py_hash : nat → string → Z.
Variable remove_boilerplate : string → string.
Variable extract_structured_content : string → result pyval.
Variable extract_metadata : string → string → result dict.
Variable combine_content : pyval → string.
Variable clean_text : string → string.

#[local] Abbreviation extract_from_url web :=
  (Extractor.extract_from_url web remove_boilerplate
     extract_structured_content extract_metadata combine_content clean_text).
#[local] Abbreviation extract_from_urls web :=
  (Extractor.extract_from_urls web remove_boilerplate
     extract_structured_content extract_metadata combine_content clean_text).
#[local] Abbreviation _save_content := (Manager._save_content py_hash).
#[local] Abbreviation stored_urls := (Manager.stored_urls).
#[local] Abbreviation task_step :=
  (Manager.task_step py_hash remove_boilerplate extract_structured_content
                     extract_metadata combine_content clean_text).
#[local] Abbreviation run_alone :=
  (Manager.run_alone py_hash remove_boilerplate extract_structured_content
                     extract_metadata combine_content clean_text).

Lemma heap_save_content io wid doc now w :
  heap (_save_content io wid doc now w) = heap w.
Proof.
  unfold Manager._save_content.
  destruct (dict_lookup "url" doc) as [[| u | | |]|]; try reflexivity.
  destruct (disk_ok io); [| reflexivity]. now destruct (db_ok io).
Qed.

Lemma requested_save_content io wid doc now w :
  requested (_save_content io wid doc now w) = requested w.
Proof.
  unfold Manager._save_content.
  destruct (dict_lookup "url" doc) as [[| u | | |]|]; try reflexivity.
  destruct (disk_ok io); [| reflexivity]. now destruct (db_ok io).
Qed.

Lemma extract_from_urls_total web :
  (∀ u, ∃ doc, extract_from_url web u = Ok doc) →
  ∀ l, ∃ rs, extract_from_urls web l = Ok rs ∧ length rs = length l.
Proof.
  intros Hall. induction l as [|u l (rs & Hrs & Hlen)]; simpl.
  - now exists [].
  - destruct (Hall u) as [doc Hdoc]. rewrite Hdoc, Hrs. simpl.
    exists (doc :: rs). split; [reflexivity | simpl; now rewrite Hlen].
Qed.

Variable now : nat.
Variable crawled : result (list Sitemap.UrlEntry).
Variable web : string → option string.
Variable io : save_io.

Hypothesis extractor_total : ∀ u, ∃ doc, extract_from_url web u = Ok doc.

(** The job object of the task, its counters when the loop is entered, the
    URLs of the loop and the requests made before it. *)
Variable r : nat.
Variable urls : list string.
Variable req0 : list string.
Variable p0 s0 f0 total : nat.

(** The job is running, [d] URLs of the loop are handled. *)
Definition in_loop (d : nat) (w : World) : Prop :=
  ∃ j, heap w !! r = Some j ∧ status j = "running"
       ∧ processed_urls j = p0 + d ∧ total_urls j = total
       ∧ s0 ≤ successful_urls j ∧ f0 ≤ failed_urls j.

(** The task is over: every URL was requested once and handled. *)
Definition loop_done (tw : task * World) : Prop :=
  at_pc tw.1 = Finished
  ∧ requested tw.2 = req0 ++ urls
  ∧ ∃ j, heap tw.2 !! r = Some j ∧ status j = "completed"
         ∧ processed_urls j = p0 + length urls ∧ total_urls j = total
         ∧ s0 ≤ successful_urls j ∧ f0 ≤ failed_urls j.

Lemma complete_done t w :
  job_ref t = r → in_loop (length urls) w → requested w = req0 ++ urls →
  loop_done (complete now t w).
Proof.
  intros Hr (j & Hj & Hs & Hp & Ht & Hsucc & Hfail) Hreq.
  unfold complete. rewrite Hr, (is_running_true _ _ _ Hj Hs).
  split; [reflexivity |]. split.
  - now rewrite requested_leave.
  - rewrite heap_leave.
    exists (set_end_time now (set_status "completed" j)).
    split; [| repeat split; assumption].
    apply lookup_update_job. now apply lookup_update_job.
Qed.

Lemma run_alone_Finished fuel tw :
  at_pc tw.1 = Finished → run_alone fuel now crawled web io tw = tw.
Proof. intros H. destruct fuel; simpl; [reflexivity | now rewrite H]. Qed.

Lemma loop_finishes m : ∀ i t w,
  length urls - i = m →
  job_ref t = r →
  in_loop (min i (length urls)) w →
  requested w = req0 ++ take i urls →
  ∃ fuel,
    loop_done (run_alone fuel now crawled web io (batch_loop now urls i t w)).
Proof.
  induction m as [m IH] using lt_wf_ind. intros i t w Hm Hr Hin Hreq.
  unfold batch_loop. destruct (i <? length urls) eqn:Hi.
  2:{ apply Nat.ltb_ge in Hi. exists 0. simpl. apply complete_done.
      - exact Hr.
      - now rewrite Nat.min_r in Hin.
      - now rewrite take_ge in Hreq. }
  apply Nat.ltb_lt in Hi. rewrite Nat.min_l in Hin by lia.
  destruct Hin as (j & Hj & Hs & Hp & Ht & Hsucc & Hfail).
  rewrite Hr, (is_running_true _ _ _ Hj Hs). cbn [negb].
  destruct (extract_from_urls_total web extractor_total (batch_at urls i))
    as (rs & Hrs & Hlen).
  rewrite length_batch_at in Hlen.
  (* the loop over the results of the batch *)
  assert (Hres : ∀ rs t' w' d,
    job_ref t' = r → in_loop d w' →
    d + length rs = min (i + 10) (length urls) →
    requested w' = req0 ++ take (i + 10) urls →
    ∃ fuel,
      loop_done (run_alone fuel now crawled web io
                   (results_loop now urls i rs t' w'))).
  { clear rs Hrs Hlen. induction rs as [|res rs IHrs];
      intros t' w' d Hr' Hin' Hd Hreq'; simpl.
    - simpl in Hd. apply (IH (length urls - (i + 10))); try lia;
        try assumption. now rewrite <- Hd, Nat.add_0_r.
    - destruct Hin' as (j' & Hj' & Hs' & Hp' & Ht' & Hsucc' & Hfail').
      rewrite Hr', (is_running_true _ _ _ Hj' Hs'). cbn [negb].
      simpl in Hd.
      destruct (dict_has "error" res).
      + apply (IHrs _ _ (S d)); [exact Hr' | | lia |].
        * eexists. rewrite heap_save. split;
            [apply lookup_update_job; exact Hj' |].
          simpl. repeat split; try assumption; lia.
        * now rewrite requested_save.
      + set (t1 := mkTask (Manager.entry t') r (AwaitSave urls i res rs)
                          (nested t')).
        destruct (IHrs t1
                    (_save_job_metadata r
                       (update_job r record_success
                          (_save_content io (job_website_id r w') res now
                                         w')))
                    (S d)) as [fuel Hdone]; [reflexivity | | lia | |].
        * eexists. rewrite heap_save. split.
          -- apply lookup_update_job. rewrite heap_save_content. exact Hj'.
          -- simpl. repeat split; try assumption; lia.
        * rewrite requested_save. simpl. now rewrite requested_save_content.
        * exists (S fuel). simpl. exact Hdone. }
  destruct (Hres rs
              (mkTask (Manager.entry t) r (AwaitExtract urls i) (nested t))
              (log_request (batch_at urls i) w) i)
    as [fuel Hdone]; [reflexivity | | lia | |].
  - exists j. repeat split; assumption.
  - simpl. rewrite Hreq, <- app_assoc. f_equal. unfold batch_at.
    apply take_take_drop.
  - exists (S fuel). simpl. unfold Manager.task_step.
    cbn [at_pc job_ref]. rewrite Hrs. exact Hdone.
Qed.

End Alone.

(** *** [resume_job] *)

Lemma resume_job_refuses id w :
  get_job w id = None
  ∨ (∃ r j, get_job w id = Some (r, j)
            ∧ ((status j ≠ "failed" ∧ status j ≠ "stopped")
               ∨ max_concurrent_jobs w ≤ size (active_jobs w))) →
  resume_job id w = (Ok false, w).
Proof.
  unfold resume_job. intros [H | (r & j & H & Hwhy)]; rewrite H;
    [reflexivity |].
  destruct (negb _) eqn:Hst; [reflexivity |].
  destruct Hwhy as [[Hf Hs] | Hcap].
  - apply String.eqb_neq in Hf, Hs. now rewrite Hf, Hs in Hst.
  - apply Nat.leb_le in Hcap. now rewrite Hcap.
Qed.

Lemma resume_job_admits id w r j :
  get_job w id = Some (r, j) →
  status j = "failed" ∨ status j = "stopped" →
  size (active_jobs w) < max_concurrent_jobs w →
  resume_job id w = (Ok true, resumed id r j w).
Proof.
  intros Hget Hst Hcap. unfold resume_job. rewrite Hget.
  apply get_job_Some in Hget as [_ Hheap].
  assert (Hs : negb (String.eqb (status j) "failed"
                     || String.eqb (status j) "stopped") = false).
  { destruct Hst as [-> | ->]; reflexivity. }
  rewrite Hs. apply Nat.leb_gt in Hcap. rewrite Hcap.
  destruct w as [h js act mx ts jf cf pg seed cps req]. simpl in *.
  pose proof (lookup_lt_Some _ _ _ Hheap) as Hlt.
  unfold _save_job_metadata, resumed, create_task. simpl.
  rewrite (alter_lookup _ _ _ _ Hheap).
  rewrite list_lookup_insert_eq by assumption. reflexivity.
Qed.

Lemma elem_of_stored_urls wid u w :
  u ∈ stored_urls wid w ↔ has_record wid u w.
Proof.
  unfold stored_urls, has_record.
  destruct (content_files w !! wid) as [dir|] eqn:E.
  - rewrite elem_of_list_to_set, list_elem_of_omap. split.
    + intros (doc & Hin & Hu). apply list_elem_of_fmap in Hin
        as ([file doc'] & -> & Hin). apply elem_of_map_to_list in Hin.
      exists dir, file, doc'. repeat split; try assumption.
      unfold url_of_doc in Hu. simpl in Hu.
      destruct (dict_lookup "url" doc') as [[| u' | | |]|]; congruence.
    + intros (dir' & file & doc & [= <-] & Hdoc & Hu).
      exists doc. split.
      * apply list_elem_of_fmap. exists (file, doc). split; [reflexivity |].
        now apply elem_of_map_to_list.
      * unfold url_of_doc. now rewrite Hu.
  - split; [set_solver |]. intros (dir & _ & _ & H & _). discriminate.
Qed.

Lemma elem_of_remaining seen entries u :
  u ∈ remaining seen entries ↔ u ∈ Sitemap.url <$> entries ∧ u ∉ seen.
Proof.
  unfold remaining.
  rewrite !list_elem_of_In, filter_In, bool_decide_eq_true. tauto.
Qed.

Lemma remaining_nil seen entries :
  remaining seen entries = []
  ↔ ∀ u, u ∈ Sitemap.url <$> entries → u ∈ seen.
Proof.
  split.
  - intros Hnil u Hu. destruct (decide (u ∈ seen)) as [|Hn]; [assumption |].
    assert (u ∈ remaining seen entries) as Hin
      by (apply elem_of_remaining; auto).
    rewrite Hnil in Hin. now apply not_elem_of_nil in Hin.
  - intros Hall. destruct (remaining seen entries) as [|u l] eqn:E;
      [reflexivity |].
    assert (u ∈ remaining seen entries) as Hin by (rewrite E; left).
    apply elem_of_remaining in Hin as [Hin Hn]. now apply Hall in Hin.
Qed.

(** The first two steps of the resume pipeline run alone: scheduled, it
    reads the records of the content directory; woken by the crawl, it
    keeps the URLs without a record and enters the batch loop. *)
Lemma run_alone_scheduled py_hash remove_boilerplate
  extract_structured_content extract_metadata combine_content clean_text
  fuel now crawled web io r j w :
  heap w !! r = Some j →
  0 < total_urls j →
  run_alone py_hash remove_boilerplate extract_structured_content
    extract_metadata combine_content clean_text (S fuel) now crawled web io
    (mkTask ResumeJob r Created false, w)
  = run_alone py_hash remove_boilerplate extract_structured_content
      extract_metadata combine_content clean_text fuel now crawled web io
      (mkTask ResumeJob r (AwaitCrawl (Some (stored_urls (website_id j) w)))
              false, w).
Proof.
  intros Hheap Htotal. apply Nat.ltb_lt in Htotal.
  change (run_alone py_hash remove_boilerplate extract_structured_content
            extract_metadata combine_content clean_text (S fuel) now crawled
            web io (mkTask ResumeJob r Created false, w))
    with (run_alone py_hash remove_boilerplate extract_structured_content
            extract_metadata combine_content clean_text fuel now crawled
            web io
            (task_step py_hash remove_boilerplate extract_structured_content
               extract_metadata combine_content clean_text now EvScheduled
               (mkTask ResumeJob r Created false) w)).
  f_equal. unfold task_step. cbn [at_pc entry job_ref nested].
  now rewrite Hheap, Htotal.
Qed.

Lemma run_alone_crawled py_hash remove_boilerplate
  extract_structured_content extract_metadata combine_content clean_text
  fuel now entries web io r seen w :
  run_alone py_hash remove_boilerplate extract_structured_content
    extract_metadata combine_content clean_text (S fuel) now (Ok entries)
    web io (mkTask ResumeJob r (AwaitCrawl (Some seen)) false, w)
  = run_alone py_hash remove_boilerplate extract_structured_content
      extract_metadata combine_content clean_text fuel now (Ok entries)
      web io
      (batch_loop now (remaining seen entries) 0
         (mkTask ResumeJob r (AwaitCrawl (Some seen)) false)
         (_save_job_metadata r
            (update_job r
               (fun j0 => set_total_urls
                            (processed_urls j0
                             + length (remaining seen entries)) j0) w))).
Proof. reflexivity. Qed.

(** C5, as the code has it.  For a job that is ["failed"] or ["stopped"]
    with [total_urls > 0], under the cap, [resume_job] returns [True],
    sets the status to ["running"], keeps the counters and queues the
    pipeline.  The pipeline keeps of the discovered URLs exactly those
    without a record in the website's content directory; run alone, with
    an extractor that raises for no URL, it hands exactly these URLs to
    the extractor, sets [total_urls] to the old [processed_urls] plus
    their number, adds their number to [processed_urls], resets no
    counter and completes the job.  The URLs kept are none exactly when
    every discovered URL has a record; this holds for any resume, a second
    one included. *)
Theorem resume_recrawls_missing_urls
  (py_hash : nat → string → Z)
  (remove_boilerplate : string → string)
  (extract_structured_content : string → result pyval)
  (extract_metadata : string → string → result dict)
  (combine_content : pyval → string)
  (clean_text : string → string)
  (now : nat) (web : string → option string) (io : save_io)
  (id : string) (w : World) (r : nat) (j : CrawlerJob)
  (entries : list Sitemap.UrlEntry) :
  get_job w id = Some (r, j) →
  status j = "failed" ∨ status j = "stopped" →
  0 < total_urls j →
  size (active_jobs w) < max_concurrent_jobs w →
  (∀ u, ∃ doc,
     extract_from_url web remove_boilerplate extract_structured_content
       extract_metadata combine_content clean_text u = Ok doc) →
  resume_job id w = (Ok true, resumed id r j w)
  ∧ heap (resumed id r j w) !! r = Some (set_status "running" j)
  ∧ last (tasks (resumed id r j w))
    = Some (mkTask ResumeJob r Created false)
  ∧ (∀ u, u ∈ remaining (stored_urls (website_id j) w) entries
          ↔ u ∈ Sitemap.url <$> entries ∧ ¬ has_record (website_id j) u w)
  ∧ (remaining (stored_urls (website_id j) w) entries = []
     ↔ ∀ u, u ∈ Sitemap.url <$> entries → has_record (website_id j) u w)
  ∧ ∃ fuel t' w' j',
      run_alone py_hash remove_boilerplate extract_structured_content
        extract_metadata combine_content clean_text fuel now (Ok entries)
        web io (mkTask ResumeJob r Created false, resumed id r j w)
      = (t', w')
      ∧ at_pc t' = Finished
      ∧ requested w'
        = requested w ++ remaining (stored_urls (website_id j) w) entries
      ∧ heap w' !! r = Some j'
      ∧ status j' = "completed"
      ∧ total_urls j'
        = processed_urls j
          + length (remaining (stored_urls (website_id j) w) entries)
      ∧ processed_urls j'
        = processed_urls j
          + length (remaining (stored_urls (website_id j) w) entries)
      ∧ successful_urls j ≤ successful_urls j'
      ∧ failed_urls j ≤ failed_urls j'.
Proof.
  intros Hget Hst Htotal Hcap Hextract.
  pose proof (get_job_Some _ _ _ _ Hget) as [_ Hheap].
  pose proof (lookup_lt_Some _ _ _ Hheap) as Hlt.
  set (urls := remaining (stored_urls (website_id j) w) entries).
  assert (Hheap1 : heap (resumed id r j w) !! r
                   = Some (set_status "running" j)).
  { unfold resumed. simpl. now apply list_lookup_insert_eq. }
  split; [now apply resume_job_admits |]. split; [exact Hheap1 |].
  split; [unfold resumed; simpl; apply last_snoc |]. split; [| split].
  - intros u. unfold urls. rewrite elem_of_remaining, elem_of_stored_urls.
    reflexivity.
  - unfold urls. rewrite remaining_nil.
    split; intros H u Hu; apply elem_of_stored_urls; auto.
  - set (w2 := _save_job_metadata r
                 (update_job r
                    (fun j0 => set_total_urls
                                 (processed_urls j0 + length urls) j0)
                    (resumed id r j w))).
    set (t1 := mkTask ResumeJob r
                 (AwaitCrawl (Some (stored_urls (website_id j) w))) false).
    destruct (loop_finishes py_hash remove_boilerplate
                extract_structured_content extract_metadata combine_content
                clean_text now (Ok entries) web io Hextract r urls
                (requested w) (processed_urls j) (successful_urls j)
                (failed_urls j) (processed_urls j + length urls)
                (length urls - 0) 0 t1 w2 eq_refl eq_refl)
      as [fuel Hdone].
    + exists (set_total_urls (processed_urls j + length urls)
                (set_status "running" j)).
      unfold w2. rewrite heap_save. split.
      * rewrite (lookup_update_job r _ _ _ Hheap1). reflexivity.
      * simpl. repeat split; lia.
    + unfold w2. rewrite requested_save. simpl. now rewrite app_nil_r.
    + destruct Hdone as (Hpc & Hreq & j' & Hj' & Hs' & Hp' & Ht' & Hsu & Hfa).
      destruct (run_alone _ _ _ _ _ _ fuel now (Ok entries) web io
                  (batch_loop now urls 0 t1 w2)) as [t' w'] eqn:Hrun.
      exists (S (S fuel)), t', w', j'.
      split; [| repeat split; assumption].
      rewrite <- Hrun.
      rewrite (run_alone_scheduled _ _ _ _ _ _ (S fuel) now (Ok entries)
                 web io r (set_status "running" j) _ Hheap1 Htotal).
      exact (run_alone_crawled _ _ _ _ _ _ fuel now entries web io r
               (stored_urls (website_id j) w) (resumed id r j w)).
Qed.

Lemma resume_recrawls_missing_urls_witness :
  ∃ j,
    get_job (Demo.demo_run (take 6 Demo.history_resumed_twice)) "j1"
    = Some (0, j)
    ∧ status j = "stopped"
    ∧ total_urls j = 1
    ∧ resume_job "j1" (Demo.demo_run (take 6 Demo.history_resumed_twice))
      = (Ok true,
         resumed "j1" 0 j
           (Demo.demo_run (take 6 Demo.history_resumed_twice)))
    ∧ ∃ fuel t' w' j',
        run_alone Demo.demo_hash Demo.demo_boilerplate Demo.demo_structured
          Demo.demo_metadata Demo.demo_combine Demo.demo_clean fuel 7
          (Ok [Demo.bare_entry "https://x.test/a"]) Demo.demo_online
          (mkIO true true)
          (mkTask ResumeJob 0 Created false,
           resumed "j1" 0 j
             (Demo.demo_run (take 6 Demo.history_resumed_twice)))
        = (t', w')
        ∧ at_pc t' = Finished
        ∧ heap w' !! 0 = Some j'
        ∧ status j' = "completed"
        ∧ total_urls j' = 1
        ∧ processed_urls j' = 1.
Proof.
  eexists. split; [vm_compute; reflexivity |].
  split; [reflexivity |]. split; [reflexivity |].
  match goal with
  | |- resume_job _ _ = (_, resumed _ _ ?j _) ∧ _ =>
      destruct (resume_recrawls_missing_urls Demo.demo_hash
                  Demo.demo_boilerplate Demo.demo_structured
                  Demo.demo_metadata Demo.demo_combine Demo.demo_clean 7
                  Demo.demo_online (mkIO true true) "j1"
                  (Demo.demo_run (take 6 Demo.history_resumed_twice)) 0 j
                  [Demo.bare_entry "https://x.test/a"])
        as (Hres & _ & _ & _ & _ & fuel & t' & w' & j' & Hrun & Hpc & _
            & Hj' & Hst & Htot & Hproc & _)
  end.
  - vm_compute. reflexivity.
  - right. reflexivity.
  - vm_compute. lia.
  - vm_compute. lia.
  - intros u. eexists. reflexivity.
  - split; [exact Hres |].
    exists fuel, t', w', j'. repeat split; assumption.
Defined.

(** The second clause of C5 fails on the code.  The job is stopped before
    its only URL is handled and resumed; the resumed pipeline asks the
    extractor for the URL and the job is stopped again before the answer
    arrives, so no record is written; the second resume is admitted and
    asks for the same URL once more.  The content directory is empty the
    whole time. *)
Lemma second_resume_finds_urls_again :
  (resume_job "j1" (Demo.demo_run (take 6 Demo.history_resumed_twice))).1
  = Ok true
  ∧ (resume_job "j1" (Demo.demo_run (take 11 Demo.history_resumed_twice))).1
    = Ok true
  ∧ content_files (Demo.demo_run (take 6 Demo.history_resumed_twice)) = ∅
  ∧ content_files (Demo.demo_run (take 11 Demo.history_resumed_twice)) = ∅
  ∧ content_files (Demo.demo_run Demo.history_resumed_twice) = ∅
  ∧ tasks (Demo.demo_run (take 9 Demo.history_resumed_twice)) !! 1
    = Some (mkTask ResumeJob 0 (AwaitExtract ["https://x.test/a"] 0) false)
  ∧ tasks (Demo.demo_run Demo.history_resumed_twice) !! 2
    = Some (mkTask ResumeJob 0 (AwaitExtract ["https://x.test/a"] 0) false)
  ∧ remaining
      (stored_urls 7 (Demo.demo_run (take 13 Demo.history_resumed_twice)))
      [Demo.bare_entry "https://x.test/a"]
    = ["https://x.test/a"].
Proof. vm_compute. repeat split. Qed.

End ResumeProps.

(* ===================================================================== *)
(** ** [total_urls] against [processed_urls] *)
(* ===================================================================== *)

Module TotalProps.
Import Manager.

(** What a record of the jobs directory shows of the progress. *)
Definition progress (j : CrawlerJob) : string * nat * nat :=
  (status j, total_urls j, processed_urls j).

(** C9, on the code.  [start_job] refuses a running job only, so a job
    that is completed is started again; [_run_job] then assigns
    [total_urls] from the discovered list and leaves the counters of the
    first run in place.  For a site of one page the records written after
    the second discovery show [total_urls = 1] and, from the first URL
    handled on, [processed_urls = 2].  The same happens when a job is
    stopped and resumed while its first pipeline waits for the extractor:
    both pipelines handle the two URLs of the site and the records end at
    [total_urls = 2], [processed_urls = 3]. *)
Theorem total_urls_falls_behind_processed :
  (start_job 7 "j1" (Demo.demo_run (take 6 Demo.history_restarted))).1
  = Ok true
  ∧ progress <$> drop 6 (checkpoints (Demo.demo_run Demo.history_restarted))
    = [ ("running", 1, 1); ("running", 1, 2); ("completed", 1, 2) ]
  ∧ progress <$> heap (Demo.demo_run Demo.history_restarted)
    = [ ("completed", 1, 2) ]
  ∧ progress <$> drop 5 (checkpoints (Demo.demo_run Demo.history_raced))
    = [ ("running", 2, 0); ("running", 2, 1); ("running", 2, 2);
        ("running", 2, 3); ("completed", 2, 3) ].
Proof. vm_compute. repeat split. Qed.

End TotalProps.

(* ===================================================================== *)
(** ** robots_parser.py: further properties *)
(* ===================================================================== *)

Module RobotsFacts.
Import Robots.

(** *** Strings *)

Lemma delay_key_longer (a : string) : a +:+ "_crawl_delay" ≠ "*".
Proof.
  intros H. apply (f_equal String.length) in H.
  rewrite length_append in H. simpl in H. lia.
Qed.

Lemma append_assoc (a b c : string) : (a +:+ b) +:+ c = a +:+ (b +:+ c).
Proof.
  induction a as [|x a IH]; [reflexivity |].
  change (String x ((a +:+ b) +:+ c) = String x (a +:+ (b +:+ c))).
  now rewrite IH.
Qed.

Lemma split_once_None_append sep a b :
  split_once sep a = None →
  split_once sep (a +:+ String sep b) = Some (a, b).
Proof.
  induction a as [|c a IH]; simpl.
  - intros _. now rewrite Ascii.eqb_refl.
  - destruct (Ascii.eqb c sep); [discriminate |].
    destruct (split_once sep a) as [[x y]|]; [discriminate |].
    intros _. now rewrite IH.
Qed.

(** *** The rule set of a site without robots.txt *)

Section NoRules.

Variable user_agent : string.

Lemma no_rules_delay :
  get_crawl_delay user_agent {[ "*" := RList [] ]} = RFloat (Finite 1).
Proof.
  unfold get_crawl_delay.
  rewrite lookup_singleton_ne by (intros H; symmetry in H;
                                  now apply delay_key_longer in H).
  rewrite lookup_singleton_ne by discriminate. reflexivity.
Qed.

Lemma no_rules_group :
  user_agent_rules user_agent {[ "*" := RList [] ]} = RList [].
Proof.
  unfold user_agent_rules.
  destruct (decide (lower user_agent = "*")) as [-> | Hne].
  - now rewrite lookup_singleton_eq.
  - rewrite lookup_singleton_ne by congruence.
    now rewrite lookup_singleton_eq.
Qed.

End NoRules.

(** *** The loop of [parse_robots_txt] *)

(** Every prefix kept in a list of the dictionary is a non-empty string. *)
Definition prefixes_nonempty (rules : rules_t) : Prop :=
  ∀ k l, rules !! k = Some (RList l) → Forall (fun v => v ≠ "") l.

Lemma prefixes_nonempty_insert_list rules k l :
  prefixes_nonempty rules → Forall (fun v => v ≠ "") l →
  prefixes_nonempty (<[k := RList l]> rules).
Proof.
  intros H Hl k' l' Hk'. destruct (decide (k = k')) as [-> | Hne].
  - rewrite lookup_insert_eq in Hk'. now injection Hk' as <-.
  - rewrite lookup_insert_ne in Hk' by assumption. eauto.
Qed.

Lemma prefixes_nonempty_insert_float rules k f :
  prefixes_nonempty rules → prefixes_nonempty (<[k := RFloat f]> rules).
Proof.
  intros H k' l' Hk'. destruct (decide (k = k')) as [-> | Hne].
  - rewrite lookup_insert_eq in Hk'. discriminate.
  - rewrite lookup_insert_ne in Hk' by assumption. eauto.
Qed.

Lemma truthy_nonempty v : truthy v = true → v ≠ "".
Proof. now destruct v. Qed.

Lemma parse_line_prefixes py_float st line st' :
  parse_line py_float st line = Ok st' →
  prefixes_nonempty (rules st) → prefixes_nonempty (rules st').
Proof.
  unfold parse_line. intros H Hinv.
  destruct (negb (truthy (strip (cut_comment line))));
    [now injection H as <- |].
  destruct (split_once ":" (strip (cut_comment line))) as [[p0 p1]|];
    [| now injection H as <-].
  destruct (String.eqb (lower (strip p0)) "user-agent").
  { injection H as <-. simpl.
    destruct (rules st !! lower (strip p1)); [assumption |].
    apply prefixes_nonempty_insert_list; [assumption | constructor]. }
  destruct (String.eqb (lower (strip p0)) "disallow"
            && match current_agent st with
               | Some a => truthy a
               | None => false
               end).
  { destruct (truthy (strip p1)) eqn:Hv; [| now injection H as <-].
    destruct (current_agent st) as [a|]; [| now injection H as <-].
    destruct (rules st !! a) as [[l | f]|] eqn:Ha; try discriminate.
    injection H as <-. simpl.
    apply prefixes_nonempty_insert_list; [assumption |].
    apply Forall_app. split; [now apply (Hinv a) |].
    constructor; [now apply truthy_nonempty | constructor]. }
  destruct (String.eqb (lower (strip p0)) "allow"
            && match current_agent st with
               | Some a => truthy a
               | None => false
               end); [now injection H as <- |].
  destruct (String.eqb (lower (strip p0)) "crawl-delay"
            && match current_agent st with
               | Some a => truthy a
               | None => false
               end); [| now injection H as <-].
  destruct (current_agent st) as [a|]; [| now injection H as <-].
  destruct (py_float (strip p1)) as [f|]; [| now injection H as <-].
  injection H as <-. simpl. now apply prefixes_nonempty_insert_float.
Qed.

Lemma parse_lines_prefixes py_float lines : ∀ st st',
  parse_lines py_float st lines = Ok st' →
  prefixes_nonempty (rules st) → prefixes_nonempty (rules st').
Proof.
  induction lines as [|line rest IH]; intros st st' H Hinv; simpl in H.
  - now injection H as <-.
  - destruct (parse_line py_float st line) as [st1|e] eqn:E;
      [| discriminate].
    simpl in H. eapply IH; [exact H |].
    eapply parse_line_prefixes; eauto.
Qed.

Lemma matches_disallow_extends path suffix g :
  matches_disallow path g = true →
  matches_disallow (path +:+ suffix) g = true.
Proof.
  unfold matches_disallow. rewrite !existsb_exists.
  intros (rule & Hin & Hp). exists rule. split; [assumption |].
  apply startswith_iff in Hp as [t ->]. apply startswith_iff.
  exists (t +:+ suffix). apply append_assoc.
Qed.

(** The answer of [is_allowed] on a cache that holds the rules of the
    site. *)
Lemma is_allowed_cached urlparse py_float http_get user_agent url p cache
  rules :
  urlparse url = Ok p →
  cache !! (scheme p +:+ "://" +:+ netloc p) = Some rules →
  is_allowed_body urlparse py_float http_get user_agent url cache
  = match user_agent_rules user_agent rules with
    | RFloat _ => (Raise TypeError, cache)
    | RList g =>
        (Ok (negb (matches_disallow (str_or (path p) "/") g),
             get_crawl_delay user_agent rules), cache)
    end.
Proof.
  intros Hp Hc. unfold is_allowed_body, rules_for. rewrite Hp, Hc.
  destruct (user_agent_rules user_agent rules) as [g|f]; [| reflexivity].
  now destruct (matches_disallow _ g).
Qed.

(** After a call that returned, the cache holds the rules of the site. *)
Lemma is_allowed_fills_cache urlparse py_float http_get user_agent url cache
  r cache' :
  is_allowed_body urlparse py_float http_get user_agent url cache
  = (Ok r, cache') →
  ∃ p rules,
    urlparse url = Ok p
    ∧ cache' !! (scheme p +:+ "://" +:+ netloc p) = Some rules
    ∧ ∃ g, user_agent_rules user_agent rules = RList g
           ∧ r = (negb (matches_disallow (str_or (path p) "/") g),
                  get_crawl_delay user_agent rules).
Proof.
  unfold is_allowed_body, rules_for. intros H.
  destruct (urlparse url) as [p|e]; [| discriminate].
  exists p.
  destruct (cache !! (scheme p +:+ "://" +:+ netloc p)) as [rules|] eqn:Hc.
  - exists rules.
    destruct (user_agent_rules user_agent rules) as [g|f] eqn:Hg;
      [| discriminate].
    destruct (matches_disallow _ g) eqn:Hm; injection H as <- <-;
      (split; [reflexivity |]); (split; [assumption |]);
      exists g; now rewrite Hm.
  - destruct (parse_robots_txt py_float _) as [rules|e]; [| discriminate].
    exists rules.
    destruct (user_agent_rules user_agent rules) as [g|f] eqn:Hg;
      [| discriminate].
    destruct (matches_disallow _ g) eqn:Hm; injection H as <- <-;
      (split; [reflexivity |]); (split; [apply lookup_insert_eq |]);
      exists g; now rewrite Hm.
Qed.

(** X1.  When the robots.txt of a site cannot be fetched, or is empty,
    [is_allowed] allows every URL of the site with the default delay of
    one second, and caches the rule set that has the one empty group for
    all agents. *)
Theorem is_allowed_without_robots_txt
  (urlparse : string → result ParseResult)
  (py_float : string → option pyfloat)
  (http_get : string → option string)
  (user_agent url : string) (p : ParseResult) (cache : gmap string rules_t) :
  urlparse url = Ok p →
  cache !! (scheme p +:+ "://" +:+ netloc p) = None →
  fetch_robots_txt urlparse http_get (scheme p +:+ "://" +:+ netloc p) = None
  ∨ fetch_robots_txt urlparse http_get (scheme p +:+ "://" +:+ netloc p)
    = Some "" →
  await (is_allowed urlparse py_float http_get user_agent url) cache
  = (Ok (true, RFloat (Finite 1)),
     <[scheme p +:+ "://" +:+ netloc p := {[ "*" := RList [] ]}]> cache).
Proof.
  intros Hp Hc Hfetch. simpl. unfold is_allowed_body, rules_for.
  rewrite Hp, Hc.
  assert (Hrules : parse_robots_txt py_float
                     (fetch_robots_txt urlparse http_get
                        (scheme p +:+ "://" +:+ netloc p))
                   = Ok {[ "*" := RList [] ]}).
  { destruct Hfetch as [-> | ->]; reflexivity. }
  rewrite Hrules, no_rules_delay, no_rules_group. reflexivity.
Qed.

Lemma is_allowed_without_robots_txt_witness :
  await (is_allowed Demo.demo_urlparse Demo.demo_float (fun _ => None)
                    "RAGCrawler" "https://x.test/private/page") ∅
  = (Ok (true, RFloat (Finite 1)),
     {[ "https://x.test" := {[ "*" := RList [] ]} ]}).
Proof.
  rewrite (is_allowed_without_robots_txt Demo.demo_urlparse Demo.demo_float
             (fun _ => None) "RAGCrawler" "https://x.test/private/page"
             (mkParse "https" "x.test" "/private/page") ∅);
    [reflexivity | reflexivity | reflexivity | left; reflexivity].
Defined.

(** X2.  The robots.txt of a site is fetched and parsed once: after a call
    of [is_allowed] that returned, a second call for the same URL returns
    the same answer and leaves the cache as it is, whatever the network
    serves by then. *)
Theorem is_allowed_answers_from_cache
  (urlparse : string → result ParseResult)
  (py_float py_float' : string → option pyfloat)
  (http_get http_get' : string → option string)
  (user_agent url : string) (cache cache' : gmap string rules_t)
  (r : bool * rule_value) :
  await (is_allowed urlparse py_float http_get user_agent url) cache
  = (Ok r, cache') →
  await (is_allowed urlparse py_float' http_get' user_agent url) cache'
  = (Ok r, cache').
Proof.
  simpl. intros H.
  apply is_allowed_fills_cache in H as (p & rules & Hp & Hc & g & Hg & ->).
  rewrite (is_allowed_cached _ _ _ _ _ _ _ _ Hp Hc), Hg. reflexivity.
Qed.

Lemma is_allowed_answers_from_cache_witness :
  await (is_allowed Demo.demo_urlparse Demo.demo_float (fun _ => None)
           "RAGCrawler" "https://x.test/private/page")
        {[ "https://x.test" := RobotsProps.example_rules ]}
  = (Ok (false, RFloat (Finite 2)),
     {[ "https://x.test" := RobotsProps.example_rules ]}).
Proof.
  apply (is_allowed_answers_from_cache Demo.demo_urlparse Demo.demo_float
           Demo.demo_float Demo.demo_site (fun _ => None) "RAGCrawler"
           "https://x.test/private/page" ∅).
  vm_compute. reflexivity.
Defined.

(** X3.  A line of robots.txt is read up to its first [#]: what follows
    the sign changes nothing. *)
Theorem parse_line_ignores_comment
  (py_float : string → option pyfloat) (st : parse_state)
  (text comment : string) :
  split_once "#" text = None →
  parse_line py_float st (text +:+ "#" +:+ comment)
  = parse_line py_float st text.
Proof.
  intros H. unfold parse_line, cut_comment.
  change ("#" +:+ comment) with (String "#" comment).
  now rewrite (split_once_None_append _ _ _ H), H.
Qed.

Lemma parse_line_ignores_comment_witness :
  parse_line Demo.demo_float (mkPS {[ "*" := RList [] ]} (Some "*"))
             "Disallow: /tmp # scratch files"
  = Ok (mkPS {[ "*" := RList ["/tmp"] ]} (Some "*")).
Proof.
  rewrite (parse_line_ignores_comment Demo.demo_float _ "Disallow: /tmp "
             " scratch files"); reflexivity.
Defined.

(** X4.  A disallowed path closes off everything below it: when
    [is_allowed] refuses a URL with a non-empty path, it refuses every URL
    of the same site whose path extends that path, with the same delay. *)
Theorem is_allowed_refuses_extensions
  (urlparse : string → result ParseResult)
  (py_float : string → option pyfloat)
  (http_get : string → option string)
  (user_agent url url' suffix : string) (p p' : ParseResult)
  (cache cache' : gmap string rules_t) (delay : rule_value) :
  urlparse url = Ok p →
  urlparse url' = Ok p' →
  scheme p' = scheme p → netloc p' = netloc p →
  path p ≠ "" →
  path p' = path p +:+ suffix →
  await (is_allowed urlparse py_float http_get user_agent url) cache
  = (Ok (false, delay), cache') →
  await (is_allowed urlparse py_float http_get user_agent url') cache'
  = (Ok (false, delay), cache').
Proof.
  simpl. intros Hp Hp' Hs Hn Hne Hpath H.
  apply is_allowed_fills_cache in H as (q & rules & Hq & Hc & g & Hg & Hr).
  rewrite Hp in Hq. injection Hq as <-.
  injection Hr as Hm ->. symmetry in Hm. apply negb_false_iff in Hm.
  rewrite <- Hs, <- Hn in Hc.
  rewrite (is_allowed_cached _ _ _ _ _ _ _ _ Hp' Hc), Hg.
  assert (Hm' : matches_disallow (str_or (path p') "/") g = true).
  { rewrite Hpath. destruct (path p) as [|c s] eqn:E; [congruence |].
    simpl str_or in *. now apply matches_disallow_extends. }
  now rewrite Hm'.
Qed.

Lemma is_allowed_refuses_extensions_witness :
  await (is_allowed Demo.demo_urlparse Demo.demo_float Demo.demo_site
           "RAGCrawler" "https://x.test/private/page/2")
        {[ "https://x.test" := RobotsProps.example_rules ]}
  = (Ok (false, RFloat (Finite 2)),
     {[ "https://x.test" := RobotsProps.example_rules ]}).
Proof.
  apply (is_allowed_refuses_extensions Demo.demo_urlparse Demo.demo_float
           Demo.demo_site "RAGCrawler" "https://x.test/private/page"
           "https://x.test/private/page/2" "/2"
           (mkParse "https" "x.test" "/private/page")
           (mkParse "https" "x.test" "/private/page/2") ∅);
    [reflexivity | reflexivity | reflexivity | reflexivity | discriminate
    | reflexivity | vm_compute; reflexivity].
Defined.

(** X5.  [parse_robots_txt] keeps no empty prefix: in the dictionary it
    returns, every string of every list is non-empty, so a [Disallow:]
    line without a value closes off nothing. *)
Theorem parse_robots_txt_keeps_no_empty_prefix
  (py_float : string → option pyfloat) (robots_content : option string)
  (rules : rules_t) (agent : string) (prefixes : list string) :
  parse_robots_txt py_float robots_content = Ok rules →
  rules !! agent = Some (RList prefixes) →
  Forall (fun v => v ≠ "") prefixes.
Proof.
  intros H. revert agent prefixes. fold (prefixes_nonempty rules).
  assert (Hdefault : prefixes_nonempty {[ "*" := RList [] ]}).
  { intros k l Hk. apply lookup_singleton_Some in Hk as [_ Hk].
    injection Hk as <-. constructor. }
  unfold parse_robots_txt in H.
  destruct robots_content as [content|]; [| now injection H as <-].
  destruct (negb (truthy content)); [now injection H as <- |].
  destruct (parse_lines py_float (mkPS ∅ None) (Py.split "010" content))
    as [st|e] eqn:E; [| discriminate].
  simpl in H.
  assert (Hst : prefixes_nonempty (Robots.rules st)).
  { eapply parse_lines_prefixes; [exact E |]. intros k l Hk.
    simpl in Hk. now rewrite lookup_empty in Hk. }
  destruct (decide (Robots.rules st = ∅)); injection H as <-;
    [| assumption].
  apply prefixes_nonempty_insert_list; [assumption | constructor].
Qed.

Lemma parse_robots_txt_keeps_no_empty_prefix_witness :
  parse_robots_txt Demo.demo_float
    (Some ("User-agent: *" +:+ Demo.nl +:+ "Disallow:" +:+ Demo.nl
           +:+ "Disallow: /private/"))
  = Ok {[ "*" := RList ["/private/"] ]}
  ∧ Forall (fun v => v ≠ "") ["/private/"].
Proof.
  split; [vm_compute; reflexivity |].
  apply (parse_robots_txt_keeps_no_empty_prefix Demo.demo_float
           (Some ("User-agent: *" +:+ Demo.nl +:+ "Disallow:" +:+ Demo.nl
                  +:+ "Disallow: /private/"))
           {[ "*" := RList ["/private/"] ]} "*");
    vm_compute; reflexivity.
Defined.

End RobotsFacts.

(* ===================================================================== *)
(** ** Strings as lists of characters *)
(* ===================================================================== *)

Module StringFacts.

Abbreviation chars := list_ascii_of_string.

Lemma chars_rev_app (s acc : string) :
  chars (String.rev_app s acc) = List.rev (chars s) ++ chars acc.
Proof.
  revert acc. induction s as [|c s IH]; intros acc; simpl; [reflexivity |].
  rewrite IH. simpl. now rewrite <- app_assoc.
Qed.

Lemma chars_rev (s : string) : chars (String.rev s) = List.rev (chars s).
Proof. unfold String.rev. rewrite chars_rev_app. apply app_nil_r. Qed.

Lemma chars_inj (s t : string) : chars s = chars t → s = t.
Proof.
  intros H. rewrite <- (string_of_list_ascii_of_string s),
              <- (string_of_list_ascii_of_string t). now rewrite H.
Qed.

Lemma rev_involutive (s : string) : String.rev (String.rev s) = s.
Proof.
  apply chars_inj. rewrite !chars_rev. apply List.rev_involutive.
Qed.

Lemma chars_append (a b : string) : chars (a +:+ b) = chars a ++ chars b.
Proof.
  induction a as [|c a IH]; [reflexivity |].
  change (chars (String c (a +:+ b)) = chars (String c a) ++ chars b).
  simpl. now rewrite IH.
Qed.

Lemma rev_append (a b : string) :
  String.rev (a +:+ b) = String.rev b +:+ String.rev a.
Proof.
  apply chars_inj.
  rewrite chars_rev, !chars_append, !chars_rev. apply rev_app_distr.
Qed.

End StringFacts.

(* ===================================================================== *)
(** ** sitemap_crawler.py: further properties *)
(* ===================================================================== *)

Module SitemapFacts.
Import Robots Sitemap StringFacts.

(** *** [__init__] *)

(** [n] slashes. *)
Fixpoint slashes (n : nat) : string :=
  match n with
  | 0 => ""
  | S n' => String "/" (slashes n')
  end.

Lemma lstrip_char_spec (s : string) :
  ∃ n, s = slashes n +:+ lstrip_char "/" s
       ∧ String.prefix "/" (lstrip_char "/" s) = false.
Proof.
  induction s as [|c s (n & Hs & Hp)]; simpl.
  - now exists 0.
  - destruct (Ascii.eqb c "/") eqn:E.
    + apply Ascii.eqb_eq in E as ->. exists (S n). split; [| exact Hp].
      change (String "/" s = String "/" (slashes n +:+ lstrip_char "/" s)).
      now rewrite <- Hs.
    + exists 0. split; [reflexivity |].
      destruct (String.prefix "/" (String c s)) eqn:P; [| reflexivity].
      apply (startswith_iff (String c s) "/") in P as [t Ht].
      injection Ht as -> _. now rewrite Ascii.eqb_refl in E.
Qed.

Lemma rev_slashes n : String.rev (slashes n) = slashes n.
Proof.
  apply chars_inj. rewrite chars_rev.
  assert (H : chars (slashes n) = repeat "/"%char n).
  { induction n as [|n IH]; simpl; [reflexivity | now rewrite IH]. }
  rewrite H. apply rev_repeat.
Qed.

Section Facts.

Variable urlparse : string → result ParseResult.
Variable urljoin : string → string → result string.
Variable py_float : string → option pyfloat.
Variable http_get : string → option string.
Variable BeautifulSoup_xml : string → result node.
Variable html_links : string → result (list string).
Variable user_agent : string.
Variable set_pop : gset string → string.

#[local] Abbreviation init := (Sitemap.init urlparse).
#[local] Abbreviation first_fetchable := (Sitemap.first_fetchable http_get).
#[local] Abbreviation discover_sitemap_url :=
  (Sitemap.discover_sitemap_url http_get).
#[local] Abbreviation parse_sitemap :=
  (Sitemap.parse_sitemap py_float http_get BeautifulSoup_xml).
#[local] Abbreviation crawl_step :=
  (Sitemap.crawl_step urlparse urljoin py_float http_get html_links
                      user_agent set_pop).
#[local] Abbreviation crawl_loop :=
  (Sitemap.crawl_loop urlparse urljoin py_float http_get html_links
                      user_agent set_pop).
#[local] Abbreviation crawl_without_sitemap :=
  (Sitemap.crawl_without_sitemap urlparse urljoin py_float http_get
                                 html_links user_agent set_pop).
#[local] Abbreviation crawl :=
  (Sitemap.crawl urlparse urljoin py_float http_get BeautifulSoup_xml
                 html_links user_agent set_pop).
#[local] Abbreviation is_allowed :=
  (Robots.is_allowed urlparse py_float http_get user_agent).

(** The sitemap URL robots.txt announces, as [discover_sitemap_url] reads
    it: the rest of the line of the first [Sitemap:], stripped. *)
Definition announced (c : crawler) : option string :=
  match nonempty (http_get (parsed_scheme c +:+ "://" +:+ domain c
                            +:+ "/robots.txt")) with
  | Some robots_content => strip <$> first_sitemap_match robots_content
  | None => None
  end.

(** A location that answers with a non-empty body. *)
Definition fetchable (location : string) : Prop :=
  is_Some (nonempty (http_get location)).

Lemma discover_announced c :
  discover_sitemap_url c
  = match announced c with
    | Some u => Some u
    | None => first_fetchable (common_locations c)
    end.
Proof.
  unfold Sitemap.discover_sitemap_url, announced, fetch_url.
  destruct (nonempty _) as [body|]; [| reflexivity].
  now destruct (first_sitemap_match body).
Qed.

Lemma first_fetchable_Some pre l post :
  Forall (fun x => ¬ fetchable x) pre → fetchable l →
  first_fetchable (pre ++ l :: post) = Some l.
Proof.
  intros Hpre [b Hl]. induction Hpre as [|x pre Hx _ IH]; simpl.
  - unfold fetch_url. now rewrite Hl.
  - unfold fetch_url at 1.
    destruct (nonempty (http_get x)) eqn:E; [| exact IH].
    exfalso. apply Hx. unfold fetchable. rewrite E. eauto.
Qed.

Lemma first_fetchable_None locations :
  Forall (fun x => ¬ fetchable x) locations →
  first_fetchable locations = None.
Proof.
  induction 1 as [|x l Hx _ IH]; simpl; [reflexivity |].
  unfold fetch_url at 1.
  destruct (nonempty (http_get x)) eqn:E; [| exact IH].
  exfalso. apply Hx. unfold fetchable. rewrite E. eauto.
Qed.

Lemma first_fetchable_inv locations l :
  first_fetchable locations = Some l →
  ∃ pre post, locations = pre ++ l :: post
              ∧ Forall (fun x => ¬ fetchable x) pre ∧ fetchable l.
Proof.
  induction locations as [|x rest IH]; simpl; [discriminate |].
  unfold fetch_url at 1.
  destruct (nonempty (http_get x)) as [b|] eqn:E.
  - intros [= <-]. exists [], rest. repeat split; [constructor |].
    unfold fetchable. rewrite E. eauto.
  - intros H. destruct (IH H) as (pre & post & -> & Hpre & Hl).
    exists (x :: pre), post. repeat split; [| assumption].
    constructor; [| assumption].
    unfold fetchable. rewrite E. now intros [? ?].
Qed.

(** X6.  [__init__] removes the slashes at the end of the URL it is
    given, and nothing else: the base URL of the crawler does not end in a
    slash, and the URL given is the base URL followed by slashes only. *)
Theorem init_strips_trailing_slashes (url0 : string) (c : crawler) :
  init url0 = Ok c →
  endswith (base_url c) "/" = false
  ∧ ∃ n, url0 = base_url c +:+ slashes n.
Proof.
  unfold Sitemap.init. destruct (urlparse _) as [p|e]; [| discriminate].
  intros [= <-]. cbn [base_url]. unfold rstrip_char, endswith.
  destruct (lstrip_char_spec (String.rev url0)) as (n & Hs & Hp).
  rewrite rev_involutive. split; [exact Hp |].
  exists n. rewrite <- (rev_involutive url0), Hs at 1.
  now rewrite rev_append, rev_slashes.
Qed.

(** X7.  [discover_sitemap_url] prefers what robots.txt announces; without
    an announcement it returns the first of the five common locations that
    answers with a non-empty body, and [None] when none of them does. *)
Theorem discover_sitemap_url_order (c : crawler) :
  (∀ u, announced c = Some u → discover_sitemap_url c = Some u)
  ∧ (announced c = None →
     ∀ l, discover_sitemap_url c = Some l ↔
          ∃ pre post, common_locations c = pre ++ l :: post
                      ∧ Forall (fun x => ¬ fetchable x) pre ∧ fetchable l)
  ∧ (announced c = None →
     (discover_sitemap_url c = None
      ↔ Forall (fun x => ¬ fetchable x) (common_locations c))).
Proof.
  rewrite discover_announced. split; [| split].
  - now intros u ->.
  - intros -> l. split; [apply first_fetchable_inv |].
    intros (pre & post & -> & Hpre & Hl). now apply first_fetchable_Some.
  - intros ->. split; [| apply first_fetchable_None].
    intros Hnone. apply Forall_forall. intros x Hx Hf.
    apply list_elem_of_split in Hx as (l1 & l2 & Hsplit).
    assert (Hex : Exists fetchable (common_locations c)).
    { rewrite Hsplit. apply Exists_app. right. now left. }
    clear Hsplit Hf l1 l2.
    induction (common_locations c) as [|y rest IH]; [inversion Hex |].
    simpl in Hnone. unfold fetch_url in Hnone at 1.
    destruct (nonempty (http_get y)) as [b|] eqn:E; [discriminate |].
    apply IH; [assumption |]. inversion Hex as [? ? Hy | ]; subst;
      [| assumption].
    destruct Hy as [? Hy]. unfold fetchable in *. congruence.
Qed.




End Facts.

Lemma init_strips_trailing_slashes_witness :
  init Demo.demo_urlparse "https://x.test//" = Ok Demo.demo_crawler
  ∧ endswith (base_url Demo.demo_crawler) "/" = false.
Proof.
  split; [reflexivity |].
  apply (init_strips_trailing_slashes Demo.demo_urlparse "https://x.test//"
           Demo.demo_crawler). reflexivity.
Defined.

(** A site whose robots.txt announces no sitemap and that serves one at
    the second common location. *)
Definition site_with_sitemap_index (u : string) : option string :=
  if String.eqb u "https://x.test/sitemap_index.xml" then Some "<index/>"
  else if String.eqb u "https://x.test/sitemaps/sitemap.xml"
       then Some "<pages/>"
  else None.

Lemma discover_sitemap_url_order_witness :
  discover_sitemap_url site_with_sitemap_index Demo.demo_crawler
  = Some "https://x.test/sitemap_index.xml".
Proof.
  destruct (discover_sitemap_url_order site_with_sitemap_index
              Demo.demo_crawler) as (_ & H & _).
  apply (H eq_refl).
  exists ["https://x.test/sitemap.xml"],
         ["https://x.test/sitemap/sitemap.xml";
          "https://x.test/sitemap/index.xml";
          "https://x.test/sitemaps/sitemap.xml"].
  split; [reflexivity |]. split.
  - constructor; [| constructor]. intros [b Hb]. discriminate Hb.
  - eexists. reflexivity.
Defined.

(** A site whose sitemap is announced and is not XML. *)
Definition site_with_broken_sitemap (u : string) : option string :=
  if String.eqb u "https://x.test/robots.txt"
  then Some "Sitemap: https://x.test/map.xml"
  else if String.eqb u "https://x.test/map.xml" then Some "<html>"
  else Demo.demo_pages u.


(** A site whose robots.txt ends in a [Sitemap:] line without a URL, and
    that serves a sitemap at the first common location. *)
Definition site_with_empty_announcement (u : string) : option string :=
  if String.eqb u "https://x.test/robots.txt"
  then Some ("User-agent: *" +:+ Demo.nl +:+ "Sitemap:" +:+ Demo.nl)
  else if String.eqb u "https://x.test/sitemap.xml" then Some "<pages/>"
  else Demo.demo_pages u.


(** A site whose robots.txt closes everything. *)
Definition closed_site (u : string) : option string :=
  if String.eqb u "https://x.test/robots.txt"
  then Some ("User-agent: *" +:+ Demo.nl +:+ "Disallow: /")
  else Demo.demo_pages u.


End SitemapFacts.

(* ===================================================================== *)
(** ** html_extractor.py: further properties *)
(* ===================================================================== *)

Module ExtractorFacts.
Import Extractor StringFacts.

Section Facts.

Variable http_get : string → option string.
Variable remove_boilerplate : string → string.
Variable extract_structured_content : string → result pyval.
Variable extract_metadata : string → string → result dict.
Variable combine_content : pyval → string.
Variable clean_text : string → string.

#[local] Abbreviation extract_from_url :=
  (Extractor.extract_from_url http_get remove_boilerplate
     extract_structured_content extract_metadata combine_content clean_text).
#[local] Abbreviation extract_from_urls :=
  (Extractor.extract_from_urls http_get remove_boilerplate
     extract_structured_content extract_metadata combine_content clean_text).

(** The fetch of [url] gave nothing: no answer with status 200, or an
    empty body. *)
Definition fetch_failed (url : string) : Prop :=
  http_get url = None ∨ http_get url = Some "".

Lemma extract_from_urls_Ok urls results :
  extract_from_urls urls = Ok results
  ↔ Forall2 (fun url r => extract_from_url url = Ok r) urls results.
Proof.
  revert results. induction urls as [|url rest IH]; intros results; simpl.
  - split; [intros [= <-]; constructor | now inversion 1].
  - destruct (extract_from_url url) as [r|e] eqn:E; simpl.
    + destruct (extract_from_urls rest) as [rs|e] eqn:Erest; simpl.
      * split.
        -- intros [= <-]. constructor; [assumption | now apply IH].
        -- inversion 1 as [|? r' ? rs' Hr Hrs]; subst.
           apply IH in Hrs. congruence.
      * split; [discriminate |].
        inversion 1 as [|? r' ? rs' Hr Hrs]; subst.
        apply IH in Hrs. discriminate.
    + split; [discriminate |].
      inversion 1 as [|? r' ? rs' Hr Hrs]; subst. congruence.
Qed.

Lemma extract_from_url_shape url r :
  extract_from_url url = Ok r →
  dict_lookup "url" r = Some (PStr url)
  ∧ (dict_has "error" r = true ↔ fetch_failed url)
  ∧ (dict_has "error" r = false → ∃ text, dict_lookup "text" r = Some text).
Proof.
  unfold Extractor.extract_from_url, fetch_failed.
  destruct (http_get url) as [html|] eqn:Hget.
  - destruct html as [|c s]; simpl.
    + intros [= <-]. repeat split; eauto; discriminate.
    + destruct (extract_structured_content _) as [sc|e]; simpl;
        [| discriminate].
      destruct (extract_metadata _ _) as [md|e]; simpl; [| discriminate].
      intros [= <-]. split; [reflexivity |]. split.
      * split; [discriminate | intros [H | H]; discriminate].
      * intros _. eexists. reflexivity.
  - intros [= <-]. repeat split; eauto; discriminate.
Qed.

(** X11.  [extract_from_urls] returns exactly when [extract_from_url]
    returns for every URL of the batch, and then with one result per URL,
    in the order of the URLs, each carrying its URL under ["url"]. *)
Theorem extract_from_urls_keeps_order (urls : list string)
  (results : list dict) :
  (extract_from_urls urls = Ok results
   ↔ Forall2 (fun url r => extract_from_url url = Ok r) urls results)
  ∧ (extract_from_urls urls = Ok results →
     length results = length urls
     ∧ ∀ i url r, urls !! i = Some url → results !! i = Some r →
                  dict_lookup "url" r = Some (PStr url)).
Proof.
  split; [apply extract_from_urls_Ok |].
  intros H. apply extract_from_urls_Ok in H. split.
  - symmetry. eapply Forall2_length; eauto.
  - intros i url r Hu Hr.
    destruct (Forall2_lookup_l _ _ _ _ _ H Hu) as (r' & Hr' & Hex).
    rewrite Hr in Hr'. injection Hr' as <-.
    now apply extract_from_url_shape in Hex.
Qed.


(** X13.  What [extract_from_url] returns carries the key ["error"]
    exactly when the fetch gave nothing; otherwise it carries the cleaned
    text under ["text"].  A failure of the HTML parser is not turned into
    such a result: it leaves [extract_from_url] as an exception. *)
Theorem extract_from_url_error_key (url : string) :
  (∀ r, extract_from_url url = Ok r →
        dict_lookup "url" r = Some (PStr url)
        ∧ (dict_has "error" r = true ↔ fetch_failed url)
        ∧ (dict_has "error" r = false →
           ∃ text, dict_lookup "text" r = Some text))
  ∧ (fetch_failed url → extract_from_url url = Ok (error_result url))
  ∧ (∀ html e, http_get url = Some html → truthy html = true →
               extract_structured_content (remove_boilerplate html)
               = Raise e →
               extract_from_url url = Raise e).
Proof.
  split; [apply extract_from_url_shape |]. split.
  - unfold Extractor.extract_from_url. now intros [-> | ->].
  - intros html e Hget Ht Hsc. unfold Extractor.extract_from_url.
    now rewrite Hget, Ht, Hsc.
Qed.

End Facts.

(** A parser that fails on the page of one URL. *)
Definition fragile_structured (html : string) : result pyval :=
  if String.eqb html "<broken>" then Raise (Exception "lxml")
  else Demo.demo_structured html.

Definition site_with_broken_page (u : string) : option string :=
  if String.eqb u "https://x.test/b" then Some "<broken>"
  else if String.eqb u "https://x.test/gone" then None
  else Demo.demo_online u.

Lemma extract_from_urls_keeps_order_witness :
  ∃ results,
    extract_from_urls site_with_broken_page Demo.demo_boilerplate
      Demo.demo_structured Demo.demo_metadata Demo.demo_combine
      Demo.demo_clean ["https://x.test/a"; "https://x.test/gone"]
    = Ok results
    ∧ length results = 2
    ∧ (dict_lookup "url" <$> results)
      = [Some (PStr "https://x.test/a"); Some (PStr "https://x.test/gone")].
Proof.
  eexists. split; [reflexivity |].
  match goal with
  | |- length ?rs = 2 ∧ _ =>
      destruct (extract_from_urls_keeps_order site_with_broken_page
                  Demo.demo_boilerplate Demo.demo_structured
                  Demo.demo_metadata Demo.demo_combine Demo.demo_clean
                  ["https://x.test/a"; "https://x.test/gone"] rs) as [_ H]
  end.
  destruct (H eq_refl) as [Hlen _]. split; [exact Hlen | reflexivity].
Defined.


Lemma extract_from_url_error_key_witness :
  extract_from_url site_with_broken_page Demo.demo_boilerplate
    fragile_structured Demo.demo_metadata Demo.demo_combine Demo.demo_clean
    "https://x.test/gone"
  = Ok (error_result "https://x.test/gone")
  ∧ extract_from_url site_with_broken_page Demo.demo_boilerplate
      fragile_structured Demo.demo_metadata Demo.demo_combine
      Demo.demo_clean "https://x.test/b"
    = Raise (Exception "lxml").
Proof.
  split.
  - destruct (extract_from_url_error_key site_with_broken_page
                Demo.demo_boilerplate fragile_structured Demo.demo_metadata
                Demo.demo_combine Demo.demo_clean "https://x.test/gone")
      as (_ & H & _).
    apply H. left. reflexivity.
  - destruct (extract_from_url_error_key site_with_broken_page
                Demo.demo_boilerplate fragile_structured Demo.demo_metadata
                Demo.demo_combine Demo.demo_clean "https://x.test/b")
      as (_ & _ & H).
    apply (H "<broken>"); reflexivity.
Defined.

(** *** [clean_text] *)

Import Text.

(** Every white-space character of the string is a plain space. *)
Definition only_plain_spaces (s : string) : Prop :=
  Forall (fun c => isspace c = true → c = " "%char) (chars s).

Lemma only_plain_spaces_cons c s :
  (isspace c = true → c = " "%char) → only_plain_spaces s →
  only_plain_spaces (String c s).
Proof. intros Hc Hs. now constructor. Qed.

Lemma sub_spaces_plain text : ∀ in_run,
  only_plain_spaces (sub_spaces in_run text).
Proof.
  induction text as [|c text IH]; intros in_run; simpl; [constructor |].
  destruct (isspace c) eqn:E.
  - destruct in_run; [apply IH |].
    apply only_plain_spaces_cons; [reflexivity | apply IH].
  - apply only_plain_spaces_cons; [congruence | apply IH].
Qed.

Lemma sub_entities_plain text : ∀ skip,
  only_plain_spaces text → only_plain_spaces (sub_entities skip text).
Proof.
  induction text as [|c text IH]; intros skip H; simpl; [constructor |].
  apply Forall_cons in H as [Hc H].
  destruct skip as [|k]; [| now apply IH].
  destruct (Ascii.eqb c "&").
  - destruct (entity_tail false text).
    + apply only_plain_spaces_cons; [reflexivity | now apply IH].
    + apply only_plain_spaces_cons; [assumption | now apply IH].
  - apply only_plain_spaces_cons; [assumption | now apply IH].
Qed.

Lemma lstrip_plain s : only_plain_spaces s → only_plain_spaces (lstrip s).
Proof.
  induction s as [|c s IH]; simpl; [trivial |].
  intros H. destruct (isspace c); [| assumption].
  apply Forall_cons in H as [_ H]. now apply IH.
Qed.

Lemma rev_plain s : only_plain_spaces s → only_plain_spaces (String.rev s).
Proof.
  unfold only_plain_spaces. rewrite chars_rev. apply Forall_rev.
Qed.

Lemma strip_plain s : only_plain_spaces s → only_plain_spaces (strip s).
Proof.
  intros H. unfold strip, rstrip.
  apply rev_plain, lstrip_plain, rev_plain, lstrip_plain, H.
Qed.

(** [lstrip] leaves a string that does not begin with white space. *)
Definition no_space_ahead (s : string) : Prop :=
  match s with
  | EmptyString => True
  | String c _ => isspace c = false
  end.

Lemma lstrip_no_space_ahead s : no_space_ahead (lstrip s).
Proof.
  induction s as [|c s IH]; simpl; [exact I |].
  destruct (isspace c) eqn:E; [exact IH | exact E].
Qed.

Lemma lstrip_fixed s : no_space_ahead s → lstrip s = s.
Proof. destruct s as [|c s]; simpl; [reflexivity | now intros ->]. Qed.

(** What [lstrip] leaves of a string that ends in a character that is not
    white space ends in that character. *)
Lemma lstrip_keeps_last s c :
  isspace c = false →
  ∃ t, lstrip (s +:+ String c EmptyString) = t +:+ String c EmptyString.
Proof.
  intros Hc. induction s as [|x s (t & IH)].
  - exists EmptyString. simpl. now rewrite Hc.
  - change (String x s +:+ String c "") with (String x (s +:+ String c "")).
    simpl. destruct (isspace x).
    + exists t. exact IH.
    + exists (String x s). reflexivity.
Qed.

Lemma rev_cons c s :
  String.rev (String c s) = String.rev s +:+ String c EmptyString.
Proof. exact (rev_append (String c EmptyString) s). Qed.

Lemma rev_snoc c s :
  String.rev (s +:+ String c EmptyString) = String c (String.rev s).
Proof. exact (rev_append s (String c EmptyString)). Qed.

Lemma rstrip_no_space_ahead s :
  no_space_ahead s → no_space_ahead (rstrip s).
Proof.
  destruct s as [|c s]; [intros _; exact I |]. simpl. intros Hc.
  unfold rstrip. rewrite rev_cons.
  destruct (lstrip_keeps_last (String.rev s) c Hc) as [t ->].
  rewrite rev_snoc. exact Hc.
Qed.

Lemma rstrip_fixed s : rstrip (rstrip s) = rstrip s.
Proof.
  unfold rstrip. rewrite rev_involutive.
  now rewrite (lstrip_fixed _ (lstrip_no_space_ahead _)).
Qed.

Lemma strip_fixed s : strip (strip s) = strip s.
Proof.
  unfold strip.
  rewrite (lstrip_fixed (rstrip (lstrip s))).
  - apply rstrip_fixed.
  - apply rstrip_no_space_ahead, lstrip_no_space_ahead.
Qed.

Lemma clean_text_plain text : only_plain_spaces (clean_text text).
Proof.
  unfold clean_text. destruct (negb (truthy text)); [constructor |].
  apply strip_plain, sub_entities_plain, sub_spaces_plain.
Qed.

Lemma clean_text_stripped text : strip (clean_text text) = clean_text text.
Proof.
  unfold clean_text. destruct (negb (truthy text)); [reflexivity |].
  apply strip_fixed.
Qed.

(** X14.  The text [clean_text] returns holds no white space but plain
    spaces: no newline, no tab, and no white space at its ends.  The blank
    lines that the first substitution normalises, and the ones
    [combine_content] puts between the parts, do not reach the result; so
    the text [extract_from_url] returns for a page is one line. *)
Theorem clean_text_has_plain_spaces_only
  (http_get : string → option string)
  (remove_boilerplate : string → string)
  (extract_structured_content : string → result pyval)
  (extract_metadata : string → string → result dict)
  (combine_content : pyval → string)
  (text url : string) :
  only_plain_spaces (clean_text text)
  ∧ strip (clean_text text) = clean_text text
  ∧ ¬ In newline (chars (clean_text text))
  ∧ ∀ r, extract_from_url http_get remove_boilerplate
           extract_structured_content extract_metadata combine_content
           clean_text url = Ok r →
         dict_has "error" r = false →
         ∃ t, dict_lookup "text" r = Some (PStr t)
              ∧ only_plain_spaces t ∧ strip t = t.
Proof.
  split; [apply clean_text_plain |].
  split; [apply clean_text_stripped |]. split.
  - intros Hin. pose proof (clean_text_plain text) as H.
    unfold only_plain_spaces in H. rewrite Forall_forall in H.
    apply list_elem_of_In in Hin. specialize (H _ Hin eq_refl).
    discriminate H.
  - unfold extract_from_url. intros r.
    destruct (http_get url) as [html|]; [| intros [= <-]; discriminate].
    destruct (negb (truthy html)); [intros [= <-]; discriminate |].
    destruct (extract_structured_content _) as [sc|e]; simpl;
      [| discriminate].
    destruct (extract_metadata _ _) as [md|e]; simpl; [| discriminate].
    intros [= <-] _. eexists. split; [reflexivity |].
    split; [apply clean_text_plain | apply clean_text_stripped].
Qed.

Lemma clean_text_has_plain_spaces_only_witness :
  clean_text ("# Title" +:+ Demo.nl +:+ Demo.nl
              +:+ "First &amp; second." +:+ Demo.nl)
  = "# Title First   second."
  ∧ ∃ r t,
      extract_from_url Demo.demo_online Demo.demo_boilerplate
        Demo.demo_structured Demo.demo_metadata Demo.demo_combine
        clean_text "https://x.test/a" = Ok r
      ∧ dict_lookup "text" r = Some (PStr t)
      ∧ only_plain_spaces t.
Proof.
  split; [reflexivity |].
  destruct (clean_text_has_plain_spaces_only Demo.demo_online
              Demo.demo_boilerplate Demo.demo_structured Demo.demo_metadata
              Demo.demo_combine "" "https://x.test/a") as (_ & _ & _ & H).
  destruct (H _ eq_refl eq_refl) as (t & Ht & Hp & _).
  eexists _, t. split; [reflexivity |]. split; [exact Ht | exact Hp].
Defined.

End ExtractorFacts.

(* ===================================================================== *)
(** ** crawler_manager.py: what every history keeps *)
(* ===================================================================== *)

Module ManagerFacts.
Import Extractor Manager.

(** *** The effects of the manager on its state *)

(** Everything the manager and its pipelines do to the state is made of
    these steps.  An attribute assignment leaves the id of the job alone;
    an id enters the active set only under the cap. *)
Inductive effect : World → World → Prop :=
| eff_update r f w :
    (∀ j, job_id (f j) = job_id j) → effect w (update_job r f w)
| eff_save r w : effect w (_save_job_metadata r w)
| eff_object j w : effect w (set_heap (heap w ++ [j]) w)
| eff_register m w : effect w (set_jobs m w)
| eff_activate id w :
    size (active_jobs w) < max_concurrent_jobs w →
    effect w (set_active_jobs ({[ id ]} ∪ active_jobs w) w)
| eff_deactivate id w :
    effect w (set_active_jobs (active_jobs w ∖ {[ id ]}) w)
| eff_tasks ts w : effect w (set_tasks ts w)
| eff_content c w : effect w (set_content_files c w)
| eff_upsert u doc wid now w :
    effect w (set_pages (upsert_page u doc wid now (pages w)) w)
| eff_log batch w : effect w (log_request batch w)
| eff_restart seed w : effect w (restart seed w).

Definition effects : World → World → Prop := rtc effect.

Create HintDb eff discriminated.

Lemma effects_refl w : effects w w.
Proof. apply rtc_refl. Qed.

Lemma effects_step w0 w w' : effects w0 w → effect w w' → effects w0 w'.
Proof. intros H1 H2. eapply rtc_r; eauto. Qed.

Lemma effects_trans w0 w1 w2 : effects w0 w1 → effects w1 w2 → effects w0 w2.
Proof. unfold effects. intros H1 H2. etrans; eassumption. Qed.

Lemma effects_update w0 r f w :
  (∀ j, job_id (f j) = job_id j) →
  effects w0 w → effects w0 (update_job r f w).
Proof. intros Hf H. eapply effects_step; [exact H | now constructor]. Qed.

Lemma effects_save w0 r w : effects w0 w → effects w0 (_save_job_metadata r w).
Proof. intros H. eapply effects_step; [exact H | constructor]. Qed.

Lemma effects_object w0 j w :
  effects w0 w → effects w0 (set_heap (heap w ++ [j]) w).
Proof. intros H. eapply effects_step; [exact H | constructor]. Qed.

Lemma effects_register w0 m w : effects w0 w → effects w0 (set_jobs m w).
Proof. intros H. eapply effects_step; [exact H | constructor]. Qed.

Lemma effects_activate w0 id w :
  size (active_jobs w) < max_concurrent_jobs w →
  effects w0 w → effects w0 (set_active_jobs ({[ id ]} ∪ active_jobs w) w).
Proof. intros Hc H. eapply effects_step; [exact H | now constructor]. Qed.

Lemma effects_deactivate w0 id w :
  effects w0 w → effects w0 (set_active_jobs (active_jobs w ∖ {[ id ]}) w).
Proof. intros H. eapply effects_step; [exact H | constructor]. Qed.

Lemma effects_tasks w0 ts w : effects w0 w → effects w0 (set_tasks ts w).
Proof. intros H. eapply effects_step; [exact H | constructor]. Qed.

Lemma effects_create_task w0 e r w :
  effects w0 w → effects w0 (create_task e r w).
Proof. apply effects_tasks. Qed.

Lemma effects_content w0 c w :
  effects w0 w → effects w0 (set_content_files c w).
Proof. intros H. eapply effects_step; [exact H | constructor]. Qed.

Lemma effects_upsert w0 u doc wid now w :
  effects w0 w →
  effects w0 (set_pages (upsert_page u doc wid now (pages w)) w).
Proof. intros H. eapply effects_step; [exact H | constructor]. Qed.

Lemma effects_log w0 batch w : effects w0 w → effects w0 (log_request batch w).
Proof. intros H. eapply effects_step; [exact H | constructor]. Qed.

Lemma effects_restart w0 seed w : effects w0 w → effects w0 (restart seed w).
Proof. intros H. eapply effects_step; [exact H | constructor]. Qed.

Lemma keeps_id_set_status s j : job_id (set_status s j) = job_id j.
Proof. reflexivity. Qed.
Lemma keeps_id_set_start_time t j : job_id (set_start_time t j) = job_id j.
Proof. reflexivity. Qed.
Lemma keeps_id_set_end_time t j : job_id (set_end_time t j) = job_id j.
Proof. reflexivity. Qed.
Lemma keeps_id_set_total_urls n j : job_id (set_total_urls n j) = job_id j.
Proof. reflexivity. Qed.
Lemma keeps_id_append_error m j : job_id (append_error m j) = job_id j.
Proof. reflexivity. Qed.
Lemma keeps_id_record_failure m j : job_id (record_failure m j) = job_id j.
Proof. reflexivity. Qed.
Lemma keeps_id_record_success j : job_id (record_success j) = job_id j.
Proof. reflexivity. Qed.

#[local] Hint Resolve keeps_id_set_status keeps_id_set_start_time
  keeps_id_set_end_time keeps_id_set_total_urls keeps_id_append_error
  keeps_id_record_failure keeps_id_record_success : eff.
#[local] Hint Resolve effects_update effects_save effects_object
  effects_register effects_deactivate effects_tasks effects_create_task
  effects_content effects_upsert effects_log effects_restart : eff.

Lemma effects_create_job w0 id wid wurl smap w :
  effects w0 w → effects w0 (create_job id wid wurl smap w).2.
Proof. intros H. unfold create_job. simpl. auto with eff. Qed.

Lemma effects_start_job w0 now id w :
  effects w0 w → effects w0 (start_job now id w).2.
Proof.
  intros H. unfold start_job.
  destruct (get_job w id) as [[r j]|]; [| exact H].
  destruct (String.eqb _ _); [exact H |].
  destruct (_ <=? _) eqn:Hcap; [exact H |]. apply Nat.leb_gt in Hcap.
  cbv zeta. cbn [snd]. apply effects_create_task, effects_save.
  apply (effects_activate w0 id
           (update_job r (set_start_time now)
              (update_job r (set_status "running") w)));
    [exact Hcap | auto with eff].
Qed.

Lemma effects_stop_job w0 now id w :
  effects w0 w → effects w0 (stop_job now id w).2.
Proof.
  intros H. unfold stop_job.
  destruct (get_job w id) as [[r j]|]; [| exact H].
  destruct (negb _); [exact H |].
  cbv zeta. case_bool_decide; cbn [snd].
  - apply effects_save.
    apply (effects_deactivate w0 id
             (update_job r (set_end_time now)
                (update_job r (set_status "stopped") w))).
    auto with eff.
  - auto with eff.
Qed.

Lemma effects_resume_job w0 id w :
  effects w0 w → effects w0 (resume_job id w).2.
Proof.
  intros H. unfold resume_job.
  destruct (get_job w id) as [[r j]|]; [| exact H].
  destruct (negb _); [exact H |].
  destruct (_ <=? _) eqn:Hcap; [exact H |]. apply Nat.leb_gt in Hcap.
  cbv zeta. cbn [snd]. apply effects_create_task, effects_save.
  apply (effects_activate w0 id (update_job r (set_status "running") w));
    [exact Hcap | auto with eff].
Qed.

Lemma effects_load_files w0 files : ∀ w,
  effects w0 w → effects w0 (foldl load_one w files).
Proof.
  induction files as [|f files IH]; intros w H; simpl; [exact H |].
  apply IH. unfold load_one. auto with eff.
Qed.

Lemma effects_load_jobs w0 w : effects w0 w → effects w0 (load_jobs w).
Proof. apply effects_load_files. Qed.

Section Pipeline.

Variable py_hash : nat → string → Z.
Variable remove_boilerplate : string → string.
Variable extract_structured_content : string → result pyval.
Variable extract_metadata : string → string → result dict.
Variable combine_content : pyval → string.
Variable clean_text : string → string.

#[local] Abbreviation _save_content := (Manager._save_content py_hash).
#[local] Abbreviation task_step :=
  (Manager.task_step py_hash remove_boilerplate extract_structured_content
                     extract_metadata combine_content clean_text).
#[local] Abbreviation perform :=
  (Manager.perform py_hash remove_boilerplate extract_structured_content
                   extract_metadata combine_content clean_text).
#[local] Abbreviation run :=
  (Manager.run py_hash remove_boilerplate extract_structured_content
               extract_metadata combine_content clean_text).

Lemma effects_save_content w0 io wid doc now w :
  effects w0 w → effects w0 (_save_content io wid doc now w).
Proof.
  intros H. unfold Manager._save_content.
  destruct (dict_lookup "url" doc) as [[| u | | |]|]; try exact H.
  destruct (disk_ok io); [| exact H].
  destruct (db_ok io); [| auto with eff].
  apply (effects_upsert w0 u doc wid now
           (set_content_files
              (<[wid := <[py_hash (hash_seed w) u := doc]>
                          (default ∅ (content_files w !! wid))]>
                 (content_files w)) w)).
  auto with eff.
Qed.

Lemma effects_finally_block w0 r w :
  effects w0 w → effects w0 (finally_block r w).
Proof.
  intros H. unfold finally_block.
  destruct (heap w !! r); [| exact H].
  case_bool_decide; auto with eff.
Qed.

Lemma effects_leave w0 t w : effects w0 w → effects w0 (leave t w).2.
Proof.
  intros H. unfold leave. simpl.
  destruct (nested t); auto using effects_finally_block.
Qed.

Lemma effects_complete w0 now t w :
  effects w0 w → effects w0 (complete now t w).2.
Proof.
  intros H. unfold complete. apply effects_leave.
  destruct (is_running _ _); auto with eff.
Qed.

Lemma effects_fail w0 now msg t w :
  effects w0 w → effects w0 (fail now msg t w).2.
Proof. intros H. unfold fail. apply effects_leave. auto 10 with eff. Qed.

Lemma effects_batch_loop w0 now urls i t w :
  effects w0 w → effects w0 (batch_loop now urls i t w).2.
Proof.
  intros H. unfold batch_loop.
  destruct (i <? length urls); [| now apply effects_complete].
  destruct (negb _); [now apply effects_complete | simpl; auto with eff].
Qed.

Lemma effects_results_loop w0 now urls i rs t : ∀ w,
  effects w0 w → effects w0 (results_loop now urls i rs t w).2.
Proof.
  induction rs as [|r rs IH]; intros w H; simpl.
  - now apply effects_batch_loop.
  - destruct (negb _); [now apply effects_batch_loop |].
    destruct (dict_has "error" r); [| exact H].
    apply IH. auto with eff.
Qed.

Lemma effects_task_step w0 now ev t w :
  effects w0 w → effects w0 (task_step now ev t w).2.
Proof.
  intros H. unfold Manager.task_step.
  destruct (at_pc t) as [| seen | urls i | urls i r rest |]; destruct ev;
    try exact H.
  - destruct (entry t); [exact H |].
    destruct (heap w !! job_ref t); [| exact H].
    destruct (0 <? _); exact H.
  - destruct r as [urls_data | e]; [| now apply effects_fail].
    destruct seen; apply effects_batch_loop; auto with eff.
  - destruct (extract_from_urls _ _ _ _ _ _ _);
      [now apply effects_results_loop | now apply effects_fail].
  - apply effects_results_loop.
    auto using effects_save_content with eff.
Qed.

Lemma effects_perform now a w : effects w (perform now a w).
Proof.
  pose proof (effects_refl w) as H. destruct a; simpl.
  - now apply effects_create_job.
  - now apply effects_start_job.
  - now apply effects_stop_job.
  - now apply effects_resume_job.
  - now apply effects_load_jobs.
  - now apply effects_restart.
  - destruct (tasks w !! k) as [t|]; [| exact H].
    pose proof (effects_task_step w now ev t w H) as H'.
    destruct (task_step now ev t w) as [t' w']. simpl in H'.
    now apply effects_tasks.
Qed.

Lemma effects_run history : ∀ w, effects w (run history w).
Proof.
  induction history as [|[now a] history IH]; intros w; simpl;
    [apply effects_refl |].
  eapply effects_trans; [apply effects_perform | apply IH].
Qed.

(** A property of the state that every effect keeps holds after every
    history. *)
Lemma kept_by_run (P : World → Prop) history w :
  (∀ w w', effect w w' → P w → P w') → P w → P (run history w).
Proof.
  intros Hkeep H. pose proof (effects_run history w) as Hrun.
  induction Hrun as [|w1 w2 w3 Hstep _ IH]; [exact H |].
  apply IH. eapply Hkeep; eauto.
Qed.

End Pipeline.

(** *** The cap on the active set *)

Definition under_cap (w : World) : Prop :=
  max_concurrent_jobs w = 3 ∧ size (active_jobs w) ≤ max_concurrent_jobs w.

Lemma under_cap_kept w w' : effect w w' → under_cap w → under_cap w'.
Proof.
  intros Heff [Hmax Hsize].
  destruct Heff as [r f w _ | r w | j w | m w | id w Hcap | id w | ts w
                   | c w | u doc wid now w | batch w | seed w];
    unfold under_cap; try (split; assumption).
  - unfold _save_job_metadata. destruct (heap w !! r); now split.
  - split; [assumption |]. simpl.
    rewrite size_union_alt, size_singleton.
    assert (Hsub : active_jobs w ∖ {[id]} ⊆ active_jobs w) by set_solver.
    apply subseteq_size in Hsub. lia.
  - split; [assumption |]. simpl. etrans; [| exact Hsize].
    apply subseteq_size. set_solver.
  - split; [reflexivity |]. cbn [restart active_jobs max_concurrent_jobs].
    rewrite size_empty. lia.
Qed.

(** *** The rows of the [pages] table *)

Definition pages_distinct (ps : list Page) : Prop :=
  NoDup (page_url <$> ps) ∧ NoDup (page_id <$> ps).

Lemma get_by_url_None u ps :
  get_by_url u ps = None → u ∉ page_url <$> ps.
Proof.
  unfold get_by_url. induction ps as [|p ps IH]; simpl.
  - intros _. apply not_elem_of_nil.
  - destruct (String.eqb (page_url p) u) eqn:E; [discriminate |].
    intros H. apply not_elem_of_cons. split; [| now apply IH].
    apply String.eqb_neq in E. congruence.
Qed.

Lemma next_page_id_fresh ps : ∀ p, p ∈ ps → page_id p < next_page_id ps.
Proof.
  unfold next_page_id. induction ps as [|q ps IH]; intros p Hp.
  - now apply elem_of_nil in Hp.
  - rewrite fmap_cons. cbn [foldr].
    pose proof (Nat.le_max_l (page_id q) (foldr Nat.max 0 (page_id <$> ps))).
    pose proof (Nat.le_max_r (page_id q) (foldr Nat.max 0 (page_id <$> ps))).
    apply elem_of_cons in Hp as [-> | Hp]; [lia |].
    specialize (IH p Hp). lia.
Qed.

Lemma page_create_distinct u t c wid now ps :
  u ∉ page_url <$> ps → pages_distinct ps →
  pages_distinct (page_create u t c wid now ps).
Proof.
  intros Hu [Hurls Hids]. unfold page_create, pages_distinct.
  rewrite !fmap_app. simpl. split.
  - apply NoDup_app. repeat split; [assumption | | apply NoDup_singleton].
    intros x Hx Hx'. apply list_elem_of_singleton in Hx' as ->. auto.
  - apply NoDup_app. repeat split; [assumption | | apply NoDup_singleton].
    intros x Hx Hx'. apply list_elem_of_singleton in Hx' as ->.
    apply list_elem_of_fmap in Hx as (p & Hp & Hin).
    apply next_page_id_fresh in Hin. lia.
Qed.

(** [PageRepository.update] changes neither the URLs nor the ids. *)
Lemma page_update_columns id t c now ps :
  page_url <$> page_update id t c now ps = page_url <$> ps
  ∧ page_id <$> page_update id t c now ps = page_id <$> ps.
Proof.
  unfold page_update.
  destruct (List.find _ ps) as [p|]; [| now split].
  induction ps as [|q ps [IH1 IH2]]; [now split |].
  simpl. destruct (Nat.eqb (page_id q) id); simpl; [now split |].
  split; f_equal; assumption.
Qed.

Lemma upsert_page_distinct u doc wid now ps :
  pages_distinct ps → pages_distinct (upsert_page u doc wid now ps).
Proof.
  intros H. unfold upsert_page.
  destruct (get_by_url u ps) as [p|] eqn:E.
  - unfold pages_distinct.
    destruct (page_update_columns (page_id p) (dict_get "title" doc)
                (dict_get "content" doc) now ps) as [-> ->].
    exact H.
  - apply page_create_distinct; [now apply get_by_url_None | exact H].
Qed.

Lemma pages_distinct_kept w w' :
  effect w w' → pages_distinct (pages w) → pages_distinct (pages w').
Proof.
  intros Heff H. destruct Heff; try exact H.
  - unfold _save_job_metadata. now destruct (heap w !! r).
  - now apply upsert_page_distinct.
Qed.

(** *** The records of the jobs directory *)

Definition filed_by_id (w : World) : Prop :=
  ∀ id j, job_files w !! id = Some j → job_id j = id.

Lemma filed_by_id_kept w w' : effect w w' → filed_by_id w → filed_by_id w'.
Proof.
  intros Heff H. destruct Heff; try exact H.
  unfold _save_job_metadata. destruct (heap w !! r) as [j|]; [| exact H].
  intros id j'. simpl. destruct (decide (job_id j = id)) as [<- | Hne].
  - rewrite lookup_insert_eq. now intros [= <-].
  - rewrite lookup_insert_ne by assumption. apply H.
Qed.

Lemma find_list_find (id : string) (l : list (string * CrawlerJob)) :
  List.find (fun f => String.eqb f.1 id) l
  = snd <$> list_find (fun f => f.1 = id) l.
Proof.
  induction l as [|g l IH]; [reflexivity |]. simpl.
  destruct (decide (g.1 = id)) as [E | E].
  - apply String.eqb_eq in E. now rewrite E.
  - apply String.eqb_neq in E. rewrite E, IH.
    now destruct (list_find _ l) as [[n x]|].
Qed.

(** What [load_jobs] builds from the files [files], read in this order by
    a manager that holds no job. *)
Lemma load_files_registry files : ∀ w,
  heap w = [] → jobs w = ∅ →
  NoDup files.*1 →
  Forall (fun f => job_id f.2 = f.1) files →
  ∀ id, snd <$> get_job (foldl load_one w files) id
        = snd <$> List.find (fun f => String.eqb f.1 id) files.
Proof.
  intros w Hheap Hjobs Hnd Hids.
  assert (Hgen : ∀ todo done w',
    heap w' = done.*2 →
    (∀ id, jobs w' !! id
           = fst <$> list_find (fun f => f.1 = id) done) →
    NoDup (done ++ todo).*1 →
    Forall (fun f => job_id f.2 = f.1) todo →
    ∀ id, snd <$> get_job (foldl load_one w' todo) id
          = snd <$> List.find (fun f => String.eqb f.1 id) (done ++ todo)).
  { induction todo as [|f todo IH]; intros done w' Hh Hj Hnd' Hids' id.
    - simpl. rewrite app_nil_r, find_list_find. unfold get_job.
      rewrite Hj, Hh.
      destruct (list_find (λ f, f.1 = id) done) as [[n x]|] eqn:F;
        [| reflexivity].
      apply list_find_Some in F as (Hl & _). simpl.
      rewrite list_lookup_fmap, Hl. reflexivity.
    - simpl. apply Forall_cons in Hids' as [Hf Hids'].
      replace (done ++ f :: todo) with ((done ++ [f]) ++ todo)
        by now rewrite <- app_assoc.
      apply IH.
      + unfold load_one. simpl. rewrite Hh, fmap_app. reflexivity.
      + intros id'. unfold load_one. simpl. rewrite Hf, Hh.
        rewrite length_fmap.
        destruct (decide (f.1 = id')) as [<- | Hne].
        * rewrite lookup_insert_eq.
          assert (Hnot : list_find (λ g, g.1 = f.1) done = None).
          { apply list_find_None. apply Forall_forall. intros g Hg Heq.
            rewrite fmap_app in Hnd'.
            apply NoDup_app in Hnd' as (_ & Hd & _).
            apply (Hd g.1); [apply list_elem_of_fmap; eauto |].
            rewrite Heq. simpl. left. }
          rewrite list_find_app_r by exact Hnot. simpl.
          rewrite decide_True by reflexivity. simpl.
          rewrite ?Nat.add_0_r. reflexivity.
        * rewrite lookup_insert_ne by assumption. rewrite Hj.
          destruct (list_find (λ g, g.1 = id') done) as [[n x]|] eqn:F.
          -- now rewrite (list_find_app_l _ _ _ _ _ F).
          -- rewrite list_find_app_r by exact F. simpl.
             now rewrite decide_False by assumption.
      + now rewrite <- app_assoc.
      + exact Hids'. }
  intros id. apply (Hgen files [] w); [exact Hheap | | exact Hnd | exact Hids].
  intros id'. now rewrite Hjobs, lookup_empty.
Qed.

(** X16.  The active set never holds more ids than the cap of three,
    whatever the manager is asked to do and however its pipelines
    interleave, across restarts. *)
Theorem active_jobs_stay_under_cap
  (py_hash : nat → string → Z)
  (remove_boilerplate : string → string)
  (extract_structured_content : string → result pyval)
  (extract_metadata : string → string → result dict)
  (combine_content : pyval → string)
  (clean_text : string → string)
  (history : list (nat * action)) :
  size (active_jobs
          (run py_hash remove_boilerplate extract_structured_content
               extract_metadata combine_content clean_text history
               init_world)) ≤ 3.
Proof.
  destruct (kept_by_run py_hash remove_boilerplate
              extract_structured_content extract_metadata combine_content
              clean_text under_cap history init_world under_cap_kept)
    as [Hmax Hsize].
  - split; [reflexivity |]. cbn [init_world active_jobs max_concurrent_jobs].
    rewrite size_empty. lia.
  - now rewrite Hmax in Hsize.
Qed.

(** X17.  The [pages] table never holds two rows with the same URL, nor
    two rows with the same id, whatever pages the pipelines save and
    however often. *)
Theorem pages_have_distinct_urls
  (py_hash : nat → string → Z)
  (remove_boilerplate : string → string)
  (extract_structured_content : string → result pyval)
  (extract_metadata : string → string → result dict)
  (combine_content : pyval → string)
  (clean_text : string → string)
  (history : list (nat * action)) :
  NoDup (page_url <$>
           pages (run py_hash remove_boilerplate extract_structured_content
                      extract_metadata combine_content clean_text history
                      init_world))
  ∧ NoDup (page_id <$>
             pages (run py_hash remove_boilerplate
                        extract_structured_content extract_metadata
                        combine_content clean_text history init_world)).
Proof.
  apply (kept_by_run py_hash remove_boilerplate extract_structured_content
           extract_metadata combine_content clean_text
           (fun w => pages_distinct (pages w)) history init_world
           pages_distinct_kept).
  split; constructor.
Qed.

(** X18.  A restart loses no job: after a new manager has called
    [load_jobs], [get_job] finds under every id the last record written
    for it, and nothing under an id without a record.  The active set is
    empty and no pipeline is queued, also for the jobs whose record says
    ["running"]. *)
Theorem load_jobs_restores_records
  (py_hash : nat → string → Z)
  (remove_boilerplate : string → string)
  (extract_structured_content : string → result pyval)
  (extract_metadata : string → string → result dict)
  (combine_content : pyval → string)
  (clean_text : string → string)
  (history : list (nat * action)) (seed : nat) (id : string) :
  snd <$> get_job
            (load_jobs
               (restart seed
                  (run py_hash remove_boilerplate extract_structured_content
                       extract_metadata combine_content clean_text history
                       init_world))) id
  = job_files (run py_hash remove_boilerplate extract_structured_content
                   extract_metadata combine_content clean_text history
                   init_world) !! id
  ∧ active_jobs
      (load_jobs
         (restart seed
            (run py_hash remove_boilerplate extract_structured_content
                 extract_metadata combine_content clean_text history
                 init_world))) = ∅
  ∧ tasks
      (load_jobs
         (restart seed
            (run py_hash remove_boilerplate extract_structured_content
                 extract_metadata combine_content clean_text history
                 init_world))) = [].
Proof.
  set (w := run py_hash remove_boilerplate extract_structured_content
                extract_metadata combine_content clean_text history
                init_world).
  assert (Hfiled : filed_by_id w).
  { apply (kept_by_run py_hash remove_boilerplate extract_structured_content
             extract_metadata combine_content clean_text filed_by_id history
             init_world filed_by_id_kept).
    intros id' j. simpl. now rewrite lookup_empty. }
  assert (Hframe : ∀ files w0,
            active_jobs (foldl load_one w0 files) = active_jobs w0
            ∧ tasks (foldl load_one w0 files) = tasks w0).
  { induction files as [|f files IH]; intros w0; [now split |].
    simpl. destruct (IH (load_one w0 f)) as [-> ->]. now split. }
  split; [| apply (Hframe (map_to_list (job_files w)) (restart seed w))].
  unfold load_jobs. cbn [restart job_files].
  rewrite (load_files_registry (map_to_list (job_files w)) (restart seed w)
             eq_refl eq_refl).
  - destruct (job_files w !! id) as [j|] eqn:E.
    + apply elem_of_map_to_list in E.
      assert (Hfind : ∃ f, List.find (λ f, String.eqb f.1 id)
                             (map_to_list (job_files w)) = Some f).
      { destruct (List.find _ _) as [f|] eqn:F; [eauto |].
        apply list_elem_of_In in E.
        pose proof (find_none _ _ F _ E) as Hn. simpl in Hn.
        now rewrite String.eqb_refl in Hn. }
      destruct Hfind as [[id' j'] Hf]. rewrite Hf. simpl.
      apply find_some in Hf as [Hin Heq]. simpl in Heq.
      apply String.eqb_eq in Heq as ->.
      apply list_elem_of_In, elem_of_map_to_list in Hin.
      apply elem_of_map_to_list in E. congruence.
    + destruct (List.find _ _) as [[id' j']|] eqn:F; [| reflexivity].
      apply find_some in F as [Hin Heq]. simpl in Heq.
      apply String.eqb_eq in Heq as ->.
      apply list_elem_of_In, elem_of_map_to_list in Hin. congruence.
  - apply NoDup_fst_map_to_list.
  - apply Forall_forall. intros [id' j'] Hin.
    apply elem_of_map_to_list in Hin. simpl. now apply Hfiled.
Qed.

End ManagerFacts.

(* ===================================================================== *)
(** ** crawler_manager.py: the steps of a pipeline *)
(* ===================================================================== *)

Module PipelineFacts.
Import ManagerProps ResumeProps.
Import Extractor Manager.

(** *** [PageRepository.update] *)

(** The loop of [page_update]: the first row with the id is rewritten. *)
Definition update_first (id : nat) (t c : pyval) (now : nat)
  : list Page → list Page :=
  fix go (l : list Page) : list Page :=
    match l with
    | [] => []
    | p :: l' =>
        if Nat.eqb (page_id p) id
        then mkPage (page_id p) (page_url p) t c (page_website_id p)
                    (Some now) (is_indexed p) :: l'
        else p :: go l'
    end.

Lemma update_first_absent id t c now l :
  List.find (fun p => Nat.eqb (page_id p) id) l = None →
  update_first id t c now l = l.
Proof.
  induction l as [|p l IH]; simpl; [reflexivity |].
  destruct (Nat.eqb (page_id p) id); [discriminate |].
  intros H. now rewrite IH.
Qed.

Lemma page_update_first id t c now ps :
  page_update id t c now ps = update_first id t c now ps.
Proof.
  unfold page_update.
  destruct (List.find _ ps) eqn:E; [reflexivity |].
  symmetry. now apply update_first_absent.
Qed.

Lemma get_by_url_Some u ps p :
  get_by_url u ps = Some p → page_url p = u ∧ p ∈ ps.
Proof.
  unfold get_by_url. intros H. apply find_some in H as [Hin Hu].
  apply String.eqb_eq in Hu. split; [assumption | now apply list_elem_of_In].
Qed.

Lemma update_first_row u id t c now ps p :
  NoDup (page_id <$> ps) →
  get_by_url u ps = Some p → page_id p = id →
  get_by_url u (update_first id t c now ps)
  = Some (mkPage id u t c (page_website_id p) (Some now) (is_indexed p))
  ∧ length (update_first id t c now ps) = length ps
  ∧ ∀ u', u' ≠ u →
          get_by_url u' (update_first id t c now ps) = get_by_url u' ps.
Proof.
  intros Hnd Hget <-. unfold get_by_url in *.
  induction ps as [|q ps IH]; [discriminate |].
  rewrite fmap_cons in Hnd. apply NoDup_cons in Hnd as [Hq Hnd].
  simpl in Hget. simpl.
  destruct (String.eqb (page_url q) u) eqn:Eu.
  - injection Hget as <-. rewrite Nat.eqb_refl. simpl. rewrite Eu.
    apply String.eqb_eq in Eu. rewrite Eu. repeat split.
    intros u' Hne. apply String.eqb_neq in Hne.
    rewrite String.eqb_sym in Hne. now rewrite Hne.
  - assert (Hin : p ∈ ps).
    { apply find_some in Hget as [Hin _]. now apply list_elem_of_In. }
    destruct (Nat.eqb (page_id q) (page_id p)) eqn:Eid.
    + apply Nat.eqb_eq in Eid. exfalso. apply Hq. rewrite Eid.
      apply list_elem_of_fmap. eauto.
    + destruct (IH Hnd Hget) as (H1 & H2 & H3). simpl. rewrite Eu.
      repeat split; [assumption | now rewrite H2 |].
      intros u' Hne. destruct (String.eqb (page_url q) u');
        [reflexivity | now apply H3].
Qed.

(** *** What a step leaves alone *)

(** From [w] to [w'] nothing was stored: the content directory and the
    [pages] table are the same, records of the jobs directory were only
    added to the history, and the job object [r] has the same count of
    successes. *)
Definition stores_nothing (r : nat) (w w' : World) : Prop :=
  content_files w' = content_files w
  ∧ pages w' = pages w
  ∧ (∃ more, checkpoints w' = checkpoints w ++ more)
  ∧ (∀ j, heap w !! r = Some j →
          ∃ j', heap w' !! r = Some j'
                ∧ successful_urls j' = successful_urls j).

Lemma stores_nothing_refl r w : stores_nothing r w w.
Proof.
  repeat split; [exists []; now rewrite app_nil_r | eauto].
Qed.

Lemma stores_nothing_trans r w1 w2 w3 :
  stores_nothing r w1 w2 → stores_nothing r w2 w3 → stores_nothing r w1 w3.
Proof.
  intros (Hc & Hp & [m Hm] & Hj) (Hc' & Hp' & [m' Hm'] & Hj').
  repeat split; [congruence | congruence | |].
  - exists (m ++ m'). now rewrite Hm', Hm, app_assoc.
  - intros j H. destruct (Hj j H) as (j1 & H1 & Hs1).
    destruct (Hj' j1 H1) as (j2 & H2 & Hs2). exists j2.
    split; [assumption | congruence].
Qed.

Lemma stores_nothing_update r f w :
  (∀ j, successful_urls (f j) = successful_urls j) →
  stores_nothing r w (update_job r f w).
Proof.
  intros Hf. repeat split; [exists []; now rewrite app_nil_r |].
  intros j Hj. exists (f j). split; [now apply lookup_update_job | apply Hf].
Qed.

Lemma stores_nothing_save r r' w :
  stores_nothing r w (_save_job_metadata r' w).
Proof.
  unfold _save_job_metadata.
  destruct (heap w !! r') as [j|]; [| apply stores_nothing_refl].
  repeat split; simpl; eauto.
Qed.

Lemma stores_nothing_finally r w : stores_nothing r w (finally_block r w).
Proof.
  unfold finally_block.
  destruct (heap w !! r) as [j|] eqn:E; [| apply stores_nothing_refl].
  eapply stores_nothing_trans; [| apply stores_nothing_save].
  case_bool_decide; [| apply stores_nothing_refl].
  repeat split; simpl; [exists []; now rewrite app_nil_r | eauto].
Qed.

Lemma stores_nothing_leave t w : stores_nothing (job_ref t) w (leave t w).2.
Proof.
  unfold leave. simpl. destruct (nested t).
  - eapply stores_nothing_trans; apply stores_nothing_finally.
  - apply stores_nothing_finally.
Qed.

Lemma stores_nothing_complete now t w :
  stores_nothing (job_ref t) w (complete now t w).2.
Proof.
  unfold complete.
  eapply stores_nothing_trans; [| apply stores_nothing_leave].
  destruct (is_running _ _); [| apply stores_nothing_refl].
  eapply stores_nothing_trans; now apply stores_nothing_update.
Qed.

Lemma stores_nothing_fail now msg t w :
  stores_nothing (job_ref t) w (fail now msg t w).2.
Proof.
  unfold fail.
  eapply stores_nothing_trans; [| apply stores_nothing_leave].
  eapply stores_nothing_trans;
    [eapply stores_nothing_trans |]; now apply stores_nothing_update.
Qed.

Lemma stores_nothing_batch_loop now urls i t w :
  stores_nothing (job_ref t) w (batch_loop now urls i t w).2.
Proof.
  unfold batch_loop.
  destruct (i <? length urls); [| apply stores_nothing_complete].
  destruct (negb _); [apply stores_nothing_complete |].
  repeat split; simpl; [exists []; now rewrite app_nil_r | eauto].
Qed.

Section Steps.

Variable py_hash : nat → string → Z.
Variable remove_boilerplate : string → string.
Variable extract_structured_content : string → result pyval.
Variable extract_metadata : string → string → result dict.
Variable combine_content : pyval → string.
Variable clean_text : string → string.

#[local] Abbreviation extract_from_url web :=
  (Extractor.extract_from_url web remove_boilerplate
     extract_structured_content extract_metadata combine_content clean_text).
#[local] Abbreviation extract_from_urls web :=
  (Extractor.extract_from_urls web remove_boilerplate
     extract_structured_content extract_metadata combine_content clean_text).
#[local] Abbreviation _save_content := (Manager._save_content py_hash).
#[local] Abbreviation results_loop := (Manager.results_loop).
#[local] Abbreviation task_step :=
  (Manager.task_step py_hash remove_boilerplate extract_structured_content
                     extract_metadata combine_content clean_text).
#[local] Abbreviation run_alone :=
  (Manager.run_alone py_hash remove_boilerplate extract_structured_content
                     extract_metadata combine_content clean_text).

Lemma stores_nothing_results_loop now urls i rs t : ∀ w,
  stores_nothing (job_ref t) w (results_loop now urls i rs t w).2.
Proof.
  induction rs as [|res rs IH]; intros w; simpl.
  - apply stores_nothing_batch_loop.
  - destruct (negb _); [apply stores_nothing_batch_loop |].
    destruct (dict_has "error" res); [| apply stores_nothing_refl].
    eapply stores_nothing_trans; [| apply IH].
    eapply stores_nothing_trans; [| apply stores_nothing_save].
    now apply stores_nothing_update.
Qed.

(** *** The end of a pipeline *)

(** The pipeline of the job object [r] has left: the id of the job is not
    in the active set, and the record of the jobs directory is the job as
    it stands, written last. *)
Definition left_behind (r : nat) (w : World) : Prop :=
  ∃ j, heap w !! r = Some j
       ∧ (job_id j ∉ active_jobs w)
       ∧ job_files w !! job_id j = Some j
       ∧ last (checkpoints w) = Some j.

Lemma finally_block_left r w :
  is_Some (heap w !! r) → left_behind r (finally_block r w).
Proof.
  intros [j Hj]. unfold finally_block. rewrite Hj.
  set (w1 := if bool_decide (job_id j ∈ active_jobs w)
             then set_active_jobs (active_jobs w ∖ {[ job_id j ]}) w
             else w).
  assert (Hh : heap w1 = heap w) by (unfold w1; now case_bool_decide).
  assert (Ha : job_id j ∉ active_jobs w1).
  { unfold w1. case_bool_decide; simpl; set_solver. }
  clearbody w1. unfold _save_job_metadata. rewrite Hh, Hj. exists j.
  cbn [heap active_jobs job_files checkpoints]. repeat split.
  - exact Hj.
  - exact Ha.
  - apply lookup_insert_eq.
  - apply last_snoc.
Qed.

Lemma leave_left t w :
  is_Some (heap w !! job_ref t) → left_behind (job_ref t) (leave t w).2.
Proof.
  intros H. unfold leave. simpl. destruct (nested t).
  - apply finally_block_left. now rewrite heap_finally.
  - now apply finally_block_left.
Qed.

Lemma is_Some_update r f w :
  is_Some (heap w !! r) → is_Some (heap (update_job r f w) !! r).
Proof. intros [j Hj]. exists (f j). now apply lookup_update_job. Qed.

Lemma complete_left now t w :
  is_Some (heap w !! job_ref t) →
  left_behind (job_ref t) (complete now t w).2.
Proof.
  intros H. unfold complete. apply leave_left.
  destruct (is_running _ _); [| exact H]. now do 2 apply is_Some_update.
Qed.

Lemma fail_left now msg t w :
  is_Some (heap w !! job_ref t) →
  left_behind (job_ref t) (fail now msg t w).2.
Proof.
  intros H. unfold fail. apply leave_left. now do 3 apply is_Some_update.
Qed.

Lemma batch_loop_left now urls i t w :
  is_Some (heap w !! job_ref t) →
  at_pc (batch_loop now urls i t w).1 = Finished →
  left_behind (job_ref t) (batch_loop now urls i t w).2.
Proof.
  intros H. unfold batch_loop.
  destruct (i <? length urls); [| intros _; now apply complete_left].
  destruct (negb _); [intros _; now apply complete_left | discriminate].
Qed.

Lemma results_loop_left now urls i rs t : ∀ w,
  is_Some (heap w !! job_ref t) →
  at_pc (results_loop now urls i rs t w).1 = Finished →
  left_behind (job_ref t) (results_loop now urls i rs t w).2.
Proof.
  induction rs as [|res rs IH]; intros w H; simpl.
  - now apply batch_loop_left.
  - destruct (negb _); [now apply batch_loop_left |].
    destruct (dict_has "error" res); [| discriminate].
    apply IH. rewrite heap_save. now apply is_Some_update.
Qed.

(** X19.  However a pipeline ends, as completed, failed or stopped, the
    step that ends it takes the id of its job out of the active set and
    writes the job, as it then stands, to the jobs directory. *)
Theorem pipeline_end_is_recorded (now : nat) (ev : event) (t : task)
  (w : World) :
  is_Some (heap w !! job_ref t) →
  at_pc t ≠ Finished →
  at_pc (task_step now ev t w).1 = Finished →
  left_behind (job_ref t) (task_step now ev t w).2.
Proof.
  intros H Hpc. unfold Manager.task_step.
  destruct (at_pc t) as [| seen | urls i | urls i res rest |] eqn:E;
    destruct ev; try (simpl; congruence).
  - destruct (entry t); [discriminate |].
    destruct (heap w !! job_ref t); [| simpl; congruence].
    destruct (0 <? _); discriminate.
  - destruct r as [urls_data | e]; [| intros _; now apply fail_left].
    destruct seen; apply batch_loop_left;
      rewrite heap_save; now apply is_Some_update.
  - destruct (extract_from_urls _ _);
      [now apply results_loop_left | intros _; now apply fail_left].
  - apply results_loop_left. rewrite heap_save. apply is_Some_update.
    now rewrite heap_save_content.
Qed.

(** X20.  A pipeline that wakes up on a job that is not running, because
    it was stopped in the meantime, ends at once and hands no further URL
    to the extractor, and the status of the job stays.  Woken by the
    discovery it still assigns [total_urls]; woken by the extractor it
    drops the results of the batch; woken by [_save_content] it still
    counts the page that was being saved. *)
Theorem stopped_pipeline_ends (now : nat) (e : entry_point) (r : nat)
  (n : bool) (w : World) (j : CrawlerJob) :
  heap w !! r = Some j →
  status j ≠ "running" →
  (∀ seen entries,
     let tw := task_step now (EvCrawled (Ok entries))
                 (mkTask e r (AwaitCrawl seen) n) w in
     at_pc tw.1 = Finished ∧ requested tw.2 = requested w
     ∧ ∃ total, heap tw.2 !! r = Some (set_total_urls total j))
  ∧ (∀ urls i web results,
       extract_from_urls web (batch_at urls i) = Ok results →
       let tw := task_step now (EvExtracted web)
                   (mkTask e r (AwaitExtract urls i) n) w in
       at_pc tw.1 = Finished ∧ requested tw.2 = requested w
       ∧ heap tw.2 !! r = Some j)
  ∧ (∀ urls i result rest io,
       let tw := task_step now (EvSaved io)
                   (mkTask e r (AwaitSave urls i result rest) n) w in
       at_pc tw.1 = Finished ∧ requested tw.2 = requested w
       ∧ heap tw.2 !! r = Some (record_success j)).
Proof.
  intros Hj Hs.
  assert (Hstop : ∀ w' j' t', heap w' !! r = Some j' →
            status j' = status j → job_ref t' = r →
            is_running r w' = false).
  { intros w' j' t' Hj' Hs' _. unfold is_running. rewrite Hj', Hs'.
    now apply String.eqb_neq. }
  assert (Hbatch : ∀ urls i w' j' t', heap w' !! r = Some j' →
            status j' = status j → job_ref t' = r →
            batch_loop now urls i t' w' = leave t' w').
  { intros urls i w' j' t' Hj' Hs' Hr. unfold batch_loop, complete.
    rewrite Hr, (Hstop w' j' t' Hj' Hs' Hr).
    now destruct (i <? length urls). }
  assert (Hres : ∀ urls i rs w' j' t', heap w' !! r = Some j' →
            status j' = status j → job_ref t' = r →
            results_loop now urls i rs t' w' = leave t' w').
  { intros urls i rs w' j' t' Hj' Hs' Hr.
    destruct rs as [|res rs]; simpl.
    - now apply (Hbatch _ _ _ j').
    - rewrite Hr, (Hstop w' j' t' Hj' Hs' Hr). simpl.
      now apply (Hbatch _ _ _ j'). }
  assert (Hupd : ∀ (f : CrawlerJob → CrawlerJob) w0,
            heap w0 = heap w →
            heap (_save_job_metadata r (update_job r f w0)) !! r
            = Some (f j)).
  { intros f w0 Hw0. rewrite heap_save. apply lookup_update_job.
    now rewrite Hw0. }
  split; [| split].
  - intros seen entries. unfold Manager.task_step. cbn [at_pc job_ref].
    destruct seen as [seen|].
    + erewrite Hbatch;
        [| apply (Hupd _ w eq_refl) | reflexivity | reflexivity].
      rewrite requested_leave, heap_leave, requested_save.
      repeat split.
      exists (processed_urls j + length (remaining seen entries)).
      apply (Hupd (fun j0 => set_total_urls
                               (processed_urls j0
                                + length (remaining seen entries)) j0)
                  w eq_refl).
    + erewrite Hbatch;
        [| apply (Hupd _ w eq_refl) | reflexivity | reflexivity].
      rewrite requested_leave, heap_leave, requested_save.
      repeat split.
      exists (length (Sitemap.url <$> entries)).
      apply (Hupd (set_total_urls (length (Sitemap.url <$> entries)))
                  w eq_refl).
  - intros urls i web results Hex. unfold Manager.task_step.
    cbn [at_pc job_ref]. rewrite Hex.
    erewrite Hres; [| exact Hj | reflexivity | reflexivity].
    now rewrite requested_leave, heap_leave.
  - intros urls i result rest io. unfold Manager.task_step.
    cbn [at_pc job_ref].
    erewrite Hres;
      [| apply (Hupd record_success _
                  (heap_save_content py_hash io _ result now w))
       | reflexivity | reflexivity].
    rewrite requested_leave, heap_leave, requested_save.
    repeat split.
    + simpl. apply requested_save_content.
    + apply (Hupd record_success _
               (heap_save_content py_hash io _ result now w)).
Qed.

(** X21.  A page that could not be written is counted as a success all
    the same: when [_save_content] fails on the file, nothing is stored,
    neither in the content directory nor in the [pages] table, and the
    next record of the job shows one more successful and one more
    processed URL. *)
Theorem failed_save_is_counted (now : nat) (e : entry_point) (r : nat)
  (n : bool) (w : World) (j : CrawlerJob) (urls : list string) (i : nat)
  (result : dict) (rest : list dict) (io : save_io) :
  heap w !! r = Some j →
  disk_ok io = false →
  content_files
    (task_step now (EvSaved io)
       (mkTask e r (AwaitSave urls i result rest) n) w).2
  = content_files w
  ∧ pages
      (task_step now (EvSaved io)
         (mkTask e r (AwaitSave urls i result rest) n) w).2
    = pages w
  ∧ (∃ more,
       checkpoints
         (task_step now (EvSaved io)
            (mkTask e r (AwaitSave urls i result rest) n) w).2
       = checkpoints w ++ record_success j :: more)
  ∧ ∃ j',
      heap
        (task_step now (EvSaved io)
           (mkTask e r (AwaitSave urls i result rest) n) w).2 !! r
      = Some j'
      ∧ successful_urls j' = S (successful_urls j).
Proof.
  intros Hj Hio. unfold Manager.task_step. cbn [at_pc job_ref].
  assert (Hsame : _save_content io (job_website_id r w) result now w = w).
  { unfold Manager._save_content.
    destruct (dict_lookup "url" result) as [[| u | | |]|]; try reflexivity.
    now rewrite Hio. }
  rewrite Hsame.
  set (w1 := _save_job_metadata r (update_job r record_success w)).
  assert (Hj1 : heap w1 !! r = Some (record_success j)).
  { unfold w1. rewrite heap_save. now apply lookup_update_job. }
  destruct (stores_nothing_results_loop now urls i rest
              (mkTask e r (AwaitSave urls i result rest) n) w1)
    as (Hc & Hp & [more Hm] & Hs).
  cbn [job_ref] in Hs. destruct (Hs _ Hj1) as (j' & Hj' & Hsucc).
  assert (Hcp : checkpoints w1 = checkpoints w ++ [record_success j]).
  { unfold w1, _save_job_metadata.
    rewrite (lookup_update_job r record_success w j Hj). reflexivity. }
  repeat split.
  - rewrite Hc. unfold w1. now rewrite content_files_save.
  - rewrite Hp. unfold w1, _save_job_metadata.
    now destruct (heap (update_job r record_success w) !! r).
  - exists more. rewrite Hm, Hcp, <- app_assoc. reflexivity.
  - exists j'. split; [exact Hj' | now rewrite Hsucc].
Qed.

(** X22.  An exception of [extract_from_urls] on a batch ends the job as
    failed, with the message added to its errors: no page of the batch is
    stored or counted, also the ones that were extracted well. *)
Theorem batch_exception_fails_job (now : nat) (e : entry_point) (r : nat)
  (n : bool) (w : World) (j : CrawlerJob) (urls : list string) (i : nat)
  (web : string → option string) (ex : exn) :
  heap w !! r = Some j →
  extract_from_urls web (batch_at urls i) = Raise ex →
  at_pc (task_step now (EvExtracted web)
           (mkTask e r (AwaitExtract urls i) n) w).1 = Finished
  ∧ heap (task_step now (EvExtracted web)
            (mkTask e r (AwaitExtract urls i) n) w).2 !! r
    = Some (append_error (exn_message ex)
              (set_end_time now (set_status "failed" j)))
  ∧ content_files (task_step now (EvExtracted web)
                     (mkTask e r (AwaitExtract urls i) n) w).2
    = content_files w
  ∧ pages (task_step now (EvExtracted web)
             (mkTask e r (AwaitExtract urls i) n) w).2
    = pages w.
Proof.
  intros Hj Hex. unfold Manager.task_step. cbn [at_pc job_ref].
  rewrite Hex.
  destruct (stores_nothing_fail now (exn_message ex)
              (mkTask e r (AwaitExtract urls i) n) w)
    as (Hc & Hp & _ & _).
  repeat split; [| exact Hc | exact Hp].
  unfold fail. rewrite heap_leave. cbn [job_ref].
  now do 3 apply lookup_update_job.
Qed.

(** X23.  A pipeline started by [start_job] that runs alone, with an
    extractor that raises for no URL, hands every discovered URL to the
    extractor once, in the order of discovery, and completes the job with
    [total_urls] the number of discovered URLs and [processed_urls] that
    number more than before: the two agree when the job had handled
    nothing before. *)
Theorem run_job_handles_every_url (now : nat)
  (web : string → option string) (io : save_io) (r : nat) (w : World)
  (j : CrawlerJob) (entries : list Sitemap.UrlEntry) :
  heap w !! r = Some j →
  status j = "running" →
  (∀ u, ∃ doc, extract_from_url web u = Ok doc) →
  ∃ fuel t' w' j',
    run_alone fuel now (Ok entries) web io (mkTask RunJob r Created false, w)
    = (t', w')
    ∧ at_pc t' = Finished
    ∧ requested w' = requested w ++ (Sitemap.url <$> entries)
    ∧ heap w' !! r = Some j'
    ∧ status j' = "completed"
    ∧ total_urls j' = length entries
    ∧ processed_urls j' = processed_urls j + length entries
    ∧ successful_urls j ≤ successful_urls j'
    ∧ failed_urls j ≤ failed_urls j'.
Proof.
  intros Hj Hs Hextract.
  set (urls := Sitemap.url <$> entries).
  set (t1 := mkTask RunJob r (AwaitCrawl None) false).
  set (w1 := _save_job_metadata r
               (update_job r (set_total_urls (length urls)) w)).
  destruct (loop_finishes py_hash remove_boilerplate
              extract_structured_content extract_metadata combine_content
              clean_text now (Ok entries) web io Hextract r urls
              (requested w) (processed_urls j) (successful_urls j)
              (failed_urls j) (length urls) (length urls - 0) 0 t1 w1
              eq_refl eq_refl)
    as [fuel Hdone].
  - exists (set_total_urls (length urls) j). unfold w1. rewrite heap_save.
    split; [now apply lookup_update_job |].
    simpl. repeat split; try assumption; lia.
  - unfold w1. rewrite requested_save. simpl. now rewrite app_nil_r.
  - destruct Hdone as (Hpc & Hreq & j' & Hj' & Hs' & Hp' & Ht' & Hsu & Hfa).
    destruct (run_alone fuel now (Ok entries) web io
                (batch_loop now urls 0 t1 w1)) as [t' w'] eqn:Hrun.
    exists (S (S fuel)), t', w', j'.
    unfold urls in Ht'. rewrite length_fmap in Ht'.
    unfold urls in Hp'. rewrite length_fmap in Hp'.
    split; [| repeat split; assumption].
    rewrite <- Hrun. reflexivity.
Qed.

(** X29.  A resumed job that has no [total_urls] yet is crawled from
    the start: the pipeline of [resume_job] then runs [_run_job], which
    takes every discovered URL, whether the content directory holds a
    record for it or not, and sets [total_urls] to their number. *)
Theorem resume_without_total_runs_discovery (now : nat)
  (web : string → option string) (io : save_io) (r : nat) (w : World)
  (j : CrawlerJob) (entries : list Sitemap.UrlEntry) :
  heap w !! r = Some j →
  status j = "running" →
  total_urls j = 0 →
  (∀ u, ∃ doc, extract_from_url web u = Ok doc) →
  ∃ fuel t' w' j',
    run_alone fuel now (Ok entries) web io
      (mkTask ResumeJob r Created false, w)
    = (t', w')
    ∧ at_pc t' = Finished
    ∧ requested w' = requested w ++ (Sitemap.url <$> entries)
    ∧ heap w' !! r = Some j'
    ∧ status j' = "completed"
    ∧ total_urls j' = length entries
    ∧ processed_urls j' = processed_urls j + length entries.
Proof.
  intros Hj Hs Htot Hextract.
  set (urls := Sitemap.url <$> entries).
  set (t1 := mkTask ResumeJob r (AwaitCrawl None) true).
  set (w1 := _save_job_metadata r
               (update_job r (set_total_urls (length urls)) w)).
  destruct (loop_finishes py_hash remove_boilerplate
              extract_structured_content extract_metadata combine_content
              clean_text now (Ok entries) web io Hextract r urls
              (requested w) (processed_urls j) (successful_urls j)
              (failed_urls j) (length urls) (length urls - 0) 0 t1 w1
              eq_refl eq_refl)
    as [fuel Hdone].
  - exists (set_total_urls (length urls) j). unfold w1. rewrite heap_save.
    split; [now apply lookup_update_job |].
    simpl. repeat split; try assumption; lia.
  - unfold w1. rewrite requested_save. simpl. now rewrite app_nil_r.
  - destruct Hdone as (Hpc & Hreq & j' & Hj' & Hs' & Hp' & Ht' & Hsu & Hfa).
    destruct (run_alone fuel now (Ok entries) web io
                (batch_loop now urls 0 t1 w1)) as [t' w'] eqn:Hrun.
    exists (S (S fuel)), t', w', j'.
    unfold urls in Ht'. rewrite length_fmap in Ht'.
    unfold urls in Hp'. rewrite length_fmap in Hp'.
    split; [| repeat split; assumption].
    rewrite <- Hrun.
    change (run_alone (S (S fuel)) now (Ok entries) web io
              (mkTask ResumeJob r Created false, w))
      with (run_alone (S fuel) now (Ok entries) web io
              (task_step now EvScheduled
                 (mkTask ResumeJob r Created false) w)).
    unfold Manager.task_step at 1. cbn [at_pc entry job_ref nested].
    rewrite Hj, Htot. reflexivity.
Qed.

End Steps.

(** *** [_save_content] and the records [_resume_job] looks for *)

(** X24.  What [_save_content] wrote is found again: after a save whose
    file was written, the content directory holds a record for the URL of
    the document, and [_resume_job] does not keep that URL among the ones
    to crawl.  A save whose file was not written changes nothing. *)
Theorem saved_url_is_not_crawled_again
  (py_hash : nat → string → Z) (io : save_io) (wid : Z) (doc : dict)
  (now : nat) (w : World) (u : string) :
  dict_lookup "url" doc = Some (PStr u) →
  (disk_ok io = true →
   has_record wid u (_save_content py_hash io wid doc now w)
   ∧ ∀ entries,
       u ∉ remaining
             (stored_urls wid (_save_content py_hash io wid doc now w))
             entries)
  ∧ (disk_ok io = false → _save_content py_hash io wid doc now w = w).
Proof.
  intros Hu. unfold _save_content. rewrite Hu. split; intros ->;
    [| reflexivity].
  assert (Hrec : ∀ p : list Page,
            has_record wid u
              (set_pages p
                 (set_content_files
                    (<[wid := <[py_hash (hash_seed w) u := doc]>
                                (default ∅ (content_files w !! wid))]>
                       (content_files w)) w))).
  { intros p. eexists _, (py_hash (hash_seed w) u), doc. simpl.
    split; [apply lookup_insert_eq |].
    split; [apply lookup_insert_eq | exact Hu]. }
  assert (Hrec' : has_record wid u
            (if db_ok io
             then set_pages
                    (upsert_page u doc wid now
                       (pages
                          (set_content_files
                             (<[wid := <[py_hash (hash_seed w) u := doc]>
                                         (default ∅
                                            (content_files w !! wid))]>
                                (content_files w)) w)))
                    (set_content_files
                       (<[wid := <[py_hash (hash_seed w) u := doc]>
                                   (default ∅ (content_files w !! wid))]>
                          (content_files w)) w)
             else set_content_files
                    (<[wid := <[py_hash (hash_seed w) u := doc]>
                                (default ∅ (content_files w !! wid))]>
                       (content_files w)) w)).
  { destruct (db_ok io); [apply Hrec |].
    destruct (Hrec (pages w)) as (d & f & x & H1 & H2 & H3).
    exists d, f, x. auto. }
  split; [exact Hrec' |].
  intros entries Hin. apply elem_of_remaining in Hin as [_ Hn].
  apply Hn. now apply elem_of_stored_urls.
Qed.

(** X25.  A page that is crawled again keeps its row: when the table has
    a row for the URL, the save rewrites the title, the content and the
    time of the crawl in that row and keeps its id, its website, also when
    the job belongs to another website, and its [is_indexed] flag; the
    rows of other URLs are found as before and no row is added. *)
Theorem upsert_page_keeps_row (u : string) (doc : dict) (wid : Z)
  (now : nat) (ps : list Page) (p : Page) :
  NoDup (page_id <$> ps) →
  get_by_url u ps = Some p →
  get_by_url u (upsert_page u doc wid now ps)
  = Some (mkPage (page_id p) u (dict_get "title" doc)
                 (dict_get "content" doc) (page_website_id p) (Some now)
                 (is_indexed p))
  ∧ length (upsert_page u doc wid now ps) = length ps
  ∧ ∀ u', u' ≠ u →
          get_by_url u' (upsert_page u doc wid now ps) = get_by_url u' ps.
Proof.
  intros Hnd Hget. unfold upsert_page. rewrite Hget, page_update_first.
  now apply update_first_row.
Qed.

(** *** Sample states *)

(** A manager with one job, started; the same after [stop_job]. *)
Definition started_world : World :=
  (start_job 2 "j1" (create_job "j1" 7 "https://x.test" None init_world).2).2.

Definition started_job : CrawlerJob :=
  set_start_time 2 (set_status "running"
                      (new_job "j1" 7 "https://x.test" None)).

Definition stopped_world : World := (stop_job 3 "j1" started_world).2.

Definition stopped_job : CrawlerJob :=
  set_end_time 3 (set_status "stopped" started_job).

Definition page_a : dict := [("url", PStr "https://x.test/a")].

Lemma pipeline_end_is_recorded_witness :
  left_behind 0
    (task_step Demo.demo_hash Demo.demo_boilerplate Demo.demo_structured
       Demo.demo_metadata Demo.demo_combine Demo.demo_clean 3
       (EvCrawled (Raise (Exception "no network")))
       (mkTask RunJob 0 (AwaitCrawl None) false) started_world).2.
Proof.
  apply (pipeline_end_is_recorded Demo.demo_hash Demo.demo_boilerplate
           Demo.demo_structured Demo.demo_metadata Demo.demo_combine
           Demo.demo_clean 3 (EvCrawled (Raise (Exception "no network")))
           (mkTask RunJob 0 (AwaitCrawl None) false) started_world);
    [eexists; reflexivity | discriminate | reflexivity].
Defined.

Lemma stopped_pipeline_ends_witness :
  at_pc
    (task_step Demo.demo_hash Demo.demo_boilerplate Demo.demo_structured
       Demo.demo_metadata Demo.demo_combine Demo.demo_clean 4
       (EvSaved (mkIO true true))
       (mkTask RunJob 0 (AwaitSave ["https://x.test/a"] 0 page_a []) false)
       stopped_world).1
  = Finished
  ∧ heap
      (task_step Demo.demo_hash Demo.demo_boilerplate Demo.demo_structured
         Demo.demo_metadata Demo.demo_combine Demo.demo_clean 4
         (EvSaved (mkIO true true))
         (mkTask RunJob 0 (AwaitSave ["https://x.test/a"] 0 page_a [])
                 false)
         stopped_world).2 !! 0
    = Some (record_success stopped_job).
Proof.
  destruct (stopped_pipeline_ends Demo.demo_hash Demo.demo_boilerplate
              Demo.demo_structured Demo.demo_metadata Demo.demo_combine
              Demo.demo_clean 4 RunJob 0 false stopped_world stopped_job)
    as (_ & _ & H); [reflexivity | discriminate |].
  destruct (H ["https://x.test/a"] 0 page_a [] (mkIO true true))
    as (H1 & _ & H3).
  split; [exact H1 | exact H3].
Defined.

Lemma failed_save_is_counted_witness :
  content_files
    (task_step Demo.demo_hash Demo.demo_boilerplate Demo.demo_structured
       Demo.demo_metadata Demo.demo_combine Demo.demo_clean 4
       (EvSaved (mkIO false true))
       (mkTask RunJob 0 (AwaitSave ["https://x.test/a"] 0 page_a []) false)
       started_world).2
  = ∅
  ∧ ∃ j',
      heap
        (task_step Demo.demo_hash Demo.demo_boilerplate Demo.demo_structured
           Demo.demo_metadata Demo.demo_combine Demo.demo_clean 4
           (EvSaved (mkIO false true))
           (mkTask RunJob 0 (AwaitSave ["https://x.test/a"] 0 page_a [])
                   false)
           started_world).2 !! 0
      = Some j'
      ∧ successful_urls j' = 1.
Proof.
  destruct (failed_save_is_counted Demo.demo_hash Demo.demo_boilerplate
              Demo.demo_structured Demo.demo_metadata Demo.demo_combine
              Demo.demo_clean 4 RunJob 0 false started_world started_job
              ["https://x.test/a"] 0 page_a [] (mkIO false true))
    as (H1 & _ & _ & j' & H4 & H5); [reflexivity | reflexivity |].
  split; [exact H1 |]. exists j'. split; [exact H4 | exact H5].
Defined.

Lemma batch_exception_fails_job_witness :
  heap
    (task_step Demo.demo_hash Demo.demo_boilerplate
       ExtractorFacts.fragile_structured Demo.demo_metadata
       Demo.demo_combine Demo.demo_clean 4
       (EvExtracted ExtractorFacts.site_with_broken_page)
       (mkTask RunJob 0
          (AwaitExtract ["https://x.test/a"; "https://x.test/b"] 0) false)
       started_world).2 !! 0
  = Some (append_error "lxml"
            (set_end_time 4 (set_status "failed" started_job))).
Proof.
  destruct (batch_exception_fails_job Demo.demo_hash Demo.demo_boilerplate
              ExtractorFacts.fragile_structured Demo.demo_metadata
              Demo.demo_combine Demo.demo_clean 4 RunJob 0 false
              started_world started_job
              ["https://x.test/a"; "https://x.test/b"] 0
              ExtractorFacts.site_with_broken_page (Exception "lxml"))
    as (_ & H & _); [reflexivity | reflexivity |].
  exact H.
Defined.

Lemma run_job_handles_every_url_witness :
  ∃ fuel t' w' j',
    run_alone Demo.demo_hash Demo.demo_boilerplate Demo.demo_structured
      Demo.demo_metadata Demo.demo_combine Demo.demo_clean fuel 3
      (Ok [Demo.bare_entry "https://x.test/a";
           Demo.bare_entry "https://x.test/b"])
      Demo.demo_online (mkIO true true)
      (mkTask RunJob 0 Created false, started_world)
    = (t', w')
    ∧ requested w' = ["https://x.test/a"; "https://x.test/b"]
    ∧ heap w' !! 0 = Some j'
    ∧ status j' = "completed"
    ∧ total_urls j' = 2
    ∧ processed_urls j' = 2.
Proof.
  destruct (run_job_handles_every_url Demo.demo_hash Demo.demo_boilerplate
              Demo.demo_structured Demo.demo_metadata Demo.demo_combine
              Demo.demo_clean 3 Demo.demo_online (mkIO true true) 0
              started_world started_job
              [Demo.bare_entry "https://x.test/a";
               Demo.bare_entry "https://x.test/b"])
    as (fuel & t' & w' & j' & H1 & _ & H3 & H4 & H5 & H6 & H7 & _);
    [reflexivity | reflexivity | intros u; eexists; reflexivity |].
  exists fuel, t', w', j'. repeat split; assumption.
Defined.

Lemma saved_url_is_not_crawled_again_witness :
  has_record 7 "https://x.test/a"
    (_save_content Demo.demo_hash (mkIO true false) 7 page_a 4
                   started_world).
Proof.
  destruct (saved_url_is_not_crawled_again Demo.demo_hash (mkIO true false)
              7 page_a 4 started_world "https://x.test/a")
    as [H _]; [reflexivity |].
  destruct (H eq_refl) as [Hrec _]. exact Hrec.
Defined.

Lemma upsert_page_keeps_row_witness :
  get_by_url "https://x.test/a"
    (upsert_page "https://x.test/a" page_a 9 5
       [mkPage 1 "https://x.test/a" (PStr "Old") (PStr "old text") 7
               (Some 1) true])
  = Some (mkPage 1 "https://x.test/a" PNone PNone 7 (Some 5) true).
Proof.
  destruct (upsert_page_keeps_row "https://x.test/a" page_a 9 5
              [mkPage 1 "https://x.test/a" (PStr "Old") (PStr "old text") 7
                      (Some 1) true]
              (mkPage 1 "https://x.test/a" (PStr "Old") (PStr "old text") 7
                      (Some 1) true))
    as [H _]; [apply NoDup_singleton | reflexivity |].
  exact H.
Defined.

Lemma resume_without_total_runs_discovery_witness :
  ∃ fuel t' w' j',
    run_alone Demo.demo_hash Demo.demo_boilerplate Demo.demo_structured
      Demo.demo_metadata Demo.demo_combine Demo.demo_clean fuel 3
      (Ok [Demo.bare_entry "https://x.test/a"])
      Demo.demo_online (mkIO true true)
      (mkTask ResumeJob 0 Created false,
       _save_content Demo.demo_hash (mkIO true false) 7 page_a 2
                     started_world)
    = (t', w')
    ∧ requested w' = ["https://x.test/a"]
    ∧ heap w' !! 0 = Some j'
    ∧ total_urls j' = 1.
Proof.
  destruct (resume_without_total_runs_discovery Demo.demo_hash
              Demo.demo_boilerplate Demo.demo_structured Demo.demo_metadata
              Demo.demo_combine Demo.demo_clean 3 Demo.demo_online
              (mkIO true true) 0
              (_save_content Demo.demo_hash (mkIO true false) 7 page_a 2
                             started_world)
              started_job [Demo.bare_entry "https://x.test/a"])
    as (fuel & t' & w' & j' & H1 & _ & H3 & H4 & _ & H6 & _);
    [reflexivity | reflexivity | reflexivity
    | intros u; eexists; reflexivity |].
  exists fuel, t', w', j'. repeat split; assumption.
Defined.

End PipelineFacts.

(* ===================================================================== *)
(** ** api/endpoints/crawler.py: properties *)
(* ===================================================================== *)

Module EndpointFacts.
Import ManagerProps ResumeProps.
Import Manager.

(** What [create_job] leaves of the new job. *)
Lemma create_job_facts new_id wid wurl smap w :
  get_job (create_job new_id wid wurl smap w).2 new_id
  = Some (length (heap w), new_job new_id wid wurl smap)
  ∧ job_files (create_job new_id wid wurl smap w).2 !! new_id
    = Some (new_job new_id wid wurl smap)
  ∧ active_jobs (create_job new_id wid wurl smap w).2 = active_jobs w
  ∧ max_concurrent_jobs (create_job new_id wid wurl smap w).2
    = max_concurrent_jobs w
  ∧ tasks (create_job new_id wid wurl smap w).2 = tasks w.
Proof.
  destruct w as [h js act mx ts jf cf pg seed cps req].
  unfold create_job, _save_job_metadata, get_job. simpl.
  rewrite !(list_lookup_middle h [] _ (length h) eq_refl). simpl.
  rewrite !lookup_insert_eq.
  rewrite !(list_lookup_middle h [] _ (length h) eq_refl).
  repeat split.
Qed.

(** X15.  [create_job] registers what it returns: the new job is found
    under its id as a pending job with all counters at zero, in the
    manager and in the jobs directory; the jobs found under other ids are
    found as before; the active set, the cap and the tasks do not
    change. *)
Theorem create_job_registers (new_id : string) (wid : Z) (wurl : string)
  (smap : option string) (w : World) :
  get_job (create_job new_id wid wurl smap w).2 new_id
  = Some (length (heap w),
          mkJob new_id wid wurl smap "pending" None None 0 0 0 0 [])
  ∧ job_files (create_job new_id wid wurl smap w).2 !! new_id
    = Some (mkJob new_id wid wurl smap "pending" None None 0 0 0 0 [])
  ∧ active_jobs (create_job new_id wid wurl smap w).2 = active_jobs w
  ∧ max_concurrent_jobs (create_job new_id wid wurl smap w).2
    = max_concurrent_jobs w
  ∧ tasks (create_job new_id wid wurl smap w).2 = tasks w
  ∧ ∀ id r j, id ≠ new_id → get_job w id = Some (r, j) →
              get_job (create_job new_id wid wurl smap w).2 id
              = Some (r, j).
Proof.
  destruct (create_job_facts new_id wid wurl smap w)
    as (H1 & H2 & H3 & H4 & H5).
  repeat split; try assumption.
  intros id r j Hne Hget. apply get_job_Some in Hget as [Hjobs Hheap].
  unfold create_job, _save_job_metadata, get_job. cbn [snd].
  destruct w as [h js act mx ts jf cf pg seed cps req]. simpl in *.
  rewrite (list_lookup_middle h [] _ (length h) eq_refl). simpl.
  rewrite lookup_insert_ne by congruence. rewrite Hjobs.
  now rewrite (lookup_app_l_Some _ _ _ _ Hheap).
Qed.

Section Routes.

Variable repository_get : Z → option Endpoints.Website.

#[local] Abbreviation start_crawl := (Endpoints.start_crawl repository_get).

(** X26.  [POST /crawl/{website_id}] creates the job before it asks for
    the start.  Under the cap it answers with the id of the job and the
    status ["running"].  At the cap it answers 409, and the job it created
    stays behind as ["pending"], registered in the manager and written to
    the jobs directory; no pipeline is queued for it. *)
Theorem start_crawl_leaves_pending_job (new_id : string) (now : nat)
  (website_id : Z) (website : Endpoints.Website) (w : World) :
  repository_get website_id = Some website →
  (size (active_jobs w) < max_concurrent_jobs w →
   (start_crawl new_id now website_id w).1
   = Endpoints.Returns (Endpoints.mkJobStatus new_id "running"))
  ∧ (max_concurrent_jobs w ≤ size (active_jobs w) →
     ∃ detail w',
       start_crawl new_id now website_id w
       = (Endpoints.HTTPException 409 detail, w')
       ∧ (snd <$> get_job w' new_id)
         = Some (new_job new_id (Endpoints.ws_id website)
                         (Endpoints.ws_url website)
                         (Endpoints.ws_sitemap_url website))
       ∧ job_files w' !! new_id
         = Some (new_job new_id (Endpoints.ws_id website)
                         (Endpoints.ws_url website)
                         (Endpoints.ws_sitemap_url website))
       ∧ tasks w' = tasks w
       ∧ active_jobs w' = active_jobs w).
Proof.
  intros Hsite. unfold Endpoints.start_crawl. rewrite Hsite.
  destruct (create_job_facts new_id (Endpoints.ws_id website)
              (Endpoints.ws_url website) (Endpoints.ws_sitemap_url website)
              w) as (Hget & Hfile & Hact & Hmax & Htasks).
  destruct (create_job new_id (Endpoints.ws_id website)
              (Endpoints.ws_url website) (Endpoints.ws_sitemap_url website)
              w) as [r w1] eqn:Hcreate.
  cbn [snd] in *.
  assert (Hr : r = length (heap w)).
  { unfold create_job in Hcreate. now injection Hcreate as <- _. }
  split.
  - intros Hcap.
    rewrite (start_job_admits now new_id w1 _ _ Hget)
      by (try discriminate; now rewrite Hact, Hmax).
    cbn [negb]. unfold started. cbn [heap]. rewrite Hr.
    apply get_job_Some in Hget as [_ Hheap].
    rewrite list_lookup_insert_eq by (eapply lookup_lt_Some; eauto).
    reflexivity.
  - intros Hcap. unfold start_job. rewrite Hget. cbn [status new_job].
    assert (Hfull : (max_concurrent_jobs w1 <=? size (active_jobs w1)) = true).
    { apply Nat.leb_le. now rewrite Hact, Hmax. }
    cbn [String.eqb]. rewrite Hfull. cbn [negb].
    eexists _, w1. split; [reflexivity |].
    rewrite Hget. repeat split; assumption.
Qed.

End Routes.

(** X27.  [POST /jobs/{job_id}/stop] never answers 500 with "Failed to
    stop crawling job": after its own checks [stop_job] cannot return
    [False].  For a running job it answers with the status ["stopped"]
    when the id is in the active set, and otherwise ends with the
    [KeyError] of [stop_job], uncaught. *)
Theorem stop_route_never_reports_failure (now : nat) (id : string)
  (w : World) :
  (∀ detail, (Endpoints.stop_job now id w).1
             ≠ Endpoints.HTTPException 500 detail)
  ∧ (∀ r j, get_job w id = Some (r, j) → status j = "running" →
            (id ∈ active_jobs w →
             (Endpoints.stop_job now id w).1
             = Endpoints.Returns (Endpoints.mkJobStatus id "stopped"))
            ∧ (id ∉ active_jobs w →
               (Endpoints.stop_job now id w).1
               = Endpoints.Uncaught KeyError)).
Proof.
  unfold Endpoints.stop_job. split.
  - intros detail.
    destruct (get_job w id) as [[r j]|] eqn:Hget; [| discriminate].
    destruct (String.eqb (status j) "running") eqn:Hs; [| discriminate].
    apply String.eqb_eq in Hs. cbn [negb].
    destruct (decide (id ∈ active_jobs w)) as [Hin | Hout].
    + destruct (stop_job_stops now id w r j Hget Hs Hin) as (w' & -> & _).
      discriminate.
    + destruct (stop_job_key_error now id w r j Hget Hs Hout)
        as (w' & -> & _).
      discriminate.
  - intros r j Hget Hs. rewrite Hget, Hs.
    change (negb (String.eqb "running" "running")) with false. cbv iota.
    split.
    + intros Hin.
      destruct (stop_job_stops now id w r j Hget Hs Hin) as (w' & -> & _).
      reflexivity.
    + intros Hout.
      destruct (stop_job_key_error now id w r j Hget Hs Hout)
        as (w' & -> & _).
      reflexivity.
Qed.

(** X28.  [POST /jobs/{job_id}/resume] answers 500 exactly when the job
    is failed or stopped and the active set is at the cap; the state is
    then as it was. *)
Theorem resume_route_fails_at_cap (id : string) (w : World) :
  ((∃ detail, (Endpoints.resume_job id w).1
              = Endpoints.HTTPException 500 detail)
   ↔ ∃ r j, get_job w id = Some (r, j)
            ∧ (status j = "failed" ∨ status j = "stopped")
            ∧ max_concurrent_jobs w ≤ size (active_jobs w))
  ∧ (∀ detail, (Endpoints.resume_job id w).1
               = Endpoints.HTTPException 500 detail →
               (Endpoints.resume_job id w).2 = w).
Proof.
  assert (Hcases : ∀ detail,
            (Endpoints.resume_job id w).1
            = Endpoints.HTTPException 500 detail →
            (Endpoints.resume_job id w).2 = w
            ∧ ∃ r j, get_job w id = Some (r, j)
                     ∧ (status j = "failed" ∨ status j = "stopped")
                     ∧ max_concurrent_jobs w ≤ size (active_jobs w)).
  { unfold Endpoints.resume_job. intros detail H.
    destruct (get_job w id) as [[r j]|] eqn:Hget; [| discriminate].
    destruct (negb (String.eqb (status j) "failed"
                    || String.eqb (status j) "stopped")) eqn:Hs;
      [discriminate |].
    apply negb_false_iff, orb_true_iff in Hs.
    rewrite !String.eqb_eq in Hs.
    destruct (Nat.le_gt_cases (max_concurrent_jobs w) (size (active_jobs w)))
      as [Hle | Hgt].
    - split; [| exists r, j; auto].
      rewrite (resume_job_refuses id w); [reflexivity |].
      right. exists r, j. split; [exact Hget | right; exact Hle].
    - rewrite (resume_job_admits id w r j Hget Hs Hgt) in H.
      discriminate. }
  split; [split |].
  - intros [detail H]. now apply Hcases in H.
  - intros (r & j & Hget & Hs & Hcap). unfold Endpoints.resume_job.
    rewrite Hget.
    assert (Hst : negb (String.eqb (status j) "failed"
                        || String.eqb (status j) "stopped") = false).
    { destruct Hs as [-> | ->]; reflexivity. }
    rewrite Hst. unfold resume_job. rewrite Hget, Hst.
    apply Nat.leb_le in Hcap. rewrite Hcap. cbn [negb].
    eexists. reflexivity.
  - intros detail H. now apply Hcases in H.
Qed.

(** *** Samples *)

Definition one_website (id : Z) : option Endpoints.Website :=
  if Z.eqb id 7 then Some (Endpoints.mkWebsite 7 "https://x.test" None)
  else None.

(** A manager whose three slots are taken. *)
Definition full_world : World :=
  Demo.demo_run
    [ (1, CreateJob "j1" 7 "https://x.test" None); (1, StartJob "j1");
      (2, CreateJob "j2" 7 "https://x.test" None); (2, StartJob "j2");
      (3, CreateJob "j3" 7 "https://x.test" None); (3, StartJob "j3") ].

Lemma start_crawl_leaves_pending_job_witness :
  (Endpoints.start_crawl one_website "j4" 4 7 full_world).1
  = Endpoints.HTTPException 409
      "Failed to start crawling job, maximum concurrent jobs reached or job is already running"
  ∧ (status <$>
       job_files (Endpoints.start_crawl one_website "j4" 4 7 full_world).2
       !! "j4")
    = Some "pending".
Proof.
  destruct (start_crawl_leaves_pending_job one_website "j4" 4 7
              (Endpoints.mkWebsite 7 "https://x.test" None) full_world
              eq_refl) as [_ H].
  destruct H as (detail & w' & Hrun & _ & Hfile & _).
  - vm_compute. lia.
  - rewrite Hrun. cbn [fst snd]. rewrite Hfile. split; [| reflexivity].
    vm_compute in Hrun. injection Hrun as <- _. reflexivity.
Defined.

Lemma stop_route_never_reports_failure_witness :
  (Endpoints.stop_job 5 "j1"
     (load_jobs (restart 1 PipelineFacts.started_world))).1
  = Endpoints.Uncaught KeyError.
Proof.
  destruct (stop_route_never_reports_failure 5 "j1"
              (load_jobs (restart 1 PipelineFacts.started_world)))
    as [_ H].
  destruct (H 0 PipelineFacts.started_job) as [_ H'];
    [vm_compute; reflexivity | reflexivity |].
  apply H'. apply (bool_decide_unpack _). vm_compute. exact I.
Defined.

Lemma resume_route_fails_at_cap_witness :
  ∃ detail,
    (Endpoints.resume_job "j0"
       (Demo.demo_run
          [ (1, CreateJob "j0" 7 "https://x.test" None); (1, StartJob "j0");
            (2, StopJob "j0");
            (3, CreateJob "j1" 7 "https://x.test" None); (3, StartJob "j1");
            (4, CreateJob "j2" 7 "https://x.test" None); (4, StartJob "j2");
            (5, CreateJob "j3" 7 "https://x.test" None);
            (5, StartJob "j3") ])).1
    = Endpoints.HTTPException 500 detail.
Proof.
  apply resume_route_fails_at_cap.
  eexists 0, _. split; [vm_compute; reflexivity |].
  split; [right; reflexivity | vm_compute; lia].
Defined.

Lemma create_job_registers_witness :
  get_job (create_job "j2" 9 "https://y.test" None
             PipelineFacts.started_world).2 "j2"
  = Some (1, new_job "j2" 9 "https://y.test" None)
  ∧ get_job (create_job "j2" 9 "https://y.test" None
               PipelineFacts.started_world).2 "j1"
    = Some (0, PipelineFacts.started_job).
Proof.
  destruct (create_job_registers "j2" 9 "https://y.test" None
              PipelineFacts.started_world) as (H1 & _ & _ & _ & _ & H6).
  split; [exact H1 |]. apply H6; [discriminate | reflexivity].
Defined.

End EndpointFacts.
